(** * mpubg-client-js: match-state tracking, paced dispatch, reconnection and
      leaderboard reconciliation

    A shallow embedding of the TypeScript sources

    - [src/shared/match-state-manager.ts]   ([Module MatchStateManager])
    - [src/shared/message-dispatcher.ts]    ([Module MessageDispatcher])
    - [src/shared/websocket-client.ts]      ([Module WebSocketClient])
    - [src/renderer/overlay/panel_animation_controller.ts],
      [src/renderer/overlay/live_team_panel.ts] ([Module LiveTeamPanel])
    - [src/renderer/overlay/livestanding.ts] ([Module LiveStanding])

    Conventions.  JavaScript numbers that hold ranks, indices and
    millisecond clocks are integers ([Z]).  A [Uint8Array] is a [list byte].
    Objects mutated in place become records that are passed and returned;
    the [Map]s keyed by team name are [gmap string _].  Callbacks handed to
    a class are sinks: every invocation is appended to a log kept next to
    the object's fields, so that "the callback fired" is a statement about
    the log.  [Date.now()] is an argument of the function that reads it. *)

From Stdlib Require Import ZArith Lia Strings.Byte Sorted Permutation.
From stdpp Require Import base option list strings gmap sorting.
From Stdlib Require Import Ascii.

Local Open Scope Z_scope.

(** Bytes have decidable equality; [Byte.eqb] is the test the code runs. *)
#[global] Instance byte_eq_decision : EqDecision byte := Byte.byte_eq_dec.

(* ===================================================================== *)
(** * MatchStateManager *)
(* ===================================================================== *)

Module MatchStateManager.

(** [interface MatchState] *)
Record MatchState := mkMatchState {
  matchId : option (list byte);
  tournamentId : string;
  lastUpdateTime : Z
}.

(** The field initialiser of [currentState]. *)
Definition initial : MatchState :=
  {| matchId := None; tournamentId := EmptyString; lastUpdateTime := 0 |}.

(** [id1[i] !== id2[i]] on two typed-array reads. *)
Definition sameElement (a b : option byte) : bool :=
  match a, b with
  | Some x, Some y => Byte.eqb x y
  | None, None => true
  | _, _ => false
  end.

(** The [for] loop of [areMatchIdsEqual]: [n] iterations are left and the
    loop variable is [i]. *)
Fixpoint compareFrom (id1 id2 : list byte) (n : nat) (i : nat) : bool :=
  match n with
  | O => true
  | S n' =>
      if negb (sameElement (id1 !! i) (id2 !! i)) then false
      else compareFrom id1 id2 n' (S i)
  end.

Definition areMatchIdsEqual (id1 id2 : list byte) : bool :=
  if negb (Nat.eqb (length id1) (length id2)) then false
  else compareFrom id1 id2 (length id1) 0.

(** [shouldRefresh]: the logger calls are not modelled. *)
Definition shouldRefresh (newMatchId : list byte) (s : MatchState) : bool :=
  match matchId s with
  | None => false
  | Some current =>
      let isDifferent := negb (areMatchIdsEqual current newMatchId) in
      isDifferent
  end.

(** [updateState]; [new Uint8Array(matchId)] copies the bytes, and a list
    is its own copy.  [now] is [Date.now()]. *)
Definition updateState (newId : list byte) (tid : string) (now : Z)
    (_ : MatchState) : MatchState :=
  {| matchId := Some newId; tournamentId := tid; lastUpdateTime := now |}.

Definition clear (_ : MatchState) : MatchState := initial.

(** ** Sequences of calls *)

Inductive call :=
| ShouldRefresh (newMatchId : list byte)
| UpdateState (newId : list byte) (tid : string) (now : Z).

Definition exec (s : MatchState) (c : call) : MatchState :=
  match c with
  | ShouldRefresh _ => s
  | UpdateState i t now => updateState i t now s
  end.

Definition run (cs : list call) (s : MatchState) : MatchState :=
  foldl exec s cs.

(** The argument of the last [updateState] call of a sequence, read off
    the sequence itself. *)
Fixpoint lastStored (acc : option (list byte)) (cs : list call)
    : option (list byte) :=
  match cs with
  | [] => acc
  | ShouldRefresh _ :: cs' => lastStored acc cs'
  | UpdateState i _ _ :: cs' => lastStored (Some i) cs'
  end.

(** ** The dispatcher callback that drives the manager

    [new MessageDispatcher((message, reconnecting) => { ... })] of the
    integration code: ask [shouldRefresh], branch on the answer and on
    [reconnecting], then [updateState]. *)

Inductive decision := Refresh | Reconnected | Update.

Record delivery := mkDelivery {
  d_matchId : list byte;
  d_tournamentId : string;
  d_reconnecting : bool;
  d_now : Z
}.

Definition onUpdate (m : delivery) (s : MatchState) : decision * MatchState :=
  let refresh := shouldRefresh (d_matchId m) s in
  let dec := if refresh then Refresh
             else if d_reconnecting m then Reconnected else Update in
  (dec, updateState (d_matchId m) (d_tournamentId m) (d_now m) s).

Fixpoint deliverAll (ms : list delivery) (s : MatchState) : list decision :=
  match ms with
  | [] => []
  | m :: ms' => let '(dec, s') := onUpdate m s in dec :: deliverAll ms' s'
  end.

Definition isRefresh (d : decision) : bool :=
  match d with Refresh => true | _ => false end.

(** What the refresh answers of a stream of match ids have to be: [false]
    for the first one, then "differs from its predecessor". *)
Fixpoint expectedRefresh (prev : option (list byte)) (ids : list (list byte))
    : list bool :=
  match ids with
  | [] => []
  | i :: ids' =>
      match prev with
      | None => false
      | Some p => bool_decide (p ≠ i)
      end :: expectedRefresh (Some i) ids'
  end.

End MatchStateManager.

(* ===================================================================== *)
(** * MessageDispatcher *)
(* ===================================================================== *)

Module MessageDispatcher.

(** [interface EventQueueData] *)
Record EventQueueData := mkEventQueueData {
  reconnecting : bool;
  data : string
}.

Definition intervalMs : Z := 1500.
Definition checkIntervalMs : Z := 100.

Section WithDecoder.

(** The decoded message type and [dataFormat.parseFromJson] belong to the
    protobuf library; [None] stands for a thrown exception. *)
Context {ObserverMessage2 : Type}.
Variable parseFromJson : string → option ObserverMessage2.

(** One invocation of the [onUpdate] callback: its two arguments, and the
    clock value read at the top of the tick that made the call. *)
Record callbackCall := mkCall {
  call_at : Z;
  call_message : ObserverMessage2;
  call_reconnecting : bool
}.

(** The fields of the class.  [intervalTimer] is [true] when the field
    holds a timer handle and [false] when it is [null]; [onUpdate]
    likewise says whether a callback is registered; [delivered] is the
    log of callback invocations, oldest first. *)
Record Dispatcher := mkDispatcher {
  eventQueue : list EventQueueData;
  intervalTimer : bool;
  latestProcessTime : Z;
  onUpdate : bool;
  delivered : list callbackCall
}.

(** [new MessageDispatcher(onUpdate?)] at clock [now]. *)
Definition create (callback : bool) (now : Z) : Dispatcher :=
  {| eventQueue := []; intervalTimer := false; latestProcessTime := now;
     onUpdate := callback; delivered := [] |}.

Definition start (now : Z) (d : Dispatcher) : Dispatcher :=
  if intervalTimer d then d
  else {| eventQueue := eventQueue d; intervalTimer := true;
          latestProcessTime := now; onUpdate := onUpdate d;
          delivered := delivered d |}.

Definition stop (d : Dispatcher) : Dispatcher :=
  if intervalTimer d
  then {| eventQueue := eventQueue d; intervalTimer := false;
          latestProcessTime := latestProcessTime d; onUpdate := onUpdate d;
          delivered := delivered d |}
  else d.

Definition enqueue (m : EventQueueData) (d : Dispatcher) : Dispatcher :=
  {| eventQueue := eventQueue d ++ [m]; intervalTimer := intervalTimer d;
     latestProcessTime := latestProcessTime d; onUpdate := onUpdate d;
     delivered := delivered d |}.

Definition clear (d : Dispatcher) : Dispatcher :=
  {| eventQueue := []; intervalTimer := intervalTimer d;
     latestProcessTime := latestProcessTime d; onUpdate := onUpdate d;
     delivered := delivered d |}.

Definition getQueueSize (d : Dispatcher) : nat := length (eventQueue d).

(** The two [shift()] calls of [onTimerExpired] on a non-empty queue:
    the entry kept in [eventData] and the queue left behind. *)
Definition dequeue (first : EventQueueData) (rest : list EventQueueData)
    : EventQueueData * list EventQueueData :=
  match rest with
  | [] => (first, [])
  | eventData2 :: rest' => (eventData2, rest')
  end.

(** The [try { ... } catch] block: the log after handling [eventData]
    in the tick that started at [now]. *)
Definition process (now : Z) (eventData : EventQueueData) (d : Dispatcher)
    : list callbackCall :=
  match parseFromJson (data eventData) with
  | Some observerMessage =>
      if onUpdate d
      then delivered d ++ [mkCall now observerMessage (reconnecting eventData)]
      else delivered d
  | None => delivered d
  end.

(** [onTimerExpired]: [now] is the [Date.now()] of its first line and
    [now'] the one stored in [latestProcessTime] on its last line. *)
Definition onTimerExpired (now now' : Z) (d : Dispatcher) : Dispatcher :=
  if now - latestProcessTime d <? intervalMs then d
  else
    match eventQueue d with
    | [] => d
    | first :: rest =>
        let '(eventData, queue') := dequeue first rest in
        {| eventQueue := queue'; intervalTimer := intervalTimer d;
           latestProcessTime := now'; onUpdate := onUpdate d;
           delivered := process now eventData d |}
    end.

(** The runtime calls the [setInterval] callback only while the interval
    is registered, that is between [start] and [stop]. *)
Definition timerFires (now now' : Z) (d : Dispatcher) : Dispatcher :=
  if intervalTimer d then onTimerExpired now now' d else d.

(** ** Runs *)

Inductive event :=
| Start (now : Z)
| Stop
| Enqueue (m : EventQueueData)
| Clear
| Timer (now now' : Z).

Definition step (d : Dispatcher) (e : event) : Dispatcher :=
  match e with
  | Start now => start now d
  | Stop => stop d
  | Enqueue m => enqueue m d
  | Clear => clear d
  | Timer now now' => timerFires now now' d
  end.

Definition runEvents (es : list event) (d : Dispatcher) : Dispatcher :=
  foldl step d es.

(** The clock never runs backwards along a run that starts at [t]. *)
Fixpoint wellTimed (t : Z) (es : list event) : Prop :=
  match es with
  | [] => True
  | Start now :: es' => t ≤ now ∧ wellTimed now es'
  | Timer now now' :: es' => t ≤ now ∧ now ≤ now' ∧ wellTimed now' es'
  | _ :: es' => wellTimed t es'
  end.

(** The times of the callback invocations of a dispatcher. *)
Definition deliveryTimes (d : Dispatcher) : list Z :=
  call_at <$> delivered d.

(** [a] and [b] are at least one pacing interval apart, [a] first. *)
Definition paced (a b : Z) : Prop := a + intervalMs ≤ b.

(** The entry a tick hands to the decoder when the queue is
    [first :: rest]: the head of a one-entry queue, else the second
    entry. *)
Definition chosen (first : EventQueueData) (rest : list EventQueueData)
    : EventQueueData :=
  match rest with
  | [] => first
  | second :: _ => second
  end.

(** The callback invocations that handling [m] in a tick at [now] adds. *)
Definition callsFor (now : Z) (m : EventQueueData) (d : Dispatcher)
    : list callbackCall :=
  match parseFromJson (data m) with
  | Some observerMessage =>
      if onUpdate d then [mkCall now observerMessage (reconnecting m)] else []
  | None => []
  end.

(** What a run keeps true at clock [t]: the dispatcher's
    [latestProcessTime] is not in the future, no callback was invoked
    after it, and the invocations are a pacing interval apart. *)
Definition pacedUpTo (t : Z) (d : Dispatcher) : Prop :=
  latestProcessTime d ≤ t ∧
  Forall (λ x, x ≤ latestProcessTime d) (deliveryTimes d) ∧
  StronglySorted paced (deliveryTimes d).

(** Ticks of the 100 ms timer: [n] of them, the first at [from]; the
    handler is taken to run in no time. *)
Fixpoint ticks (from : Z) (n : nat) : list event :=
  match n with
  | O => []
  | S n' => Timer from from :: ticks (from + checkIntervalMs) n'
  end.

(** Three messages 200 ms apart into a dispatcher started at clock 0, all
    of them queued before the tick at 1500 ms, the first at which a
    pacing interval has passed. *)
Definition idleBurst (m1 m2 m3 : EventQueueData) : list event :=
  Start 0 :: ticks 100 10 ++
  [Enqueue m1; Timer 1100 1100; Timer 1200 1200;
   Enqueue m2; Timer 1300 1300; Timer 1400 1400;
   Enqueue m3; Timer 1500 1500].

End WithDecoder.

(** A decoder to run the model with: every payload decodes to itself
    except the one that is not JSON. *)
Definition sampleDecoder (s : string) : option string :=
  if String.eqb s "not json" then None else Some s.

(** Sample queue entries and a dispatcher to run them through. *)
Definition snapshotA : EventQueueData := mkEventQueueData false "snapshot A".
Definition snapshotB : EventQueueData := mkEventQueueData true "snapshot B".
Definition garbage : EventQueueData := mkEventQueueData false "not json".

(** A dispatcher with a callback, created and started at clock 0. *)
Definition started : @Dispatcher string := start 0 (create true 0).

End MessageDispatcher.

(* ===================================================================== *)
(** * WebSocketClient *)
(* ===================================================================== *)

Module WebSocketClient.

Inductive ConnectionStatus := Disconnected | Connecting | Connected.

(** [interface WebSocketMessage]; [code] is optional because the handler
    reads it with [?? -1]. *)
Record WebSocketMessage := mkWebSocketMessage {
  code : option Z;
  data : option string;
  message : option string
}.

Inductive readyState := CONNECTING | OPEN | CLOSING | CLOSED.

(** The socket object of one connect attempt; its event handlers are
    closures over the [reconnect] argument of that attempt. *)
Record Socket := mkSocket {
  state : readyState;
  attemptReconnect : bool
}.

(** What the client does to the outside: callback invocations, the
    authentication payload written to the socket, [ws.close()], and the
    exception of [sendMessage]. *)
Inductive effect :=
| OnConnect (succeed reconnect : bool) (message : string)
| OnDisconnect (closedByUser : bool)
| OnMessage (data : string) (reconnecting : bool)
| OnStatusChange (status : ConnectionStatus)
| SendAccessToken (accessToken : string)
| CloseSocket
| ThrowNotOpen.

(** Which of the four callback fields are non-null. *)
Record Callbacks := mkCallbacks {
  onConnectCallback : bool;
  onDisconnectCallback : bool;
  onMessageCallback : bool;
  onStatusChangeCallback : bool
}.

(** The fields of the class, followed by the part of the runtime the class
    talks to: [timeouts] holds the pending [setTimeout] registrations
    (handle to delay; the only callback ever registered is
    [connectAsync(true)]), [nextHandle] is the next fresh handle, and
    [effects] is the log, oldest first. *)
Record Client := mkClient {
  ws : option Socket;
  accessToken : string;
  closedByUser : bool;
  connected : bool;
  reconnecting : bool;
  reconnectTimer : option nat;
  reconnectDelay : Z;
  callbacks : Callbacks;
  timeouts : gmap nat Z;
  nextHandle : nat;
  effects : list effect
}.

Definition create (cbs : Callbacks) : Client :=
  {| ws := None; accessToken := EmptyString; closedByUser := false;
     connected := false; reconnecting := false; reconnectTimer := None;
     reconnectDelay := 3000; callbacks := cbs; timeouts := ∅;
     nextHandle := O; effects := [] |}.

(** Field updates. *)
Definition setWs (v : option Socket) (c : Client) : Client :=
  mkClient v (accessToken c) (closedByUser c) (connected c) (reconnecting c)
    (reconnectTimer c) (reconnectDelay c) (callbacks c) (timeouts c)
    (nextHandle c) (effects c).
Definition setAccessToken (v : string) (c : Client) : Client :=
  mkClient (ws c) v (closedByUser c) (connected c) (reconnecting c)
    (reconnectTimer c) (reconnectDelay c) (callbacks c) (timeouts c)
    (nextHandle c) (effects c).
Definition setClosedByUser (v : bool) (c : Client) : Client :=
  mkClient (ws c) (accessToken c) v (connected c) (reconnecting c)
    (reconnectTimer c) (reconnectDelay c) (callbacks c) (timeouts c)
    (nextHandle c) (effects c).
Definition setConnected (v : bool) (c : Client) : Client :=
  mkClient (ws c) (accessToken c) (closedByUser c) v (reconnecting c)
    (reconnectTimer c) (reconnectDelay c) (callbacks c) (timeouts c)
    (nextHandle c) (effects c).
Definition setReconnecting (v : bool) (c : Client) : Client :=
  mkClient (ws c) (accessToken c) (closedByUser c) (connected c) v
    (reconnectTimer c) (reconnectDelay c) (callbacks c) (timeouts c)
    (nextHandle c) (effects c).
Definition setTimer (v : option nat) (t : gmap nat Z) (n : nat) (c : Client)
    : Client :=
  mkClient (ws c) (accessToken c) (closedByUser c) (connected c)
    (reconnecting c) v (reconnectDelay c) (callbacks c) t n (effects c).
Definition emit (e : effect) (c : Client) : Client :=
  mkClient (ws c) (accessToken c) (closedByUser c) (connected c)
    (reconnecting c) (reconnectTimer c) (reconnectDelay c) (callbacks c)
    (timeouts c) (nextHandle c) (effects c ++ [e]).

Definition updateStatus (status : ConnectionStatus) (c : Client) : Client :=
  if onStatusChangeCallback (callbacks c) then emit (OnStatusChange status) c
  else c.

(** [clearTimeout(this.reconnectTimer)] *)
Definition clearTimeout (h : option nat) (t : gmap nat Z) : gmap nat Z :=
  match h with
  | Some handle => delete handle t
  | None => t
  end.

(** [reconnect]: cancel the pending timer, register a new one. *)
Definition reconnect (c : Client) : Client :=
  let pending := clearTimeout (reconnectTimer c) (timeouts c) in
  let handle := nextHandle c in
  setTimer (Some handle) (<[handle := reconnectDelay c]> pending) (S handle) c.

Definition sendMessage (token : string) (c : Client) : Client :=
  match ws c with
  | Some s =>
      match state s with
      | OPEN => emit (SendAccessToken token) c
      | _ => emit ThrowNotOpen c
      end
  | None => emit ThrowNotOpen c
  end.

Definition authenticate (c : Client) : Client :=
  sendMessage (accessToken c) c.

Definition handleDisconnect (byUser : bool) (c : Client) : Client :=
  let c1 := if onDisconnectCallback (callbacks c)
            then emit (OnDisconnect byUser) c else c in
  if connected c1 && negb byUser
  then reconnect (updateStatus Connecting c1)
  else updateStatus Disconnected (setConnected false c1).

Definition handleConnect (succeed reconnectAttempt : bool) (msg : string)
    (c : Client) : Client :=
  if negb succeed then handleDisconnect false c
  else authenticate c.

Definition handleAuthentication (c : Client) : Client :=
  let c1 := updateStatus Connected (setConnected true c) in
  if onConnectCallback (callbacks c1)
  then emit (OnConnect true (reconnecting c1) "Authenticated") c1
  else c1.

(** [handleMessage]; the argument is the result of [JSON.parse], [None]
    when it throws. *)
Definition handleMessage (parsed : option WebSocketMessage) (c : Client)
    : Client :=
  match parsed with
  | None => updateStatus Disconnected c
  | Some jsonMessage =>
      let code := default (-1) (code jsonMessage) in
      if code =? 201 then handleAuthentication c
      else if code =? 200 then
        let eventData := default EmptyString (data jsonMessage) in
        if String.eqb eventData EmptyString then c
        else
          let c1 := if onMessageCallback (callbacks c)
                    then emit (OnMessage eventData
                                 (connected c && reconnecting c)) c
                    else c in
          if reconnecting c1 then setReconnecting false c1 else c1
      else updateStatus Disconnected c
  end.

(** [connectAsync]; [constructorError] is [Some message] when
    [new WebSocket(url)] throws. *)
Definition connectAsync (reconnectAttempt : bool)
    (constructorError : option string) (c : Client) : Client :=
  let c1 := updateStatus Connecting (setReconnecting reconnectAttempt c) in
  match constructorError with
  | None => setWs (Some (mkSocket CONNECTING reconnectAttempt)) c1
  | Some errorMessage => handleConnect false reconnectAttempt errorMessage c1
  end.

Definition connect (token : string) (constructorError : option string)
    (c : Client) : Client :=
  connectAsync false constructorError
    (setClosedByUser false (setAccessToken token c)).

Definition close (c : Client) : Client :=
  let c1 := setClosedByUser true c in
  let c2 := match reconnectTimer c1 with
            | Some _ => setTimer None
                          (clearTimeout (reconnectTimer c1) (timeouts c1))
                          (nextHandle c1) c1
            | None => c1
            end in
  match ws c2 with
  | Some _ => emit CloseSocket c2
  | None => c2
  end.

(** ** Events delivered by the runtime *)

(** ['open'] on the current socket. *)
Definition socketOpen (c : Client) : Client :=
  match ws c with
  | Some s => handleConnect true (attemptReconnect s) "OK"
                (setWs (Some (mkSocket OPEN (attemptReconnect s))) c)
  | None => c
  end.

(** ['error'] on the current socket. *)
Definition socketError (errorMessage : string) (c : Client) : Client :=
  match ws c with
  | Some s => handleConnect false (attemptReconnect s) errorMessage c
  | None => c
  end.

(** ['close'] on the current socket. *)
Definition socketClose (c : Client) : Client :=
  match ws c with
  | Some s => handleDisconnect (closedByUser c)
                (setWs (Some (mkSocket CLOSED (attemptReconnect s))) c)
  | None => c
  end.

(** The timeout [handle] expires: its callback is [connectAsync(true)]. *)
Definition timeoutFires (handle : nat) (constructorError : option string)
    (c : Client) : Client :=
  match timeouts c !! handle with
  | Some _ =>
      connectAsync true constructorError
        (setTimer (reconnectTimer c) (delete handle (timeouts c))
           (nextHandle c) c)
  | None => c
  end.

(** A reconnect attempt is pending with delay [d]. *)
Definition reconnectScheduled (d : Z) (c : Client) : Prop :=
  ∃ handle, reconnectTimer c = Some handle ∧ timeouts c !! handle = Some d.

Definition allCallbacks : Callbacks := mkCallbacks true true true true.

(** ** Runs *)

Inductive event :=
| Connect (token : string) (constructorError : option string)
| Close
| SocketOpen
| SocketError (errorMessage : string)
| SocketClose
| Message (parsed : option WebSocketMessage)
| TimeoutFires (handle : nat) (constructorError : option string).

Definition step (c : Client) (e : event) : Client :=
  match e with
  | Connect token err => connect token err c
  | Close => close c
  | SocketOpen => socketOpen c
  | SocketError msg => socketError msg c
  | SocketClose => socketClose c
  | Message parsed => handleMessage parsed c
  | TimeoutFires handle err => timeoutFires handle err c
  end.

Definition run (es : list event) (c : Client) : Client := foldl step c es.

(** The effects with which [handleDisconnect(false)] answers a lost or
    failed connection of a client in state [c]. *)
Definition lossEffects (c : Client) : list effect :=
  (if onDisconnectCallback (callbacks c) then [OnDisconnect false] else []) ++
  (if onStatusChangeCallback (callbacks c)
   then [OnStatusChange (if connected c then Connecting else Disconnected)]
   else []).

Definition isOnConnect (e : effect) : bool :=
  match e with OnConnect _ _ _ => true | _ => false end.

(** The server's authentication acknowledgement. *)
Definition authenticated : option WebSocketMessage :=
  Some (mkWebSocketMessage (Some 201) None None).

End WebSocketClient.

(* ===================================================================== *)
(** * LiveTeamPanel and PanelAnimationController *)
(* ===================================================================== *)

Module LiveTeamPanel.

(** [interface Team2Data], the fields the overlay code reads. *)
Record Team2Data := mkTeam2Data {
  name : string;
  id : Z;
  total_kills : Z;
  rank : Z;
  total_score : Z;
  placement_rank : Z;
  eliminated : bool;
  full_name : string
}.

Record PostDataStats := mkPostDataStats { death_type : string }.

Record TelemetryStats := mkTelemetryStats {
  is_groggy : bool;
  is_alive : bool
}.

(** [interface Player2Data] *)
Record Player2Data := mkPlayer2Data {
  player_name : string;
  team_name : string;
  team_id : Z;
  post_data_pb : option PostDataStats;
  telemetry_pb : option TelemetryStats
}.

Record SquadStatus := mkSquadStatus {
  alive : Z;
  dead : Z;
  groggy : Z;
  total : Z
}.

(** The part of the panel's [HTMLElement] that the code below writes:
    [style.opacity], [style.top] and the class list.  Text contents and
    the squad indicators are rendering and are left out. *)
Record Element := mkElement {
  opacity : string;
  top : option Z;
  classList : list string
}.

Definition classAdd (c : string) (l : list string) : list string :=
  if bool_decide (c ∈ l) then l else l ++ [c].

Definition classRemove (c : string) (l : list string) : list string :=
  filter (λ x, x ≠ c) l.

(** [class PanelAnimationController] *)
Record PanelAnimationController := mkController {
  prevPosition : Z;
  currentIndex : Z;
  panelHeight : Z
}.

Definition newController (index height : Z) : PanelAnimationController :=
  {| prevPosition := -1; currentIndex := index; panelHeight := height |}.

Definition PrevPosition (c : PanelAnimationController) : Z := prevPosition c.

Definition setTop (position : Z) (e : Element) : Element :=
  {| opacity := opacity e; top := Some position; classList := classList e |}.

Definition setIndexAndPosition (index position : Z)
    (c : PanelAnimationController) (e : Element)
    : PanelAnimationController * Element :=
  ({| prevPosition := if 0 <=? currentIndex c
                      then currentIndex c * panelHeight c else -1;
      currentIndex := index;
      panelHeight := panelHeight c |},
   setTop position e).

(** [toggleAnimation]: the class added at once; the two timers that take
    it off again are animation. *)
Definition toggleAnimation (e : Element) : Element :=
  {| opacity := opacity e; top := top e;
     classList := classAdd "panel-fade-in" (classList e) |}.

(** The fields of [class LiveTeamPanel].  The private field [eliminated]
    is [latched] here, the record [Team2Data] owning the other name. *)
Record Panel := mkPanel {
  element : Element;
  teamData : Team2Data;
  squadStatus : SquadStatus;
  controller : PanelAnimationController;
  latched : bool;
  inMatch : bool;
  previousRank : Z
}.

Inductive direction := up | down.

(** [player.post_data_pb?.death_type] as a condition: present and not the
    empty string. *)
Definition knownDeathType (p : Player2Data) : option string :=
  match post_data_pb p with
  | Some pd => if String.eqb (death_type pd) EmptyString then None
               else Some (death_type pd)
  | None => None
  end.

(** The predicate handed to [players.every] in [updatePanel]. *)
Definition notAlive (p : Player2Data) : bool :=
  match knownDeathType p with
  | Some dt => negb (String.eqb dt "alive")
  | None =>
      match telemetry_pb p with
      | Some t => negb (is_alive t)
      | None => false
      end
  end.

Inductive condition := isAlive | isGroggy | isDead.

(** The classification of one player in [calculateSquadStatus]. *)
Definition classify (p : Player2Data) : condition :=
  match knownDeathType p with
  | Some dt =>
      if String.eqb dt "alive" then isAlive
      else if String.eqb dt "groggy" then isGroggy
      else isDead
  | None =>
      match telemetry_pb p with
      | Some t => if is_alive t
                  then (if is_groggy t then isGroggy else isAlive)
                  else isDead
      | None => isAlive
      end
  end.

#[global] Instance condition_eq : EqDecision condition.
Proof. solve_decision. Defined.

Definition count (c : condition) (ps : list Player2Data) : Z :=
  Z.of_nat (length (filter (λ p, classify p = c) ps)).

Definition calculateSquadStatus (team : Team2Data) (players : list Player2Data)
    : SquadStatus :=
  let byId := filter (λ p, team_id p = id team) players in
  let teamPlayers :=
    match byId with
    | [] => filter (λ p, team_name p = name team) players
    | _ => byId
    end in
  match teamPlayers with
  | [] => {| alive := 4; dead := 0; groggy := 0; total := 4 |}
  | _ => {| alive := count isAlive teamPlayers;
            dead := count isDead teamPlayers;
            groggy := count isGroggy teamPlayers;
            total := Z.max (Z.of_nat (length teamPlayers)) 4 |}
  end.

Section WithConfig.

(** [currentConfig.panel_height] *)
Variable panel_height : Z.

(** The element a fresh panel gets from the template (or from the
    fallback): class [live-team-panel], and [eliminated] when the team
    record says so. *)
Definition createElement (team : Team2Data) : Element :=
  {| opacity := EmptyString; top := None;
     classList := if eliminated team
                  then ["live-team-panel"; "eliminated"]
                  else ["live-team-panel"] |}.

(** [new LiveTeamPanel(teamData, players, currentIndex)] *)
Definition create (team : Team2Data) (players : list Player2Data)
    (index : Z) : Panel :=
  {| element := createElement team;
     teamData := team;
     squadStatus := calculateSquadStatus team players;
     controller := newController index panel_height;
     latched := false;
     inMatch := true;
     previousRank := rank team |}.

(** [playInkwellAnimation]: the class change; the GSAP timeline is
    animation. *)
Definition playInkwellAnimation (d : direction) (e : Element) : Element :=
  let className := match d with
                   | up => "rank-up-inkwell"
                   | down => "rank-down-inkwell"
                   end in
  {| opacity := opacity e; top := top e;
     classList := classAdd className
                    (classRemove "rank-down-inkwell"
                       (classRemove "rank-up-inkwell" (classList e))) |}.

(** [handlePositionAndAnimation]; the second component is the rank
    event of this call, that is the argument of [playInkwellAnimation]
    when it is called. *)
Definition handlePositionAndAnimation (index newPosition : Z)
    (refresh : bool) (p : Panel) : Panel * option direction :=
  let isInitialPosition := PrevPosition (controller p) <? 0 in
  let currentRank := rank (teamData p) in
  let '(e1, ev) :=
    if negb isInitialPosition && negb refresh then
      if (previousRank p >? 0) && negb (previousRank p =? currentRank) then
        if previousRank p >? currentRank
        then (playInkwellAnimation up (element p), Some up)
        else (playInkwellAnimation down (element p), Some down)
      else (element p, None)
    else if isInitialPosition then
      (if refresh then toggleAnimation (element p) else element p, None)
    else (element p, None) in
  let '(ctl, e2) := setIndexAndPosition index newPosition (controller p) e1 in
  ({| element := e2; teamData := teamData p; squadStatus := squadStatus p;
      controller := ctl; latched := latched p; inMatch := inMatch p;
      previousRank := currentRank |}, ev).

Definition setStyle (o : string) (cls : list string) (e : Element)
    : Element :=
  {| opacity := o; top := top e; classList := cls |}.

(** [handleElimination]; the second component is [justEliminated]. *)
Definition handleElimination (allOut : bool) (p : Panel) : Panel * bool :=
  if inMatch p && negb (latched p) && allOut then
    ({| element := element p; teamData := teamData p;
        squadStatus := squadStatus p; controller := controller p;
        latched := true; inMatch := inMatch p;
        previousRank := previousRank p |}, true)
  else if allOut && latched p then
    ({| element := setStyle "0.3" (classAdd "eliminated"
                                     (classList (element p))) (element p);
        teamData := teamData p; squadStatus := squadStatus p;
        controller := controller p; latched := latched p;
        inMatch := inMatch p; previousRank := previousRank p |}, false)
  else if negb allOut then
    ({| element := setStyle "1.0" (classRemove "eliminated"
                                     (classList (element p))) (element p);
        teamData := teamData p; squadStatus := squadStatus p;
        controller := controller p; latched := false;
        inMatch := inMatch p; previousRank := previousRank p |}, false)
  else (p, false).

(** The roster [updatePanel] works on: [playersMap.get(team.name) || []] *)
Definition rosterOf (team : Team2Data)
    (playersMap : gmap string (list Player2Data)) : list Player2Data :=
  default [] (playersMap !! name team).

(** The local [eliminated] of [updatePanel]. *)
Definition allNotAlive (players : list Player2Data) : bool :=
  match players with
  | [] => false
  | _ => forallb notAlive players
  end.

(** What one [updatePanel] call gives back: the panel after the call,
    the rank event it played and its return value. *)
Record updateResult := mkUpdateResult {
  panelAfter : Panel;
  rankChange : option direction;
  justEliminated : bool
}.

Definition updatePanel (team matchTeam : Team2Data)
    (playersMap : gmap string (list Player2Data))
    (index : Z) (refresh : bool) (p : Panel) : updateResult :=
  let players := rosterOf team playersMap in
  let allOut := allNotAlive players in
  let nowInMatch := negb (Nat.eqb (length players) 0) in
  let p1 :=
    {| element := setStyle (if nowInMatch then "1.0" else "0.3")
                    (classList (element p)) (element p);
       teamData := team;
       squadStatus := calculateSquadStatus team players;
       controller := controller p;
       latched := latched p;
       inMatch := nowInMatch;
       previousRank := previousRank p |} in
  let newPosition := (index - 1) * panel_height in
  let '(p2, ev) := handlePositionAndAnimation index newPosition refresh p1 in
  let '(p3, just) := handleElimination allOut p2 in
  {| panelAfter := p3; rankChange := ev; justEliminated := just |}.

End WithConfig.

(** Sample teams and rosters. *)
Definition teamAt (n : string) (i r placement : Z) : Team2Data :=
  {| name := n; id := i; total_kills := 0; rank := r; total_score := 10;
     placement_rank := placement; eliminated := false; full_name := n |}.

(** A player of team [t] with the given [death_type]. *)
Definition playerOf (n t : string) (i : Z) (deathType : string) : Player2Data :=
  {| player_name := n; team_name := t; team_id := i;
     post_data_pb := Some (mkPostDataStats deathType); telemetry_pb := None |}.

Definition squadDown : gmap string (list Player2Data) :=
  {[ "Alpha" := [playerOf "a1" "Alpha" 1 "byplayer";
                 playerOf "a2" "Alpha" 1 "byzone"] ]}.

Definition squadRevived : gmap string (list Player2Data) :=
  {[ "Alpha" := [playerOf "a1" "Alpha" 1 "alive";
                 playerOf "a2" "Alpha" 1 "byzone"] ]}.

Definition alpha (r : Z) : Team2Data := teamAt "Alpha" 1 r 7.

(** The panel of team Alpha, created at rank [r] and display index [r] and
    updated once, as the first pass over it does. *)
Definition placed (r : Z) : Panel :=
  panelAfter (updatePanel 32 (alpha r) (alpha r) ∅ r false
                (create 32 (alpha r) [] r)).

End LiveTeamPanel.


(* ===================================================================== *)
(** * livestanding.ts: one reconciliation pass *)
(* ===================================================================== *)

Module LiveStanding.

Import LiveTeamPanel.

(** [Array.prototype.sort(compare)] is a stable sort; the result of a
    stable sort is fixed by the comparator, and insertion from the right
    computes it: an element goes in front of the first element it does not
    have to follow. *)
Fixpoint sortInsert {A} (compare : A → A → Z) (x : A) (l : list A) : list A :=
  match l with
  | [] => [x]
  | y :: l' => if compare x y <=? 0 then x :: y :: l'
               else y :: sortInsert compare x l'
  end.

Fixpoint sort {A} (compare : A → A → Z) (l : list A) : list A :=
  match l with
  | [] => []
  | x :: l' => sortInsert compare x (sort compare l')
  end.

(** The comparator of [eliminatedTeams.sort]. *)
Definition byPlacementDescending (team1 team2 : Team2Data) : Z :=
  placement_rank team2 - placement_rank team1.


Section WithConfig.

Variable panel_height : Z.

(** The variables the [forEach] callback of
    [updateTotalLeaderboardOnUIThread] reads and writes: the module-level
    [totalTeamIndexMap] and the locals [eliminatedTeams], [currentIndex]
    and [matchEnded]; [rankChanges] lists, by team name, the rank
    animations the panels played. *)
Record pass := mkPass {
  totalTeamIndexMap : gmap string Panel;
  eliminatedTeams : list Team2Data;
  currentIndex : Z;
  matchEnded : bool;
  rankChanges : list (string * direction)
}.

Definition beginPass (panels : gmap string Panel) : pass :=
  {| totalTeamIndexMap := panels; eliminatedTeams := []; currentIndex := 1;
     matchEnded := false; rankChanges := [] |}.

(** [totalTeamIndexMap.get(team.name)], or the panel made on the spot. *)
Definition panelFor (panels : gmap string Panel) (team : Team2Data)
    (index : Z) : Panel :=
  match panels !! name team with
  | Some panel => panel
  | None => create panel_height team [] index
  end.

(** The body of [teamsToShow.forEach]. *)
Definition visit (matchTeamMap : gmap string Team2Data)
    (playersMap : gmap string (list Player2Data))
    (st : pass) (team : Team2Data) : pass :=
  match matchTeamMap !! name team with
  | None => st
  | Some matchTeam =>
      let panel := panelFor (totalTeamIndexMap st) team (currentIndex st) in
      let r := updatePanel panel_height team matchTeam playersMap
                 (currentIndex st) false panel in
      let '(ended, batch) :=
        if justEliminated r && negb (matchEnded st) then
          (if placement_rank matchTeam =? 2 then true else matchEnded st,
           eliminatedTeams st ++ [matchTeam])
        else (matchEnded st, eliminatedTeams st) in
      {| totalTeamIndexMap := <[name team := panelAfter r]> (totalTeamIndexMap st);
         eliminatedTeams := batch;
         currentIndex := currentIndex st + 1;
         matchEnded := ended;
         rankChanges := rankChanges st ++
                        match rankChange r with
                        | Some d => [(name team, d)]
                        | None => []
                        end |}
  end.

(** What a pass hands on: the panels, whether the match ended, the batch
    for the elimination overlay (the array [eliminatedTeams] at the place
    of the overlay's [enqueue]) and the teams of the
    [snapToPositions] call. *)
Record outcome := mkOutcome {
  panels : gmap string Panel;
  ended : bool;
  overlayBatch : option (list Team2Data);
  snapToPositions : option (list Team2Data);
  rankEvents : list (string * direction)
}.

(** [updateTotalLeaderboardOnUIThread]; [container] says whether
    [document.querySelector('.teams-container')] found the element. *)
Definition updateTotalLeaderboardOnUIThread (container : bool)
    (totalTeams : list Team2Data)
    (matchTeamMap : gmap string Team2Data)
    (playersMap : gmap string (list Player2Data))
    (refresh : bool) (before : gmap string Panel) : outcome :=
  if negb container then
    {| panels := before; ended := false; overlayBatch := None;
       snapToPositions := None; rankEvents := [] |}
  else
    let teamsToShow := take 16 totalTeams in
    let st := foldl (visit matchTeamMap playersMap) (beginPass before)
                teamsToShow in
    if matchEnded st then
      {| panels := totalTeamIndexMap st; ended := true; overlayBatch := None;
         snapToPositions := None; rankEvents := rankChanges st |}
    else
      {| panels := totalTeamIndexMap st;
         ended := false;
         overlayBatch :=
           match eliminatedTeams st with
           | [] => None
           | _ => Some (sort byPlacementDescending (eliminatedTeams st))
           end;
         snapToPositions :=
           if refresh || Nat.eqb (size (totalTeamIndexMap st)) (length teamsToShow)
           then Some teamsToShow else None;
         rankEvents := rankChanges st |}.

(** The teams whose [updatePanel] call returns [true] in a pass over
    [teams] that starts with the panels [panels] at display index [index],
    in the order of the pass. *)
Fixpoint justEliminatedInPass (matchTeamMap : gmap string Team2Data)
    (playersMap : gmap string (list Player2Data))
    (panels : gmap string Panel) (index : Z) (teams : list Team2Data)
    : list Team2Data :=
  match teams with
  | [] => []
  | team :: rest =>
      match matchTeamMap !! name team with
      | None => justEliminatedInPass matchTeamMap playersMap panels index rest
      | Some matchTeam =>
          let r := updatePanel panel_height team matchTeam playersMap index
                     false (panelFor panels team index) in
          (if justEliminated r then [matchTeam] else []) ++
          justEliminatedInPass matchTeamMap playersMap
            (<[name team := panelAfter r]> panels) (index + 1) rest
      end
  end.

End WithConfig.

(** Sample snapshots. *)
Definition bravo (placement : Z) : Team2Data := teamAt "Bravo" 2 2 placement.
Definition charlie (placement : Z) : Team2Data := teamAt "Charlie" 3 3 placement.



End LiveStanding.


(* ===================================================================== *)
(** * MatchStateManager: the remaining methods *)
(* ===================================================================== *)

Module MatchStateOps.

Import MatchStateManager.

(** [getCurrentState]: a copy of the state object. *)
Definition getCurrentState (s : MatchState) : MatchState :=
  {| matchId := matchId s; tournamentId := tournamentId s;
     lastUpdateTime := lastUpdateTime s |}.

(** The public methods of the class as operations on one manager. *)
Inductive operation :=
| Ask (newMatchId : list byte)
| Store (newId : list byte) (tid : string) (now : Z)
| Forget
| Read.

Definition apply (s : MatchState) (o : operation) : MatchState :=
  match o with
  | Ask _ => s
  | Store i t now => updateState i t now s
  | Forget => clear s
  | Read => s
  end.

Definition perform (os : list operation) (s : MatchState) : MatchState :=
  foldl apply s os.

(** The id a sequence of operations leaves behind, read off the sequence:
    the argument of the last [updateState] that no [clear] follows. *)
Fixpoint tracked (acc : option (list byte)) (os : list operation)
    : option (list byte) :=
  match os with
  | [] => acc
  | Store i _ _ :: os' => tracked (Some i) os'
  | Forget :: os' => tracked None os'
  | _ :: os' => tracked acc os'
  end.

(** [byte.toString(16)]: one or two lower-case hexadecimal digits. *)
Definition hexDigit (n : N) : ascii :=
  ascii_of_N (if (n <? 10)%N then 48 + n else 87 + n)%N.

Definition toString16 (b : byte) : string :=
  let n := Byte.to_N b in
  if (n <? 16)%N then String (hexDigit n) EmptyString
  else String (hexDigit (n / 16)) (String (hexDigit (n mod 16)) EmptyString).

(** [s.padStart(targetLength, pad)] for a one-character pad. *)
Fixpoint padding (n : nat) (pad : ascii) (s : string) : string :=
  match n with
  | O => s
  | S n' => String pad (padding n' pad s)
  end.

Definition padStart (targetLength : nat) (pad : ascii) (s : string) : string :=
  padding (targetLength - String.length s) pad s.

(** [matchIdToString] *)
Definition matchIdToString (id : list byte) : string :=
  String.concat "-" (map (λ b, padStart 2 "0" (toString16 b)) id).

(** Reading two hexadecimal digits back. *)
Definition hexValue (c : ascii) : option N :=
  let n := N_of_ascii c in
  if ((48 <=? n) && (n <=? 57))%N then Some (n - 48)%N
  else if ((97 <=? n) && (n <=? 102))%N then Some (n - 87)%N
  else None.

Definition fromHexPair (s : string) : option byte :=
  match s with
  | String hi (String lo EmptyString) =>
      match hexValue hi, hexValue lo with
      | Some h, Some l => Byte.of_N (16 * h + l)
      | _, _ => None
      end
  | _ => None
  end.

End MatchStateOps.

(* ===================================================================== *)
(** * MessageDispatcher: what a run delivers *)
(* ===================================================================== *)

Module DispatcherTrace.

Import MessageDispatcher.

Section WithDecoder.

Context {ObserverMessage2 : Type}.
Variable parseFromJson : string → option ObserverMessage2.

(** [setOnUpdate] *)
Definition setOnUpdate (d : @Dispatcher ObserverMessage2) : Dispatcher :=
  {| eventQueue := eventQueue d; intervalTimer := intervalTimer d;
     latestProcessTime := latestProcessTime d; onUpdate := true;
     delivered := delivered d |}.

(** The entries the [enqueue] calls of a run bring in, in order. *)
Definition enqueuedIn (es : list event) : list EventQueueData :=
  omap (λ e, match e with Enqueue m => Some m | _ => None end) es.

(** The callback invocation [c] is the delivery of the entry [m]. *)
Definition deliveryOf (c : @callbackCall ObserverMessage2)
    (m : EventQueueData) : Prop :=
  parseFromJson (data m) = Some (call_message c) ∧
  call_reconnecting c = reconnecting m.

End WithDecoder.

End DispatcherTrace.


(* ===================================================================== *)
(** * TestRunner *)
(* ===================================================================== *)

Module TestRunner.

Import MessageDispatcher.

(** The line feed character. *)
Definition LF : ascii := "010"%char.

(** [fileContent.split('\n')]: the pieces between line feeds; a string
    without line feed is its only piece, the empty string included. *)
Fixpoint splitLines (s : string) : list string :=
  match s with
  | EmptyString => [EmptyString]
  | String c s' =>
      if Ascii.eqb c LF then EmptyString :: splitLines s'
      else match splitLines s' with
           | line :: lines => String c line :: lines
           | [] => [String c EmptyString]
           end
  end.

Section WithRuntime.

Context {ObserverMessage2 : Type}.

(** [line.trim().length > 0] fails: the line is white space only. *)
Variable blank : string → bool.

(** The fields of the class; [dispatcher] is the dispatcher object the
    runner was given and drives, [testThread] says whether the feeding
    interval is registered. *)
Record Runner := mkRunner {
  testThread : bool;
  isRunning : bool;
  dispatcher : @Dispatcher ObserverMessage2;
  currentLineIndex : nat;
  testDataLines : list string
}.

(** [new TestRunner(dispatcher)] *)
Definition create (d : @Dispatcher ObserverMessage2) : Runner :=
  {| testThread := false; isRunning := false; dispatcher := d;
     currentLineIndex := O; testDataLines := [] |}.

(** [start]; [fileContent] is what [fs.readFileSync] returns, [None] when
    it throws, in which case [start] rethrows ([None]) and the runner is
    as before. *)
Definition start (fileContent : option string) (now : Z) (r : Runner)
    : option Runner :=
  if isRunning r then Some r
  else
    match fileContent with
    | None => None
    | Some content =>
        Some {| testThread := true;
                isRunning := true;
                dispatcher := MessageDispatcher.start now (dispatcher r);
                currentLineIndex := O;
                testDataLines :=
                  filter (λ line, blank line = false) (splitLines content) |}
    end.

Definition stop (r : Runner) : Runner :=
  if negb (isRunning r) then r
  else {| testThread := false;
          isRunning := false;
          dispatcher := MessageDispatcher.clear
                          (MessageDispatcher.stop (dispatcher r));
          currentLineIndex := O;
          testDataLines := testDataLines r |}.

Definition feedNextLine (r : Runner) : Runner :=
  if (length (testDataLines r) <=? currentLineIndex r)%nat then stop r
  else
    match testDataLines r !! currentLineIndex r with
    | Some eventData =>
        {| testThread := testThread r;
           isRunning := isRunning r;
           dispatcher := enqueue (mkEventQueueData false eventData)
                           (dispatcher r);
           currentLineIndex := S (currentLineIndex r);
           testDataLines := testDataLines r |}
    | None => r
    end.

(** The runtime calls the feeding callback only while its interval is
    registered. *)
Definition feedTimerFires (r : Runner) : Runner :=
  if testThread r then feedNextLine r else r.

Definition getStatus (r : Runner) : bool * nat * nat :=
  (isRunning r, currentLineIndex r, length (testDataLines r)).

Definition reset (r : Runner) : Runner :=
  let r' := stop r in
  {| testThread := testThread r'; isRunning := isRunning r';
     dispatcher := dispatcher r'; currentLineIndex := O;
     testDataLines := [] |}.

End WithRuntime.

(** A line is blank when it has nothing but spaces, tabs and carriage
    returns (enough of [trim] for the sample files). *)
Fixpoint sampleBlank (s : string) : bool :=
  match s with
  | EmptyString => true
  | String c s' =>
      (Ascii.eqb c " " || Ascii.eqb c "009" || Ascii.eqb c "013")
      && sampleBlank s'
  end.

(** Three lines, a blank one among them, and a line feed at the end. *)
Definition sampleFile : string :=
  String.concat (String LF EmptyString)
    ["line one"; "   "; "line two"; "line three"; ""].

Definition idle : @Runner string := create (MessageDispatcher.create true 0).

Definition playing : @Runner string :=
  default idle (start sampleBlank (Some sampleFile) 0 idle).

End TestRunner.


(* ===================================================================== *)
(** * WebSocketClient: messages and timers along a run *)
(* ===================================================================== *)

Module WebSocketTrace.

Import WebSocketClient.

(** A server message with code 200 and the payload [d]. *)
Definition dataMessage (d : string) : option WebSocketMessage :=
  Some (mkWebSocketMessage (Some 200) (Some d) None).

(** The client handles the data messages [ds], oldest first. *)
Definition receive (ds : list string) (c : Client) : Client :=
  foldl (λ c d, handleMessage (dataMessage d) c) c ds.

(** The message callbacks for the payloads [ds] when the first of them is
    tagged [first] and the others are not tagged. *)
Definition tagged (first : bool) (ds : list string) : list effect :=
  match ds with
  | [] => []
  | d :: ds' => OnMessage d first :: ((λ x, OnMessage x false) <$> ds')
  end.

(** The only timeout that can be pending is the one whose handle is in
    [reconnectTimer], and it waits [reconnectDelay]. *)
Definition singleTimer (c : Client) : Prop :=
  ∀ handle delay,
    timeouts c !! handle = Some delay →
    reconnectTimer c = Some handle ∧ delay = reconnectDelay c.

(** The message is a protocol error: it does not parse, or its code is
    neither 200 nor 201 (a missing code counts as -1). *)
Definition protocolError (parsed : option WebSocketMessage) : Prop :=
  match parsed with
  | None => True
  | Some m => default (-1) (code m) ≠ 201 ∧ default (-1) (code m) ≠ 200
  end.

(** Sample runs: a client that connects and is authenticated; the same
    after it lost the connection; the same once the reconnect timeout has
    expired and a new socket is being opened. *)
Definition authenticatedRun : list event :=
  [Connect "token" None; SocketOpen; Message authenticated].

Definition lostRun : list event := authenticatedRun ++ [SocketClose].

Definition retryRun : list event := lostRun ++ [TimeoutFires 0 None].

End WebSocketTrace.


(* ===================================================================== *)
(** * LiveTeamPanel: squad status and its indicators *)
(* ===================================================================== *)

Module SquadView.

Import LiveTeamPanel.

(** The local [teamPlayers] of [calculateSquadStatus]: the players with
    the team's id, or, when there is none, the players with its name. *)
Definition teamPlayersOf (team : Team2Data) (players : list Player2Data)
    : list Player2Data :=
  match filter (λ p, team_id p = id team) players with
  | [] => filter (λ p, team_name p = name team) players
  | byId => byId
  end.

(** The class given to the indicator at position [i] by
    [createSquadHealthIndicators]. *)
Definition indicatorAt (s : SquadStatus) (i : Z) : condition :=
  if i <? alive s then isAlive
  else if i <? alive s + groggy s then isGroggy
  else isDead.

(** The [for] loop of [createSquadHealthIndicators]: [n] iterations are
    left and the loop variable is [i]. *)
Fixpoint indicatorsFrom (s : SquadStatus) (n : nat) (i : Z) : list condition :=
  match n with
  | O => []
  | S n' => indicatorAt s i :: indicatorsFrom s n' (i + 1)
  end.

(** [createSquadHealthIndicators]: the classes of the indicators, left to
    right. *)
Definition createSquadHealthIndicators (s : SquadStatus) : list condition :=
  indicatorsFrom s (Z.to_nat (total s)) 0.

(** A player whose only data is telemetry. *)
Definition telemetryOnly (n t : string) (i : Z) (alive groggy : bool)
    : Player2Data :=
  {| player_name := n; team_name := t; team_id := i; post_data_pb := None;
     telemetry_pb := Some (mkTelemetryStats groggy alive) |}.

End SquadView.


(* ===================================================================== *)
(** * livestanding.ts: from a message to a pass *)
(* ===================================================================== *)

Module LiveStandingData.

Import LiveTeamPanel LiveStanding.

(** [interface ObserverMessage2] of the overlay. *)
Record ObserverMessage2 := mkObserverMessage2 {
  match_id : list byte;
  tournament_id : string;
  player_stats : list Player2Data;
  total_player_stats : list Player2Data;
  team_stats : list Team2Data;
  total_team_stats : list Team2Data;
  refresh : bool
}.

(** [interface LiveStandingState] *)
Record LiveStandingState := mkLiveStandingState {
  teams : list Team2Data;
  players : list Player2Data;
  lastUpdate : Z;
  isConnected : bool
}.

(** [teams.forEach(team => teamMap.set(team.name, team))] *)
Definition buildTeamMap (ts : list Team2Data) : gmap string Team2Data :=
  foldl (λ m t, <[name t := t]> m) ∅ ts.

(** The [players.forEach] that fills [playersMap]: a new key starts with
    the empty array, and the player is pushed onto the array of its
    key. *)
Definition buildPlayersMap (ps : list Player2Data)
    : gmap string (list Player2Data) :=
  foldl (λ m p, <[team_name p := default [] (m !! team_name p) ++ [p]]> m) ∅ ps.

(** [clearLeaderboard]: [totalTeamIndexMap.clear()]. *)
Definition clearLeaderboard (_ : gmap string Panel) : gmap string Panel := ∅.

(** [interface TimeInfo] *)
Record TimeInfo := mkTimeInfo {
  hours : Z;
  minutes : Z;
  seconds : Z
}.

(** [getElapsedTime]; [now] is [Date.now()].  [%] is the remainder that
    takes the sign of the dividend, [Math.floor] of a quotient is the
    floored division. *)
Definition getElapsedTime (startTime now : Z) : TimeInfo :=
  let elapsed := now - startTime in
  {| hours := elapsed / 3600000;
     minutes := Z.rem elapsed 3600000 / 60000;
     seconds := Z.rem elapsed 60000 / 1000 |}.

Section WithRuntime.

Variable panel_height : Z.

(** [String.prototype.localeCompare] *)
Variable localeCompare : string → string → Z.

(** The comparator of [totalTeams.sort]. *)
Definition byRankThenName (x y : Team2Data) : Z :=
  if negb (rank x =? rank y) then rank x - rank y
  else localeCompare (name x) (name y).

(** [updateLiveStandingData]: the new [liveStandingState] (its [teams] is
    the array that is sorted in place afterwards) and the outcome of the
    pass. *)
Definition updateLiveStandingData (container : bool) (now : Z)
    (observerMessage : ObserverMessage2) (panels : gmap string Panel)
    : LiveStandingState * outcome :=
  let panels0 := if refresh observerMessage then clearLeaderboard panels
                 else panels in
  let teamMap := buildTeamMap (team_stats observerMessage) in
  let playersMap := buildPlayersMap (player_stats observerMessage) in
  let totalTeams := sort byRankThenName (total_team_stats observerMessage) in
  ({| teams := totalTeams;
      players := total_player_stats observerMessage;
      lastUpdate := now;
      isConnected := true |},
   updateTotalLeaderboardOnUIThread panel_height container totalTeams teamMap
     playersMap (refresh observerMessage) panels0).

(** What a pass over panels that are all new reports for one team: its
    match record, when the team is in the match and has players none of
    whom is alive. *)
Definition outOnArrival (matchTeamMap : gmap string Team2Data)
    (playersMap : gmap string (list Player2Data)) (team : Team2Data)
    : option Team2Data :=
  match matchTeamMap !! name team with
  | Some matchTeam =>
      if allNotAlive (rosterOf team playersMap) then Some matchTeam else None
  | None => None
  end.

(** The displayed teams that are in the current match. *)
Definition inMatchTeams (matchTeamMap : gmap string Team2Data)
    (ts : list Team2Data) : list Team2Data :=
  filter (λ t, is_Some (matchTeamMap !! name t)) ts.

End WithRuntime.

(** [a] may stand before [b] in an array in rank order. *)
Definition rankLe (a b : Team2Data) : Prop := rank a ≤ rank b.

(** A message: Alpha, Bravo and Charlie in the match, Delta only in the
    cumulative table; Bravo's and Charlie's squads are down. *)
Definition delta : Team2Data := teamAt "Delta" 4 4 9.

Definition sampleMessage (isRefresh : bool) : ObserverMessage2 :=
  {| match_id := []; tournament_id := "cup";
     player_stats := [playerOf "a1" "Alpha" 1 "alive";
                      playerOf "b1" "Bravo" 2 "byplayer";
                      playerOf "c1" "Charlie" 3 "byzone";
                      playerOf "b2" "Bravo" 2 "byzone"];
     total_player_stats := [];
     team_stats := [alpha 1; bravo 3; charlie 4];
     total_team_stats := [charlie 4; delta; alpha 1; bravo 3];
     refresh := isRefresh |}.

(** A comparison of names to run the model with: equal names compare 0,
    others by their first differing character. *)
Definition sampleCompare (a b : string) : Z :=
  match String.compare a b with
  | Lt => -1
  | Eq => 0
  | Gt => 1
  end.

(** The arrays and maps [updateLiveStandingData] builds from the sample
    message. *)
Definition sampleTotals : list Team2Data :=
  sort (byRankThenName sampleCompare) (total_team_stats (sampleMessage true)).

Definition sampleTeamMap : gmap string Team2Data :=
  buildTeamMap (team_stats (sampleMessage true)).

Definition samplePlayersMap : gmap string (list Player2Data) :=
  buildPlayersMap (player_stats (sampleMessage true)).

(** Eighteen teams, team [n] of rank [n], listed from the last to the
    first. *)
Definition teamNo (n : nat) : Team2Data :=
  teamAt (String (ascii_of_nat (64 + n)) EmptyString) (Z.of_nat n)
    (Z.of_nat n) 1.

Definition league : list Team2Data := teamNo <$> rev (seq 1 18).

End LiveStandingData.


(* ===================================================================== *)
(** * [class MessageDataConverter] *)
(* ===================================================================== *)

Module MessageDataConverter.

(** [ToInt32]: the integer modulo [2^32], taken in the range of a signed
    32-bit integer. *)
Definition toInt32 (x : Z) : Z := (x + 2 ^ 31) mod 2 ^ 32 - 2 ^ 31.

(** [a << n] and [a & b] on numbers: both operands go through [ToInt32],
    the shift count is taken modulo 32, and the result is a signed 32-bit
    integer. *)
Definition shl (a n : Z) : Z :=
  toInt32 (Z.shiftl (toInt32 a) (Z.land n 31)).

Definition band (a b : Z) : Z := toInt32 (Z.land (toInt32 a) (toInt32 b)).

(** [teamName.charCodeAt(i)] for [i] from [0] to [teamName.length - 1],
    for a name whose characters have codes below 256. *)
Definition charCodes (s : string) : list Z :=
  (λ c, Z.of_N (N_of_ascii c)) <$> String.list_ascii_of_string s.

(** The body of the loop of [generateTeamId]. *)
Definition hashStep (hash char : Z) : Z :=
  let hash1 := (shl hash 5 - hash) + char in
  band hash1 hash1.

Definition generateTeamId (teamName : string) : Z :=
  Z.abs (foldl hashStep 0 (charCodes teamName)).


(** [x || d] for an optional number and for an optional string: [d] takes
    the place of [undefined], of [0] and of the empty string. *)
Definition numberOr (x : option Z) (d : Z) : Z :=
  match x with
  | Some v => if v =? 0 then d else v
  | None => d
  end.

Definition stringOr (x : option string) (d : string) : string :=
  match x with
  | Some s => if String.eqb s EmptyString then d else s
  | None => d
  end.

(** [PlayerStat['postDataPb']] *)
Record RawPostData := mkRawPostData {
  deathType : option string;
  damageDealt : option Z;
  kills : option Z
}.

(** The result of [convertPostData]. *)
Record PostData := mkPostData {
  death_type : string;
  post_kills : Z;
  damage_dealt : Z
}.

Definition convertPostData (postDataPb : option RawPostData) : PostData :=
  match postDataPb with
  | None => {| death_type := "alive"; post_kills := 0; damage_dealt := 0 |}
  | Some pb =>
      {| death_type := stringOr (deathType pb) "alive";
         post_kills := numberOr (kills pb) 0;
         damage_dealt := numberOr (damageDealt pb) 0 |}
  end.

Definition convertPlayerTelemetry (postDataPb : option RawPostData)
    : LiveTeamPanel.TelemetryStats :=
  match postDataPb with
  | None => {| LiveTeamPanel.is_alive := true;
               LiveTeamPanel.is_groggy := false |}
  | Some pb =>
      let deathType := stringOr (deathType pb) "alive" in
      {| LiveTeamPanel.is_alive :=
           String.eqb deathType "alive" || String.eqb deathType "groggy";
         LiveTeamPanel.is_groggy := String.eqb deathType "groggy" |}
  end.

(** The part of a converted [post_data_pb] that the panels read. *)
Definition readByPanels (pd : PostData) : LiveTeamPanel.PostDataStats :=
  LiveTeamPanel.mkPostDataStats (death_type pd).

(** [interface TeamStat] *)
Module TeamStat.
Record t := mk {
  name : string;
  id : string;
  rank : Z;
  totalKills : option Z
}.
End TeamStat.

(** [interface TotalTeamStat], the fields the converter reads. *)
Module TotalTeamStat.
Record t := mk {
  name : string;
  team_id : Z;
  totalKills : Z;
  deaths : option Z;
  rank : Z;
  totalScore : Z
}.
End TotalTeamStat.

Section WithParseInt.

(** [parseInt] of a string; [None] is [NaN]. *)
Variable parseInt : string → option Z.


End WithParseInt.

Definition convertTotalTeamStats (totalTeamStats : list TotalTeamStat.t)
    : list LiveTeamPanel.Team2Data :=
  (λ team,
     {| LiveTeamPanel.name := TotalTeamStat.name team;
        LiveTeamPanel.id :=
          numberOr (Some (TotalTeamStat.team_id team))
            (generateTeamId (TotalTeamStat.name team));
        LiveTeamPanel.total_kills := TotalTeamStat.totalKills team;
        LiveTeamPanel.total_score := TotalTeamStat.totalScore team;
        LiveTeamPanel.rank := TotalTeamStat.rank team;
        LiveTeamPanel.eliminated :=
          4 <=? numberOr (TotalTeamStat.deaths team) 0;
        LiveTeamPanel.full_name := TotalTeamStat.name team;
        LiveTeamPanel.placement_rank := TotalTeamStat.rank team |})
  <$> totalTeamStats.

(** [validateObserverMessage2]; the tests on the types of the fields hold
    of every value of the record types. *)
Definition validateObserverMessage2 (data : LiveStandingData.ObserverMessage2)
    : bool :=
  negb (String.eqb (LiveStandingData.tournament_id data) EmptyString) &&
  forallb (λ team, negb (String.eqb (LiveTeamPanel.name team) EmptyString))
    (LiveStandingData.total_team_stats data).

(** A player as [convertPlayerStats] makes it from [postDataPb]. *)
Definition converted (n t : string) (i : Z) (postDataPb : option RawPostData)
    : LiveTeamPanel.Player2Data :=
  {| LiveTeamPanel.player_name := n;
     LiveTeamPanel.team_name := t;
     LiveTeamPanel.team_id := i;
     LiveTeamPanel.post_data_pb := Some (readByPanels (convertPostData postDataPb));
     LiveTeamPanel.telemetry_pb := Some (convertPlayerTelemetry postDataPb) |}.




End MessageDataConverter.


(* ===================================================================== *)
(** * [class EliminationOverlay] *)
(* ===================================================================== *)

Module EliminationOverlay.

Import LiveTeamPanel LiveStanding.

(** The comparator of [teams.sort] in [displayEliminatedTeams]; a rank is
    a number, and [rank || 0] is that number. *)
Definition byRankDescending (a b : Team2Data) : Z := rank b - rank a.

(** What one call of [displayEliminatedTeams] puts on the screen: the
    team items in their order, the lowest and the highest rank of the
    rank line, and the team count of the rank line. *)
Record Shown := mkShown {
  teamList : list Team2Data;
  rankInfo : option (Z * Z);
  outOf : Z
}.

(** Where the chain of [processQueue] calls stands: no call is pending;
    a batch is on display until the 3 s timer resolves the promise; or
    the 500 ms timer before the next call is running.  The timers carry
    the [totalTeamCount] of the chain. *)
Inductive stage :=
  | Idle
  | Displaying (totalTeamCount : Z)
  | Pausing (totalTeamCount : Z).

(** The fields [queue] and [isProcessing], the pending timer, and the
    displays made so far. *)
Record Overlay := mkOverlay {
  queue : list Team2Data;
  isProcessing : bool;
  pending : stage;
  displayed : list Shown
}.

Definition create : Overlay :=
  {| queue := []; isProcessing := false; pending := Idle; displayed := [] |}.

Definition displayEliminatedTeams (teams : list Team2Data)
    (totalTeamCount : Z) : Shown :=
  let sorted := sort byRankDescending teams in
  {| teamList := sorted;
     rankInfo := match rank <$> sorted with
                 | [] => None
                 | r :: rs => Some (foldl Z.min r rs, foldl Z.max r rs)
                 end;
     outOf := totalTeamCount |}.

(** [processQueue] up to its [await]. *)
Definition processQueue (totalTeamCount : Z) (o : Overlay) : Overlay :=
  match queue o with
  | [] => {| queue := []; isProcessing := false; pending := Idle;
             displayed := displayed o |}
  | _ => {| queue := drop 3 (queue o);
            isProcessing := true;
            pending := Displaying totalTeamCount;
            displayed := displayed o ++
              [displayEliminatedTeams (take 3 (queue o)) totalTeamCount] |}
  end.

Definition enqueue (eliminatedTeams : list Team2Data) (totalTeamCount : Z)
    (o : Overlay) : Overlay :=
  match eliminatedTeams with
  | [] => o
  | _ =>
      let o1 := {| queue := queue o ++ eliminatedTeams;
                   isProcessing := isProcessing o;
                   pending := pending o;
                   displayed := displayed o |} in
      if isProcessing o1 then o1 else processQueue totalTeamCount o1
  end.

(** A call of [enqueue], the 3 s timer of a display, or the 500 ms timer
    after it; a timer fires only when it is pending. *)
Inductive event :=
  | Enqueue (eliminatedTeams : list Team2Data) (totalTeamCount : Z)
  | DisplayTimeout
  | PauseTimeout.

Definition step (o : Overlay) (e : event) : Overlay :=
  match e with
  | Enqueue eliminatedTeams totalTeamCount =>
      enqueue eliminatedTeams totalTeamCount o
  | DisplayTimeout =>
      match pending o with
      | Displaying n => {| queue := queue o; isProcessing := isProcessing o;
                           pending := Pausing n; displayed := displayed o |}
      | _ => o
      end
  | PauseTimeout =>
      match pending o with
      | Pausing n => processQueue n o
      | _ => o
      end
  end.

Definition run (es : list event) (o : Overlay) : Overlay := foldl step o es.

(** The teams handed to [enqueue], in the order of the calls. *)
Definition enqueuedTeams (es : list event) : list Team2Data :=
  concat (omap (λ e, match e with
                     | Enqueue eliminatedTeams _ => Some eliminatedTeams
                     | _ => None
                     end) es).

(** The batches [raw] account for the displays of [o]: each display lists
    its batch sorted, a batch has one to three teams, and the batches
    followed by the queue are the teams [all]. *)
Definition accountsFor (raw : list (list Team2Data)) (o : Overlay)
    (all : list Team2Data) : Prop :=
  Forall2 (λ s r, teamList s = sort byRankDescending r) (displayed o) raw ∧
  Forall (λ r, 1 ≤ length r ≤ 3)%nat raw ∧
  concat raw ++ queue o = all.

Definition isIdle (o : Overlay) : bool :=
  match pending o with
  | Idle => true
  | _ => false
  end.

(** No event of [es] leaves the overlay idle. *)
Fixpoint keepsBusy (es : list event) (o : Overlay) : bool :=
  match es with
  | [] => true
  | e :: es' => negb (isIdle (step o e)) && keepsBusy es' (step o e)
  end.

(** Two calls of [enqueue] with different team counts, the second while
    the first batch is on display. *)
Definition lateEnqueue : list event :=
  [DisplayTimeout; Enqueue [bravo 3; alpha 1] 99; PauseTimeout].

End EliminationOverlay.


(* ===================================================================== *)
(** * The data queue of the overlay page *)
(* ===================================================================== *)

Module LiveStandingQueue.

Import LiveTeamPanel LiveStanding LiveStandingData.

Section WithRuntime.

(** The data of the [observer-data-update] channel. *)
Context {RawData : Type}.

(** [MessageDataConverter.convertToObserverMessage2]; [None] when it
    throws. *)
Variable convertToObserverMessage2 : RawData → option ObserverMessage2.

Variable panel_height : Z.
Variable localeCompare : string → string → Z.

(** The module variables [dataQueue], [isProcessingData],
    [dataProcessingInterval] (set or [null]), [totalTeamIndexMap] and
    [liveStandingState]; the number of cool-down timers pending; and the
    data taken from the queue so far. *)
Record Page := mkPage {
  dataQueue : list RawData;
  isProcessingData : bool;
  dataProcessingInterval : bool;
  cooldowns : nat;
  totalTeamIndexMap : gmap string Panel;
  liveStandingState : LiveStandingState;
  taken : list RawData
}.

Definition initial : Page :=
  {| dataQueue := []; isProcessingData := false;
     dataProcessingInterval := false; cooldowns := 0;
     totalTeamIndexMap := ∅;
     liveStandingState := {| teams := []; players := []; lastUpdate := 0;
                             isConnected := false |};
     taken := [] |}.

Definition enqueueObserverData (observerData : RawData) (p : Page) : Page :=
  {| dataQueue := dataQueue p ++ [observerData];
     isProcessingData := isProcessingData p;
     dataProcessingInterval := dataProcessingInterval p;
     cooldowns := cooldowns p;
     totalTeamIndexMap := totalTeamIndexMap p;
     liveStandingState := liveStandingState p;
     taken := taken p |}.

(** [processDataFromQueue]; [now] is [Date.now()] and [container] says
    whether the page has the teams container.  The [finally] block sets
    the cool-down timer on every path after [shift]. *)
Definition processDataFromQueue (now : Z) (container : bool) (p : Page) : Page :=
  match dataQueue p with
  | [] => p
  | observerData :: rest =>
      if isProcessingData p then p
      else
        let '(state, panels) :=
          match convertToObserverMessage2 observerData with
          | None => (liveStandingState p, totalTeamIndexMap p)
          | Some observerMessage =>
              if negb (MessageDataConverter.validateObserverMessage2
                         observerMessage)
              then (liveStandingState p, totalTeamIndexMap p)
              else
                let r := updateLiveStandingData panel_height localeCompare
                           container now observerMessage
                           (totalTeamIndexMap p) in
                (r.1, LiveStanding.panels r.2)
          end in
        {| dataQueue := rest;
           isProcessingData := true;
           dataProcessingInterval := dataProcessingInterval p;
           cooldowns := S (cooldowns p);
           totalTeamIndexMap := panels;
           liveStandingState := state;
           taken := taken p ++ [observerData] |}
  end.

Definition setInterval (on : bool) (p : Page) : Page :=
  {| dataQueue := dataQueue p;
     isProcessingData := isProcessingData p;
     dataProcessingInterval := on;
     cooldowns := cooldowns p;
     totalTeamIndexMap := totalTeamIndexMap p;
     liveStandingState := liveStandingState p;
     taken := taken p |}.

Definition startDataProcessingInterval : Page → Page := setInterval true.
Definition stopDataProcessingInterval : Page → Page := setInterval false.

(** The callback of the cool-down timer. *)
Definition cooldownFinished (p : Page) : Page :=
  {| dataQueue := dataQueue p;
     isProcessingData := false;
     dataProcessingInterval := dataProcessingInterval p;
     cooldowns := pred (cooldowns p);
     totalTeamIndexMap := totalTeamIndexMap p;
     liveStandingState := liveStandingState p;
     taken := taken p |}.

(** Data arrives, the interval timer or a cool-down timer fires (each
    only when it is set), or the interval is started or stopped. *)
Inductive event :=
  | Receive (observerData : RawData)
  | IntervalFires (now : Z) (container : bool)
  | CooldownFires
  | Start
  | Stop.

Definition step (p : Page) (e : event) : Page :=
  match e with
  | Receive observerData => enqueueObserverData observerData p
  | IntervalFires now container =>
      if dataProcessingInterval p then processDataFromQueue now container p
      else p
  | CooldownFires =>
      match cooldowns p with
      | O => p
      | S _ => cooldownFinished p
      end
  | Start => startDataProcessingInterval p
  | Stop => stopDataProcessingInterval p
  end.

Definition run (es : list event) : Page := foldl step initial es.

Definition received (es : list event) : list RawData :=
  omap (λ e, match e with Receive d => Some d | _ => None end) es.

Definition cooldownsFired (es : list event) : nat :=
  length (omap (λ e, match e with CooldownFires => Some e | _ => None end) es).

End WithRuntime.

(** A converter for a run: the data is the message, and a message
    without a tournament is not accepted by the validation. *)
Definition sampleConvert (m : ObserverMessage2) : option ObserverMessage2 :=
  Some m.

Definition noTournament : ObserverMessage2 :=
  {| match_id := []; tournament_id := EmptyString; player_stats := [];
     total_player_stats := []; team_stats := []; total_team_stats := [];
     refresh := true |}.

End LiveStandingQueue.


(* ===================================================================== *)
(** * Properties of the match-state manager *)
(* ===================================================================== *)

Section MatchStateFacts.

Import MatchStateManager.

Lemma sameElement_eq (a b : option byte) : sameElement a b = true ↔ a = b.
Proof.
  destruct a as [x|], b as [y|]; simpl; try (split; congruence).
  split.
  - intros H. f_equal. by apply Byte.byte_dec_bl.
  - intros [= ->]. by apply Byte.byte_dec_lb.
Qed.

(** The loop returns [true] exactly when the two arrays agree on the
    indices it has still to visit. *)
Lemma compareFrom_agree (id1 id2 : list byte) (n i : nat) :
  compareFrom id1 id2 n i = true ↔
  ∀ j, (i ≤ j < i + n)%nat → id1 !! j = id2 !! j.
Proof.
  revert i. induction n as [|n IH]; intros i; simpl.
  - split; [intros _ j Hj; lia | done].
  - destruct (sameElement (id1 !! i) (id2 !! i)) eqn:E; simpl.
    + apply sameElement_eq in E. rewrite IH. split.
      * intros H j Hj. destruct (decide (j = i)) as [->|]; [done|].
        apply H. lia.
      * intros H j Hj. apply H. lia.
    + split; [done|]. intros H.
      assert (id1 !! i = id2 !! i) as Heq by (apply H; lia).
      apply sameElement_eq in Heq. congruence.
Qed.

(** A [false] from the loop comes with the index it stopped at. *)
Lemma compareFrom_differ (id1 id2 : list byte) (n i : nat) :
  compareFrom id1 id2 n i = false →
  ∃ j, (i ≤ j < i + n)%nat ∧ id1 !! j ≠ id2 !! j.
Proof.
  revert i. induction n as [|n IH]; intros i; simpl; [done|].
  destruct (sameElement (id1 !! i) (id2 !! i)) eqn:E; simpl.
  - intros H. destruct (IH _ H) as (j & Hj & Hne). exists j. split; [lia|done].
  - intros _. exists i. split; [lia|]. intros Heq.
    apply sameElement_eq in Heq. congruence.
Qed.

Lemma areMatchIdsEqual_eq (id1 id2 : list byte) :
  areMatchIdsEqual id1 id2 = true ↔ id1 = id2.
Proof.
  unfold areMatchIdsEqual.
  destruct (Nat.eqb (length id1) (length id2)) eqn:E; simpl.
  - apply Nat.eqb_eq in E. rewrite compareFrom_agree. split.
    + intros H. apply list_eq. intros j.
      destruct (decide (j < length id1)%nat).
      * apply H. lia.
      * rewrite !lookup_ge_None_2; [done | lia | lia].
    + by intros ->.
  - apply Nat.eqb_neq in E. split; [done|]. intros ->. done.
Qed.

Lemma shouldRefresh_stored (stored newId : list byte) (s : MatchState) :
  matchId s = Some stored →
  shouldRefresh newId s = bool_decide (stored ≠ newId).
Proof.
  intros H. unfold shouldRefresh. rewrite H. simpl.
  destruct (areMatchIdsEqual stored newId) eqn:E; simpl.
  - apply areMatchIdsEqual_eq in E. by rewrite bool_decide_eq_false_2; [|intros ?].
  - rewrite bool_decide_eq_true_2; [done|]. intros Heq.
    apply areMatchIdsEqual_eq in Heq. congruence.
Qed.

Lemma run_matchId (cs : list call) (s : MatchState) :
  matchId (run cs s) = lastStored (matchId s) cs.
Proof.
  revert s. induction cs as [|c cs IH]; intros s; [done|].
  unfold run in *. simpl. rewrite IH. by destruct c.
Qed.

Lemma shouldRefresh_answer (newId : list byte) (s : MatchState) :
  shouldRefresh newId s =
  match matchId s with
  | None => false
  | Some stored => bool_decide (stored ≠ newId)
  end.
Proof.
  destruct (matchId s) as [stored|] eqn:E.
  - by apply shouldRefresh_stored.
  - unfold shouldRefresh. by rewrite E.
Qed.

Lemma deliverAll_expected (ms : list delivery) (s : MatchState) :
  isRefresh <$> deliverAll ms s = expectedRefresh (matchId s) (d_matchId <$> ms).
Proof.
  revert s. induction ms as [|m ms IH]; intros s; [done|].
  simpl. rewrite IH. simpl. f_equal.
  rewrite shouldRefresh_answer.
  destruct (matchId s) as [stored|]; simpl.
  - by destruct (bool_decide (stored ≠ d_matchId m)), (d_reconnecting m).
  - by destruct (d_reconnecting m).
Qed.

(** C1.  On one manager, [shouldRefresh] answers [false] as long as no
    match id has been stored (in particular on the very first call), and
    after any sequence of [shouldRefresh] and [updateState] calls it
    answers [true] exactly when its argument is not, byte for byte, the id
    of the last [updateState]; over a stream of deliveries handled by the
    dispatcher callback the refresh answers are a function of the match
    ids alone, and the [reconnecting] flag of a delivery does not enter
    the answer. *)
Theorem shouldRefresh_follows_last_update :
  (∀ newId, shouldRefresh newId initial = false) ∧
  (∀ (calls : list call) (newId : list byte),
     shouldRefresh newId (run calls initial) =
     match lastStored None calls with
     | None => false
     | Some stored => bool_decide (stored ≠ newId)
     end) ∧
  (∀ (id1 id2 : list byte),
     areMatchIdsEqual id1 id2 = false ↔
     length id1 ≠ length id2 ∨ ∃ i, (i < length id1)%nat ∧ id1 !! i ≠ id2 !! i) ∧
  (∀ (ms : list delivery),
     isRefresh <$> deliverAll ms initial =
     expectedRefresh None (d_matchId <$> ms)) ∧
  (∀ i t now (flag flag' : bool) (s : MatchState),
     isRefresh (onUpdate (mkDelivery i t flag now) s).1 =
     isRefresh (onUpdate (mkDelivery i t flag' now) s).1).
Proof.
  split_and!.
  - done.
  - intros calls newId. rewrite shouldRefresh_answer, run_matchId. done.
  - intros id1 id2. unfold areMatchIdsEqual.
    destruct (Nat.eqb (length id1) (length id2)) eqn:E; simpl.
    + apply Nat.eqb_eq in E. split.
      * intros H. right.
        destruct (compareFrom_differ _ _ _ _ H) as (j & Hj & Hne).
        exists j. split; [lia | done].
      * intros [Hlen | (i & Hi & Hne)]; [done|].
        destruct (compareFrom id1 id2 (length id1) 0) eqn:Hc; [|done].
        destruct Hne. revert Hc. rewrite compareFrom_agree. intros Hc.
        apply Hc. lia.
    + apply Nat.eqb_neq in E. split; [by left | done].
  - intros ms. apply deliverAll_expected.
  - intros i t now flag flag' s. simpl.
    by destruct (shouldRefresh i s), flag, flag'.
Qed.

End MatchStateFacts.


(* ===================================================================== *)
(** * Properties of the message dispatcher *)
(* ===================================================================== *)

Section DispatcherFacts.

Import MessageDispatcher.

Context {ObserverMessage2 : Type}.
Variable parseFromJson : string → option ObserverMessage2.

Local Abbreviation Dispatcher := (@Dispatcher ObserverMessage2).
Local Abbreviation onTimerExpired := (onTimerExpired parseFromJson).
Local Abbreviation timerFires := (timerFires parseFromJson).
Local Abbreviation runEvents := (runEvents parseFromJson).
Local Abbreviation step := (step parseFromJson).
Local Abbreviation callsFor := (callsFor parseFromJson).

Lemma dequeue_chosen (first : EventQueueData) (rest : list EventQueueData) :
  dequeue first rest = (chosen first rest, drop 1 rest).
Proof. by destruct rest. Qed.

Lemma process_callsFor (now : Z) (m : EventQueueData) (d : Dispatcher) :
  process parseFromJson now m d = delivered d ++ callsFor now m d.
Proof.
  unfold process, callsFor.
  destruct (parseFromJson (data m)); [destruct (onUpdate d)|];
    by rewrite ?app_nil_r.
Qed.

Lemma onTimerExpired_idle (now now' : Z) (d : Dispatcher) :
  now - latestProcessTime d < intervalMs ∨ eventQueue d = [] →
  onTimerExpired now now' d = d.
Proof.
  intros H. unfold MessageDispatcher.onTimerExpired.
  destruct (now - latestProcessTime d <? intervalMs) eqn:E; [done|].
  apply Z.ltb_ge in E. destruct H as [H|H]; [lia|]. by rewrite H.
Qed.

Lemma onTimerExpired_due (now now' : Z) (d : Dispatcher)
    (first : EventQueueData) (rest : list EventQueueData) :
  intervalMs ≤ now - latestProcessTime d →
  eventQueue d = first :: rest →
  onTimerExpired now now' d =
  {| eventQueue := drop 1 rest; intervalTimer := intervalTimer d;
     latestProcessTime := now'; onUpdate := onUpdate d;
     delivered := delivered d ++ callsFor now (chosen first rest) d |}.
Proof.
  intros Hdue Hq. unfold MessageDispatcher.onTimerExpired.
  destruct (now - latestProcessTime d <? intervalMs) eqn:E.
  - apply Z.ltb_lt in E. lia.
  - rewrite Hq, dequeue_chosen, process_callsFor. done.
Qed.

(** A tick adds at most one callback invocation. *)
Lemma onTimerExpired_at_most_one (now now' : Z) (d : Dispatcher) :
  ∃ new, delivered (onTimerExpired now now' d) = delivered d ++ new ∧
         (length new ≤ 1)%nat ∧ Forall (λ c, call_at c = now) new ∧
         (new ≠ [] → intervalMs ≤ now - latestProcessTime d).
Proof.
  destruct (decide (now - latestProcessTime d < intervalMs)) as [Hl|Hl].
  { exists []. rewrite onTimerExpired_idle, app_nil_r by auto.
    split_and!; simpl; [done | lia | constructor | done]. }
  destruct (eventQueue d) as [|first rest] eqn:Hq.
  { exists []. rewrite onTimerExpired_idle, app_nil_r by auto.
    split_and!; simpl; [done | lia | constructor | done]. }
  rewrite (onTimerExpired_due now now' d first rest); [|lia|done].
  exists (callsFor now (chosen first rest) d). simpl.
  split; [done|]. unfold callsFor.
  destruct (parseFromJson _); [destruct (onUpdate d)|]; simpl;
    split_and!; repeat constructor; lia.
Qed.

(** ** Pacing along a run *)

Lemma pacedUpTo_later (t t' : Z) (d : Dispatcher) :
  t ≤ t' → pacedUpTo t d → pacedUpTo t' d.
Proof. intros Ht (H1 & H2 & H3). split; [lia | done]. Qed.

Lemma pacedUpTo_timer (t now now' : Z) (d : Dispatcher) :
  t ≤ now → now ≤ now' → pacedUpTo t d →
  pacedUpTo now' (onTimerExpired now now' d).
Proof.
  intros Ht Hn (H1 & H2 & H3).
  destruct (decide (now - latestProcessTime d < intervalMs)) as [Hl|Hl].
  { rewrite onTimerExpired_idle by auto. split; [lia | done]. }
  destruct (eventQueue d) as [|first rest] eqn:Hq.
  { rewrite onTimerExpired_idle by auto. split; [lia | done]. }
  rewrite (onTimerExpired_due now now' d first rest); [|lia|done].
  unfold pacedUpTo, deliveryTimes in *. simpl. rewrite fmap_app.
  split; [lia|]. split.
  - apply Forall_app. split.
    + eapply Forall_impl; [exact H2|]. simpl. intros; lia.
    + unfold callsFor. destruct (parseFromJson _); [destruct (onUpdate d)|];
        simpl; repeat constructor. lia.
  - apply StronglySorted_app. split_and!.
    + intros x1 x2 Hx1 Hx2.
      rewrite Forall_forall in H2. apply H2 in Hx1.
      assert (x2 = now) as ->.
      { unfold callsFor in Hx2.
        destruct (parseFromJson _); [destruct (onUpdate d)|]; simpl in Hx2;
          first [ by apply list_elem_of_singleton in Hx2
                | by apply elem_of_nil in Hx2 ]. }
      unfold paced. lia.
    + done.
    + unfold callsFor. destruct (parseFromJson _); [destruct (onUpdate d)|];
        simpl; repeat constructor.
Qed.

Lemma pacedUpTo_run (es : list event) (t : Z) (d : Dispatcher) :
  wellTimed t es → pacedUpTo t d →
  StronglySorted paced (deliveryTimes (runEvents es d)).
Proof.
  revert t d. induction es as [|e es IH]; intros t d Hw Hp.
  { by destruct Hp as (_ & _ & ?). }
  unfold MessageDispatcher.runEvents in *. simpl.
  destruct e as [now| |m| |now now']; simpl in Hw.
  - destruct Hw as [Ht Hw]. apply (IH now); [done|]. simpl.
    unfold start. destruct (intervalTimer d).
    + by apply (pacedUpTo_later t).
    + destruct Hp as (H1 & H2 & H3). split_and!; simpl; [lia| |done].
      eapply Forall_impl; [exact H2|]. simpl. intros; lia.
  - apply (IH t); [done|]. simpl. unfold stop. by destruct (intervalTimer d).
  - by apply (IH t).
  - by apply (IH t).
  - destruct Hw as (Ht & Hn & Hw). apply (IH now'); [done|]. simpl.
    unfold MessageDispatcher.timerFires. destruct (intervalTimer d).
    + by apply (pacedUpTo_timer t).
    + apply (pacedUpTo_later t); [lia | done].
Qed.

Lemma pacedUpTo_create (callback : bool) (t : Z) :
  pacedUpTo t (create callback t : Dispatcher).
Proof. split_and!; simpl; [lia | constructor | constructor]. Qed.

(** C2 (as amended).  A tick that comes less than 1500 ms after
    [latestProcessTime], or that finds the queue empty, changes nothing.
    Any other tick takes exactly one entry for delivery, the head of a
    one-entry queue and otherwise the second entry, the head being
    dropped; it stores the clock in [latestProcessTime]; and it invokes
    the callback once, with that entry, when the payload decodes and a
    callback is registered, and not at all when the payload does not
    decode.  Along any run with a clock that does not go backwards two
    callback invocations are at least 1500 ms apart. *)
Theorem tick_takes_one_entry_per_interval :
  (∀ now now' (d : Dispatcher),
     now - latestProcessTime d < intervalMs ∨ eventQueue d = [] →
     onTimerExpired now now' d = d) ∧
  (∀ now now' (d : Dispatcher) first rest,
     intervalMs ≤ now - latestProcessTime d →
     eventQueue d = first :: rest →
     eventQueue (onTimerExpired now now' d) = drop 1 rest ∧
     latestProcessTime (onTimerExpired now now' d) = now' ∧
     delivered (onTimerExpired now now' d) =
       delivered d ++
       match parseFromJson (data (chosen first rest)) with
       | Some observerMessage =>
           if onUpdate d
           then [mkCall now observerMessage (reconnecting (chosen first rest))]
           else []
       | None => []
       end) ∧
  (∀ first, chosen first [] = first) ∧
  (∀ first second rest, chosen first (second :: rest) = second) ∧
  (∀ callback t es,
     wellTimed t es →
     StronglySorted paced
       (deliveryTimes (runEvents es (create callback t)))).
Proof.
  split_and!.
  - intros. by apply onTimerExpired_idle.
  - intros now now' d first rest Hdue Hq.
    by rewrite (onTimerExpired_due now now' d first rest).
  - done.
  - done.
  - intros callback t es Hw.
    apply (pacedUpTo_run es t); [done | apply pacedUpTo_create].
Qed.

(** C3 (what the code does on the claim's scenario).  After three
    messages queued 200 ms apart ahead of the first eligible tick, that
    tick hands the second message to the decoder and the callback, drops
    the first and leaves the third in the queue; the third is delivered by
    the tick one pacing interval later. *)
Theorem burst_of_three_delivers_the_second (m1 m2 m3 : EventQueueData) :
  let d := runEvents (idleBurst m1 m2 m3) (create true 0) in
  eventQueue d = [m3] ∧
  delivered d = callsFor 1500 m2 (create true 0) ∧
  delivered (runEvents (ticks 1600 15) d) =
    callsFor 1500 m2 (create true 0) ++ callsFor 3000 m3 (create true 0).
Proof.
  vm_compute.
  destruct (parseFromJson _), (parseFromJson _); done.
Qed.

(** C8 (as amended).  [stop] clears the timer field, so that no tick runs
    and no callback is invoked while the dispatcher is stopped; it keeps
    the queue and the log as they are.  The messages are gone after
    [clear]: a dispatcher stopped, cleared and started again delivers
    nothing at its next tick. *)
Theorem stop_halts_ticks_and_keeps_queue (d : Dispatcher) :
  intervalTimer (stop d) = false ∧
  eventQueue (stop d) = eventQueue d ∧
  delivered (stop d) = delivered d ∧
  (∀ now now', timerFires now now' (stop d) = stop d) ∧
  eventQueue (clear (stop d)) = [] ∧
  (∀ t now now',
     delivered (timerFires now now' (start t (clear (stop d)))) = delivered d).
Proof.
  assert (intervalTimer (stop d) = false) as Hoff.
  { unfold stop. by destruct (intervalTimer d) eqn:E. }
  assert (eventQueue (stop d) = eventQueue d) as Hq.
  { unfold stop. by destruct (intervalTimer d). }
  assert (delivered (stop d) = delivered d) as Hlog.
  { unfold stop. by destruct (intervalTimer d). }
  split_and!; try done.
  - intros now now'. unfold MessageDispatcher.timerFires. by rewrite Hoff.
  - intros t now now'.
    unfold MessageDispatcher.timerFires, start, clear. simpl. rewrite Hoff.
    simpl. unfold MessageDispatcher.onTimerExpired. simpl.
    by destruct (_ <? _).
Qed.

(** C9.  When the payload of the entry a tick has taken does not decode,
    the callback is not invoked, the entry (and the head dropped with it)
    is gone from the queue, and [latestProcessTime] is set all the same:
    no tick within 1500 ms of it does anything. *)
Theorem decode_failure_uses_up_the_interval
    (now now' : Z) (d : Dispatcher)
    (first : EventQueueData) (rest : list EventQueueData) :
  intervalMs ≤ now - latestProcessTime d →
  eventQueue d = first :: rest →
  parseFromJson (data (chosen first rest)) = None →
  let d' := onTimerExpired now now' d in
  delivered d' = delivered d ∧
  eventQueue d' = drop 1 rest ∧
  (length (eventQueue d') < length (eventQueue d))%nat ∧
  latestProcessTime d' = now' ∧
  (∀ t t', t - now' < intervalMs → onTimerExpired t t' d' = d').
Proof.
  intros Hdue Hq Hparse d'. subst d'.
  rewrite (onTimerExpired_due now now' d first rest) by done.
  unfold callsFor. rewrite Hparse, app_nil_r, Hq. simpl.
  split_and!; try done.
  - rewrite length_drop. lia.
  - intros t t' Ht. apply onTimerExpired_idle. simpl. by left.
Qed.

End DispatcherFacts.

(** ** The dispatcher on concrete runs *)

Section DispatcherRuns.

Import MessageDispatcher.

(** C2 as stated fails here: the tick at 1500 ms is eligible (a full
    interval has passed and the queue is not empty), it takes the entry
    out of the queue, and yet no callback is invoked, because the payload
    does not decode. *)
Lemma eligible_tick_without_delivery :
  let d := enqueue garbage started in
  intervalMs ≤ 1500 - latestProcessTime d ∧
  eventQueue d = [garbage] ∧
  eventQueue (onTimerExpired sampleDecoder 1500 1500 d) = [] ∧
  delivered (onTimerExpired sampleDecoder 1500 1500 d) = [].
Proof. by vm_compute. Qed.

Lemma tick_takes_one_entry_witness :
  let d := enqueue snapshotB (enqueue snapshotA started) in
  eventQueue (onTimerExpired sampleDecoder 1500 1502 d) = [] ∧
  latestProcessTime (onTimerExpired sampleDecoder 1500 1502 d) = 1502 ∧
  delivered (onTimerExpired sampleDecoder 1500 1502 d) =
    [mkCall 1500 "snapshot B" true] ∧
  onTimerExpired sampleDecoder 1400 1400 d = d ∧
  StronglySorted paced
    (deliveryTimes
       (runEvents sampleDecoder (idleBurst snapshotA snapshotB snapshotA)
          (create true 0))).
Proof.
  destruct (tick_takes_one_entry_per_interval sampleDecoder)
    as (Hidle & Hdue & _ & _ & Hpaced).
  destruct (Hdue 1500 1502 (enqueue snapshotB (enqueue snapshotA started))
              snapshotA [snapshotB]) as (Hq & Ht & Hlog).
  { vm_compute. discriminate. }
  { reflexivity. }
  split_and!.
  - exact Hq.
  - exact Ht.
  - exact Hlog.
  - apply Hidle. left. vm_compute. reflexivity.
  - apply Hpaced. vm_compute. intuition discriminate.
Defined.

(** C8 as stated fails here: a message queued before [stop] is still in
    the queue afterwards, and the next [start] delivers it. *)
Lemma stopped_queue_is_delivered_after_restart :
  let d := stop (enqueue snapshotA started) in
  intervalTimer d = false ∧
  eventQueue d = [snapshotA] ∧
  delivered (runEvents sampleDecoder [Start 2000; Timer 3500 3500] d) =
    [mkCall 3500 "snapshot A" false].
Proof. by vm_compute. Qed.

Lemma decode_failure_witness :
  let d := enqueue garbage (enqueue snapshotA started) in
  let d' := onTimerExpired sampleDecoder 1500 1503 d in
  delivered d' = [] ∧ eventQueue d' = [] ∧ latestProcessTime d' = 1503 ∧
  onTimerExpired sampleDecoder 3002 3002 d' = d'.
Proof.
  destruct (decode_failure_uses_up_the_interval sampleDecoder 1500 1503
              (enqueue garbage (enqueue snapshotA started))
              snapshotA [garbage]) as (Hlog & Hq & _ & Ht & Hnext).
  { vm_compute. discriminate. }
  { reflexivity. }
  { reflexivity. }
  split_and!.
  - exact Hlog.
  - exact Hq.
  - exact Ht.
  - apply Hnext. vm_compute. reflexivity.
Defined.

End DispatcherRuns.


(* ===================================================================== *)
(** * Properties of the WebSocket client *)
(* ===================================================================== *)

Section WebSocketFacts.

Import WebSocketClient.

(** Case analysis on every test the goal still branches on. *)
Ltac branch :=
  repeat match goal with
         | |- context [if ?b then _ else _] => destruct b eqn:?; simpl
         | |- context [match ?o with Some _ => _ | None => _ end] =>
             destruct o eqn:?; simpl
         | |- context [match ?r with OPEN => _ | _ => _ end] =>
             destruct r eqn:?; simpl
         end.

(** No method assigns [reconnectDelay]. *)
Lemma step_reconnectDelay (c : Client) (e : event) :
  reconnectDelay (step c e) = reconnectDelay c.
Proof.
  destruct e; simpl;
    unfold connect, close, socketOpen, socketError, socketClose,
      handleMessage, timeoutFires, connectAsync, handleConnect,
      handleAuthentication, handleDisconnect, authenticate, sendMessage,
      reconnect, updateStatus; simpl; branch; reflexivity.
Qed.

Lemma run_reconnectDelay (es : list event) (c : Client) :
  reconnectDelay (run es c) = reconnectDelay c.
Proof.
  revert c. induction es as [|e es IH]; intros c; [done|].
  unfold run in *. simpl. by rewrite IH, step_reconnectDelay.
Qed.

(** [handleDisconnect(false)], case by case. *)
Lemma handleDisconnect_lost_connected (c : Client) :
  connected c = true →
  reconnectScheduled (reconnectDelay c) (handleDisconnect false c) ∧
  connected (handleDisconnect false c) = true ∧
  effects (handleDisconnect false c) = effects c ++ lossEffects c.
Proof.
  intros Hc. unfold handleDisconnect, lossEffects, reconnectScheduled,
    reconnect, updateStatus.
  destruct (onDisconnectCallback (callbacks c)) eqn:Hd;
    destruct (onStatusChangeCallback (callbacks c)) eqn:Hs;
    simpl; rewrite ?Hc, ?Hs; simpl; rewrite ?Hc.
  all: split_and!; [ eexists; split; [reflexivity | apply lookup_insert_eq]
                   | done | by rewrite <-?app_assoc, ?app_nil_r ].
Qed.

Lemma handleDisconnect_lost_unconnected (c : Client) :
  connected c = false →
  timeouts (handleDisconnect false c) = timeouts c ∧
  reconnectTimer (handleDisconnect false c) = reconnectTimer c ∧
  connected (handleDisconnect false c) = false ∧
  effects (handleDisconnect false c) = effects c ++ lossEffects c.
Proof.
  intros Hc. unfold handleDisconnect, lossEffects, updateStatus.
  destruct (onDisconnectCallback (callbacks c)) eqn:Hd;
    destruct (onStatusChangeCallback (callbacks c)) eqn:Hs;
    simpl; rewrite ?Hc, ?Hs; simpl; rewrite ?Hc.
  all: split_and!; try done; by rewrite <-?app_assoc, ?app_nil_r.
Qed.

Lemma lossEffects_no_onConnect (c : Client) :
  forallb (λ e, negb (isOnConnect e)) (lossEffects c) = true.
Proof.
  unfold lossEffects.
  by destruct (onDisconnectCallback _), (onStatusChangeCallback _).
Qed.

(** C4 (as amended).  A transport error during a connect attempt, on a
    client on which the user has not called [close()], is handled as a
    failed connect by [handleDisconnect(false)], the path of an unexpected
    close: the disconnect callback is invoked with [closedByUser = false]
    and no connect callback is invoked.  A reconnect attempt is scheduled
    after the fixed 3000 ms exactly when the client had been authenticated
    before ([connected] is set); on a client that never was, nothing is
    scheduled and the status becomes Disconnected. *)
Theorem connect_error_reconnects_only_after_authentication
    (cbs : Callbacks) (es : list event) (s : Socket) (errorMessage : string) :
  let c := run es (create cbs) in
  ws c = Some s →
  closedByUser c = false →
  let c' := socketError errorMessage c in
  c' = handleDisconnect false c ∧
  socketClose c = handleDisconnect false
                    (setWs (Some (mkSocket CLOSED (attemptReconnect s))) c) ∧
  effects c' = effects c ++ lossEffects c ∧
  forallb (λ e, negb (isOnConnect e)) (lossEffects c) = true ∧
  (connected c = true → reconnectScheduled 3000 c' ∧ connected c' = true) ∧
  (connected c = false →
     timeouts c' = timeouts c ∧ reconnectTimer c' = reconnectTimer c ∧
     connected c' = false).
Proof.
  intros c Hws Hopen c'.
  assert (reconnectDelay c = 3000) as Hdelay.
  { subst c. by rewrite run_reconnectDelay. }
  assert (c' = handleDisconnect false c) as Hc'.
  { subst c'. unfold socketError. by rewrite Hws. }
  split_and!.
  - done.
  - unfold socketClose. by rewrite Hws, Hopen.
  - rewrite Hc'. destruct (connected c) eqn:Hc.
    + by apply handleDisconnect_lost_connected.
    + by apply handleDisconnect_lost_unconnected.
  - apply lossEffects_no_onConnect.
  - intros Hc. rewrite Hc', <-Hdelay.
    destruct (handleDisconnect_lost_connected c Hc) as (? & ? & ?). done.
  - intros Hc. rewrite Hc'.
    destruct (handleDisconnect_lost_unconnected c Hc) as (? & ? & ? & ?). done.
Qed.

(** C4 as stated fails here: the first connect attempt of a fresh client
    meets a transport error; the user has not called [close()], and no
    reconnect is scheduled, neither by the error nor by the close event
    that follows it. *)
Lemma first_connect_error_schedules_no_reconnect :
  let c := socketError "ECONNREFUSED"
             (connect "token" None (create allCallbacks)) in
  closedByUser c = false ∧
  reconnectTimer c = None ∧
  timeouts c = ∅ ∧
  effects c = [OnStatusChange Connecting; OnDisconnect false;
               OnStatusChange Disconnected] ∧
  reconnectTimer (socketClose c) = None ∧
  timeouts (socketClose c) = ∅.
Proof. by vm_compute. Qed.

Lemma connect_error_witness :
  let c := run [Connect "token" None; SocketOpen; Message authenticated;
                SocketClose; TimeoutFires 0 None] (create allCallbacks) in
  connected c = true ∧
  reconnectScheduled 3000 (socketError "ETIMEDOUT" c) ∧
  effects (socketError "ETIMEDOUT" c) =
    effects c ++ [OnDisconnect false; OnStatusChange Connecting].
Proof.
  destruct (connect_error_reconnects_only_after_authentication allCallbacks
              [Connect "token" None; SocketOpen; Message authenticated;
               SocketClose; TimeoutFires 0 None]
              (mkSocket CONNECTING true) "ETIMEDOUT")
    as (_ & _ & Heff & _ & Hyes & _).
  { vm_compute. reflexivity. }
  { vm_compute. reflexivity. }
  split_and!.
  - vm_compute. reflexivity.
  - apply Hyes. vm_compute. reflexivity.
  - exact Heff.
Defined.

End WebSocketFacts.


(* ===================================================================== *)
(** * Properties of a team panel *)
(* ===================================================================== *)

Section PanelFacts.

Import LiveTeamPanel.

Variable panel_height : Z.

Local Abbreviation updatePanel := (updatePanel panel_height).

(** [handlePositionAndAnimation] leaves the elimination latch, the
    in-match flag and the team record alone, and records the rank. *)
Lemma handlePosition_frame (index newPosition : Z) (refresh : bool) (p : Panel) :
  let p' := (handlePositionAndAnimation index newPosition refresh p).1 in
  latched p' = latched p ∧ inMatch p' = inMatch p ∧
  teamData p' = teamData p ∧ previousRank p' = rank (teamData p).
Proof.
  unfold handlePositionAndAnimation.
  repeat match goal with
         | |- context [if ?b then _ else _] => destruct b; simpl
         end; done.
Qed.

(** The rank event of [handlePositionAndAnimation], as a function of what
    the method reads. *)
Lemma handlePosition_event (index newPosition : Z) (refresh : bool) (p : Panel) :
  (handlePositionAndAnimation index newPosition refresh p).2 =
  if (PrevPosition (controller p) <? 0) || refresh then None
  else if previousRank p <=? 0 then None
  else if rank (teamData p) <? previousRank p then Some up
  else if previousRank p <? rank (teamData p) then Some down
  else None.
Proof.
  unfold handlePositionAndAnimation.
  destruct (PrevPosition (controller p) <? 0) eqn:E1, refresh; simpl; try done.
  rewrite !Z.gtb_ltb.
  destruct (0 <? previousRank p) eqn:E2; simpl.
  - assert ((previousRank p <=? 0) = false) as -> by lia.
    destruct (previousRank p =? rank (teamData p)) eqn:E3; simpl.
    + apply Z.eqb_eq in E3. rewrite E3, Z.ltb_irrefl. done.
    + apply Z.eqb_neq in E3.
      destruct (rank (teamData p) <? previousRank p) eqn:E4; simpl; [done|].
      assert ((previousRank p <? rank (teamData p)) = true) as -> by lia. done.
  - assert ((previousRank p <=? 0) = true) as -> by lia. done.
Qed.

(** [handleElimination] on a panel that is in the match whenever every
    player is out, which is how [updatePanel] calls it. *)
Lemma handleElimination_result (allOut : bool) (p : Panel) :
  (allOut = true → inMatch p = true) →
  (handleElimination allOut p).2 = allOut && negb (latched p) ∧
  latched (handleElimination allOut p).1 = allOut.
Proof.
  intros H. unfold handleElimination.
  destruct allOut; simpl.
  - rewrite H by done. simpl. by destruct (latched p).
  - rewrite andb_false_r. done.
Qed.

Lemma allNotAlive_nonempty (players : list Player2Data) :
  allNotAlive players = true → negb (Nat.eqb (length players) 0) = true.
Proof. by destruct players. Qed.

Lemma allNotAlive_forallb (players : list Player2Data) :
  allNotAlive players = true ↔ players ≠ [] ∧ forallb notAlive players = true.
Proof.
  destruct players as [|x l]; simpl.
  - split; [done | by intros []].
  - split; [intros H; by split | by intros [_ H]].
Qed.

(** The return value of [updatePanel] and the latch it leaves behind. *)
Lemma updatePanel_result (team matchTeam : Team2Data)
    (playersMap : gmap string (list Player2Data))
    (index : Z) (refresh : bool) (p : Panel) :
  let r := updatePanel team matchTeam playersMap index refresh p in
  justEliminated r =
    allNotAlive (rosterOf team playersMap) && negb (latched p) ∧
  latched (panelAfter r) = allNotAlive (rosterOf team playersMap).
Proof.
  unfold LiveTeamPanel.updatePanel.
  set (players := rosterOf team playersMap).
  set (p1 := mkPanel _ _ _ _ _ _ _).
  pose proof (handlePosition_frame index ((index - 1) * panel_height) refresh p1)
    as (Hl & Hm & _ & _).
  destruct (handlePositionAndAnimation _ _ _ p1) as [p2 ev]. simpl in Hl, Hm.
  pose proof (handleElimination_result (allNotAlive players) p2) as He.
  destruct (handleElimination _ p2) as [p3 just]. simpl in *.
  rewrite Hl in He. apply He. intros Hall. rewrite Hm.
  by apply allNotAlive_nonempty.
Qed.

(** The rank event of [updatePanel]: the comparison is between the rank
    kept from the previous call and the rank of the record passed in. *)
Lemma updatePanel_event (team matchTeam : Team2Data)
    (playersMap : gmap string (list Player2Data))
    (index : Z) (refresh : bool) (p : Panel) :
  let r := updatePanel team matchTeam playersMap index refresh p in
  rankChange r =
    (if (PrevPosition (controller p) <? 0) || refresh then None
     else if previousRank p <=? 0 then None
     else if rank team <? previousRank p then Some up
     else if previousRank p <? rank team then Some down
     else None) ∧
  previousRank (panelAfter r) = rank team.
Proof.
  unfold LiveTeamPanel.updatePanel.
  set (players := rosterOf team playersMap).
  set (p1 := mkPanel _ _ _ _ _ _ _).
  pose proof (handlePosition_event index ((index - 1) * panel_height) refresh p1)
    as Hev.
  pose proof (handlePosition_frame index ((index - 1) * panel_height) refresh p1)
    as (_ & _ & _ & Hr).
  destruct (handlePositionAndAnimation _ _ _ p1) as [p2 ev]. simpl in Hev, Hr.
  assert (previousRank (handleElimination (allNotAlive players) p2).1
          = previousRank p2) as Hk.
  { unfold handleElimination.
    repeat match goal with
           | |- context [if ?b then _ else _] => destruct b; simpl
           end; done. }
  destruct (handleElimination _ p2) as [p3 just]. simpl in *.
  by rewrite Hk, Hr, Hev.
Qed.

(** When a player of the roster counts as alive, [handleElimination]
    restores the style of a live team. *)
Lemma updatePanel_style_alive (team matchTeam : Team2Data)
    (playersMap : gmap string (list Player2Data))
    (index : Z) (refresh : bool) (p : Panel) :
  allNotAlive (rosterOf team playersMap) = false →
  let e := element (panelAfter
                      (updatePanel team matchTeam playersMap index refresh p)) in
  opacity e = "1.0" ∧ "eliminated" ∉ classList e.
Proof.
  intros Hall. unfold LiveTeamPanel.updatePanel. rewrite Hall.
  destruct (handlePositionAndAnimation _ _ _ _) as [p2 ev].
  unfold handleElimination. rewrite andb_false_r. simpl. split; [done|].
  unfold classRemove. rewrite list_elem_of_filter. by intros [? _].
Qed.

End PanelFacts.

Section PanelClaims.

Import LiveTeamPanel.

Variable panel_height : Z.

Local Abbreviation updatePanel := (updatePanel panel_height).

(** C6.  [updatePanel] returns [justEliminated = true] at most once per
    elimination.  Called for a panel that is not yet latched with a
    roster that is not empty and has no player alive, it returns [true],
    and the next call with the same roster returns [false]; it returns
    [false] whenever the team has no players in the current match, and
    whenever the panel is already latched. *)
Theorem justEliminated_once_per_elimination :
  (∀ team matchTeam playersMap index refresh p,
     rosterOf team playersMap ≠ [] →
     forallb notAlive (rosterOf team playersMap) = true →
     latched p = false →
     justEliminated (updatePanel team matchTeam playersMap index refresh p)
       = true ∧
     ∀ team' matchTeam' index' refresh',
       name team' = name team →
       justEliminated
         (updatePanel team' matchTeam' playersMap index' refresh'
            (panelAfter
               (updatePanel team matchTeam playersMap index refresh p)))
       = false) ∧
  (∀ team matchTeam playersMap index refresh p,
     rosterOf team playersMap = [] →
     justEliminated (updatePanel team matchTeam playersMap index refresh p)
       = false) ∧
  (∀ team matchTeam playersMap index refresh p,
     latched p = true →
     justEliminated (updatePanel team matchTeam playersMap index refresh p)
       = false).
Proof.
  split_and!.
  - intros team matchTeam playersMap index refresh p Hne Hall Hl.
    assert (allNotAlive (rosterOf team playersMap) = true) as Hout
      by by apply allNotAlive_forallb.
    destruct (updatePanel_result panel_height team matchTeam playersMap
                index refresh p) as [Hj Hlatch].
    split.
    + by rewrite Hj, Hout, Hl.
    + intros team' matchTeam' index' refresh' Hname.
      destruct (updatePanel_result panel_height team' matchTeam' playersMap
                  index' refresh'
                  (panelAfter (updatePanel team matchTeam playersMap index
                                 refresh p))) as [Hj' _].
      rewrite Hj', Hlatch, Hout. apply andb_false_r.
  - intros team matchTeam playersMap index refresh p Hempty.
    destruct (updatePanel_result panel_height team matchTeam playersMap
                index refresh p) as [Hj _].
    by rewrite Hj, Hempty.
  - intros team matchTeam playersMap index refresh p Hl.
    destruct (updatePanel_result panel_height team matchTeam playersMap
                index refresh p) as [Hj _].
    rewrite Hj, Hl. apply andb_false_r.
Qed.


(** C10.  The latch is not permanent.  A call of [updatePanel] with a
    roster in which some player counts as alive returns [false], clears
    the latch (also on a panel that was latched) and restores the style of
    a live team: opacity 1.0 and no [eliminated] class.  The next call of
    the panel with a non-empty roster in which nobody is alive returns
    [justEliminated = true] again. *)
Theorem latch_is_reset_by_a_live_player
    (team matchTeam : Team2Data) (playersMap : gmap string (list Player2Data))
    (index : Z) (refresh : bool) (p : Panel) (player : Player2Data) :
  player ∈ rosterOf team playersMap →
  notAlive player = false →
  let r := updatePanel team matchTeam playersMap index refresh p in
  justEliminated r = false ∧
  latched (panelAfter r) = false ∧
  opacity (element (panelAfter r)) = "1.0" ∧
  ("eliminated" ∉ classList (element (panelAfter r))) ∧
  (∀ team' matchTeam' playersMap' index' refresh',
     rosterOf team' playersMap' ≠ [] →
     forallb notAlive (rosterOf team' playersMap') = true →
     justEliminated
       (updatePanel team' matchTeam' playersMap' index' refresh' (panelAfter r))
     = true).
Proof.
  intros Hin Halive r.
  assert (allNotAlive (rosterOf team playersMap) = false) as Hout.
  { destruct (allNotAlive _) eqn:E; [|done].
    apply allNotAlive_forallb in E as [_ E].
    rewrite forallb_forall in E. apply list_elem_of_In, E in Hin. congruence. }
  destruct (updatePanel_result panel_height team matchTeam playersMap index
              refresh p) as [Hj Hlatch].
  destruct (updatePanel_style_alive panel_height team matchTeam playersMap
              index refresh p Hout) as [Hop Hcls].
  fold r in Hj, Hlatch, Hop, Hcls.
  split_and!; try done.
  - by rewrite Hj, Hout.
  - by rewrite Hlatch.
  - intros team' matchTeam' playersMap' index' refresh' Hne Hall.
    destruct (updatePanel_result panel_height team' matchTeam' playersMap'
                index' refresh' (panelAfter r)) as [Hj' _].
    rewrite Hj', Hlatch, Hout.
    assert (allNotAlive (rosterOf team' playersMap') = true) as ->
      by by apply allNotAlive_forallb.
    done.
Qed.

End PanelClaims.

(** ** Panels on concrete rosters *)

Section PanelRuns.

Import LiveTeamPanel.

Lemma justEliminated_once_witness :
  let first := updatePanel 32 (alpha 4) (alpha 4) squadDown 4 false (placed 4) in
  justEliminated first = true ∧
  justEliminated (updatePanel 32 (alpha 4) (alpha 4) squadDown 4 false
                    (panelAfter first)) = false ∧
  justEliminated (updatePanel 32 (alpha 4) (alpha 4) ∅ 4 false (placed 4))
    = false ∧
  justEliminated (updatePanel 32 (alpha 2) (alpha 2) squadDown 2 true
                    (panelAfter first)) = false.
Proof.
  destruct (justEliminated_once_per_elimination 32) as (Hfirst & Hempty & Hlatched).
  destruct (Hfirst (alpha 4) (alpha 4) squadDown 4 false (placed 4))
    as [Htrue Hthen].
  { vm_compute. discriminate. }
  { vm_compute. reflexivity. }
  { vm_compute. reflexivity. }
  split_and!.
  - exact Htrue.
  - apply Hthen. reflexivity.
  - apply Hempty. vm_compute. reflexivity.
  - apply Hlatched. vm_compute. reflexivity.
Defined.


Lemma latch_reset_witness :
  let out := panelAfter (updatePanel 32 (alpha 4) (alpha 4) squadDown 4 false
                           (placed 4)) in
  let back := updatePanel 32 (alpha 4) (alpha 4) squadRevived 4 false out in
  latched out = true ∧
  justEliminated back = false ∧
  latched (panelAfter back) = false ∧
  justEliminated (updatePanel 32 (alpha 4) (alpha 4) squadDown 4 false
                    (panelAfter back)) = true.
Proof.
  destruct (latch_is_reset_by_a_live_player 32 (alpha 4) (alpha 4) squadRevived
              4 false
              (panelAfter (updatePanel 32 (alpha 4) (alpha 4) squadDown 4 false
                             (placed 4)))
              (playerOf "a1" "Alpha" 1 "alive"))
    as (Hfalse & Hreset & _ & _ & Hagain).
  { vm_compute. apply list_elem_of_here. }
  { vm_compute. reflexivity. }
  split_and!.
  - vm_compute. reflexivity.
  - exact Hfalse.
  - exact Hreset.
  - apply Hagain; vm_compute; [discriminate | reflexivity].
Defined.

End PanelRuns.


(* ===================================================================== *)
(** * Properties of a reconciliation pass *)
(* ===================================================================== *)

Section SortFacts.

Import LiveTeamPanel LiveStanding.






End SortFacts.

Section PassFacts.

Import LiveTeamPanel LiveStanding.

Variable panel_height : Z.
Variable matchTeamMap : gmap string Team2Data.
Variable playersMap : gmap string (list Player2Data).

Local Abbreviation visit := (visit panel_height matchTeamMap playersMap).
Local Abbreviation justEliminatedInPass :=
  (justEliminatedInPass panel_height matchTeamMap playersMap).

Lemma visit_skip (st : pass) (team : Team2Data) :
  matchTeamMap !! name team = None → visit st team = st.
Proof. intros H. unfold LiveStanding.visit. by rewrite H. Qed.

(** One iteration for a team of the current match. *)
Lemma visit_step (st : pass) (team matchTeam : Team2Data) :
  matchTeamMap !! name team = Some matchTeam →
  let r := updatePanel panel_height team matchTeam playersMap
             (currentIndex st) false
             (panelFor panel_height (totalTeamIndexMap st) team
                (currentIndex st)) in
  totalTeamIndexMap (visit st team) =
    <[name team := panelAfter r]> (totalTeamIndexMap st) ∧
  currentIndex (visit st team) = currentIndex st + 1 ∧
  matchEnded (visit st team) =
    matchEnded st || (justEliminated r && (placement_rank matchTeam =? 2)) ∧
  eliminatedTeams (visit st team) =
    eliminatedTeams st ++
    (if justEliminated r && negb (matchEnded st) then [matchTeam] else []).
Proof.
  intros H r. unfold LiveStanding.visit. rewrite H. fold r.
  destruct (justEliminated r), (matchEnded st),
    (placement_rank matchTeam =? 2); simpl; by rewrite ?app_nil_r.
Qed.


End PassFacts.

Section PassClaims.

Import LiveTeamPanel LiveStanding.

Variable panel_height : Z.


End PassClaims.

(** ** A pass on concrete snapshots *)

Section PassRuns.

Import LiveTeamPanel LiveStanding.


End PassRuns.


(* ===================================================================== *)
(** * Further properties of the match-state manager *)
(* ===================================================================== *)

Section MatchStateOpsFacts.

Import MatchStateManager MatchStateOps.

Lemma perform_matchId (os : list operation) (s : MatchState) :
  matchId (perform os s) = tracked (matchId s) os.
Proof.
  revert s. induction os as [|o os IH]; intros s; [done|].
  unfold perform in *. simpl. rewrite IH. by destruct o.
Qed.

(** X1.  Over any sequence of calls of the four public methods,
    [shouldRefresh] answers from the id of the last [updateState] that no
    [clear] has followed: [false] when there is none, and otherwise whether
    the argument differs from it.  [clear] puts the manager back where a
    new one starts, and [getCurrentState] and [shouldRefresh] change
    nothing. *)
Theorem shouldRefresh_after_any_operations
    (os : list operation) (newId : list byte) :
  shouldRefresh newId (perform os initial) =
    match tracked None os with
    | None => false
    | Some stored => bool_decide (stored ≠ newId)
    end ∧
  perform (os ++ [Forget]) initial = initial ∧
  perform (os ++ [Read]) initial = perform os initial ∧
  perform (os ++ [Ask newId]) initial = perform os initial.
Proof.
  split_and!.
  - by rewrite shouldRefresh_answer, perform_matchId.
  - unfold perform. by rewrite foldl_app.
  - unfold perform. by rewrite foldl_app.
  - unfold perform. by rewrite foldl_app.
Qed.

Lemma string_length_append (s1 s2 : string) :
  String.length (String.append s1 s2)
  = (String.length s1 + String.length s2)%nat.
Proof. induction s1 as [|c s1 IH]; simpl; [done | by rewrite IH]. Qed.

Lemma fromHexPair_toString16 (b : byte) :
  fromHexPair (padStart 2 "0" (toString16 b)) = Some b.
Proof. destruct b; vm_compute; reflexivity. Qed.

Lemma padded_shape (b : byte) :
  ∃ hi lo, padStart 2 "0" (toString16 b) = String hi (String lo EmptyString) ∧
           hi ≠ "-"%char ∧ lo ≠ "-"%char.
Proof.
  destruct b; vm_compute; eexists _, _; (split; [reflexivity|]);
    split; discriminate.
Qed.

(** X2.  [matchIdToString] writes two lower-case hexadecimal digits per
    byte, joined by dashes, so that match ids that differ are never shown
    as the same string, and an id of [n > 0] bytes takes [3n - 1]
    characters. *)
Theorem matchIdToString_injective (id1 id2 : list byte) :
  (matchIdToString id1 = matchIdToString id2 → id1 = id2) ∧
  String.length (matchIdToString id1) = (3 * length id1 - 1)%nat.
Proof.
  unfold matchIdToString. split.
  - revert id2. induction id1 as [|x xs IH]; intros [|y ys]; simpl.
    + done.
    + destruct (padded_shape y) as (hi & lo & -> & _ & _).
      destruct ys; simpl; discriminate.
    + destruct (padded_shape x) as (hi & lo & -> & _ & _).
      destruct xs; simpl; discriminate.
    + pose proof (fromHexPair_toString16 x) as Hx.
      pose proof (fromHexPair_toString16 y) as Hy.
      destruct (padded_shape x) as (h1 & l1 & Ex & Hh1 & Hl1).
      destruct (padded_shape y) as (h2 & l2 & Ey & Hh2 & Hl2).
      rewrite Ex, Ey in *.
      destruct xs as [|x' xs], ys as [|y' ys]; simpl.
      * intros [= -> ->]. rewrite Hx in Hy. by injection Hy as ->.
      * destruct (padded_shape y') as (h3 & l3 & -> & _ & _).
        destruct ys; simpl; discriminate.
      * destruct (padded_shape x') as (h3 & l3 & -> & _ & _).
        destruct xs; simpl; discriminate.
      * intros [= -> -> Hrest]. rewrite Hx in Hy. injection Hy as ->.
        f_equal. by apply IH.
  - destruct id1 as [|x xs]; [done|].
    enough (String.length
              (String.concat "-"
                 (map (λ b, padStart 2 "0" (toString16 b)) (x :: xs)))
            = (3 * length xs + 2)%nat) as -> by (simpl; lia).
    revert x. induction xs as [|x' xs IH]; intros x.
    + destruct (padded_shape x) as (hi & lo & Ex & _ & _). simpl. by rewrite Ex.
    + change (String.length
                (String.append (padStart 2 "0" (toString16 x))
                   (String.append "-"
                      (String.concat "-"
                         (map (λ b, padStart 2 "0" (toString16 b)) (x' :: xs)))))
              = (3 * length (x' :: xs) + 2)%nat).
      destruct (padded_shape x) as (hi & lo & -> & _ & _).
      rewrite !string_length_append, IH. simpl. lia.
Qed.

End MatchStateOpsFacts.


(* ===================================================================== *)
(** * Further properties of the message dispatcher *)
(* ===================================================================== *)

Section DispatcherTraceFacts.

Import MessageDispatcher DispatcherTrace.

Context {ObserverMessage2 : Type}.
Variable parseFromJson : string → option ObserverMessage2.

Local Abbreviation Dispatcher := (@Dispatcher ObserverMessage2).
Local Abbreviation onTimerExpired := (onTimerExpired parseFromJson).
Local Abbreviation timerFires := (timerFires parseFromJson).
Local Abbreviation runEvents := (runEvents parseFromJson).
Local Abbreviation step := (step parseFromJson).
Local Abbreviation callsFor := (callsFor parseFromJson).
Local Abbreviation deliveryOf := (deliveryOf parseFromJson).

(** The invocations of one tick are deliveries of the entry it chose. *)
Lemma callsFor_delivery (now : Z) (m : EventQueueData) (d : Dispatcher) :
  callsFor now m d = [] ∨
  ∃ c, callsFor now m d = [c] ∧ deliveryOf c m.
Proof.
  unfold MessageDispatcher.callsFor.
  destruct (parseFromJson (data m)) as [msg|] eqn:E; [|by left].
  destruct (onUpdate d); [|by left].
  right. eexists. split; [done|]. by split.
Qed.

Lemma chosen_sublist (first : EventQueueData) (rest tail : list EventQueueData) :
  (chosen first rest :: drop 1 rest ++ tail) `sublist_of` (first :: rest ++ tail).
Proof.
  destruct rest as [|second rest]; simpl; [done|].
  by apply sublist_cons.
Qed.

(** One step of a run: what it adds to the log is delivered from a
    sublist of the queue before it, the queue after it, and the entry it
    enqueues, if any. *)
Lemma step_delivers (d : Dispatcher) (e : event) (tail : list EventQueueData) :
  ∃ new l,
    delivered (step d e) = delivered d ++ new ∧
    Forall2 deliveryOf new l ∧
    (l ++ eventQueue (step d e) ++ tail)
      `sublist_of` (eventQueue d ++ enqueuedIn [e] ++ tail).
Proof.
  assert (∃ new l,
            delivered d = delivered d ++ new ∧ Forall2 deliveryOf new l ∧
            (l ++ eventQueue d ++ tail) `sublist_of` (eventQueue d ++ tail))
    as Hsame.
  { exists [], []. by rewrite app_nil_r. }
  destruct e as [now| |m| |now now']; simpl.
  - unfold start. by destruct (intervalTimer d).
  - unfold stop. by destruct (intervalTimer d).
  - exists [], []. rewrite app_nil_r. split_and!; [done|constructor|].
    simpl. by rewrite <-app_assoc.
  - exists [], []. rewrite app_nil_r. split_and!; [done|constructor|].
    simpl. by apply sublist_inserts_l.
  - unfold MessageDispatcher.timerFires. destruct (intervalTimer d); [|done].
    destruct (decide (now - latestProcessTime d < intervalMs)) as [Hl|Hl].
    { rewrite onTimerExpired_idle by auto. done. }
    destruct (eventQueue d) as [|first rest] eqn:Hq.
    { rewrite onTimerExpired_idle by auto. by rewrite Hq. }
    rewrite (onTimerExpired_due parseFromJson now now' d first rest);
      [|lia|done].
    simpl.
    destruct (callsFor_delivery now (chosen first rest) d)
      as [->|(c & -> & Hc)].
    + exists [], []. rewrite app_nil_r. split_and!; [done|constructor|].
      simpl. etrans; [|apply chosen_sublist]. by apply sublist_cons.
    + exists [c], [chosen first rest].
      split_and!; [done | constructor; [exact Hc | constructor] |].
      simpl. apply chosen_sublist.
Qed.

(** X3.  Along any run, whatever the interleaving of [start], [stop],
    [enqueue], [clear] and timer ticks, the callback invocations that the
    run adds are deliveries, in arrival order, of some of the entries that
    were in the queue at the start or were enqueued during the run: an
    entry is handed over at most once, nothing is handed over that was
    not enqueued, and no entry overtakes an earlier one. *)
Theorem deliveries_follow_arrival_order (es : list event) (d : Dispatcher) :
  ∃ new l,
    delivered (runEvents es d) = delivered d ++ new ∧
    Forall2 deliveryOf new l ∧
    l `sublist_of` (eventQueue d ++ enqueuedIn es).
Proof.
  enough (∃ new l,
            delivered (runEvents es d) = delivered d ++ new ∧
            Forall2 deliveryOf new l ∧
            (l ++ eventQueue (runEvents es d))
              `sublist_of` (eventQueue d ++ enqueuedIn es))
    as (new & l & H1 & H2 & H3).
  { exists new, l. split_and!; [done..|].
    etrans; [|exact H3]. by apply sublist_inserts_r. }
  revert d. induction es as [|e es IH]; intros d.
  { exists [], []. simpl. by rewrite !app_nil_r. }
  unfold MessageDispatcher.runEvents in *. cbn [foldl].
  destruct (IH (step d e)) as (new2 & l2 & Hlog2 & Hdel2 & Hsub2).
  destruct (step_delivers d e (enqueuedIn es)) as (new1 & l1 & Hlog1 & Hdel1 & Hsub1).
  exists (new1 ++ new2), (l1 ++ l2). split_and!.
  - by rewrite Hlog2, Hlog1, app_assoc.
  - by apply Forall2_app.
  - assert (enqueuedIn (e :: es) = enqueuedIn [e] ++ enqueuedIn es) as ->.
    { unfold enqueuedIn. simpl. by destruct e. }
    etrans; [|exact Hsub1]. rewrite <-app_assoc.
    by apply sublist_app.
Qed.

Lemma step_without_callback (d : Dispatcher) (e : event) :
  onUpdate d = false →
  onUpdate (step d e) = false ∧ delivered (step d e) = delivered d.
Proof.
  intros H. destruct e as [now| |m| |now now']; simpl.
  - unfold start. by destruct (intervalTimer d).
  - unfold stop. by destruct (intervalTimer d).
  - done.
  - done.
  - unfold MessageDispatcher.timerFires, MessageDispatcher.onTimerExpired.
    destruct (intervalTimer d); [|done].
    destruct (_ <? _); [done|].
    destruct (eventQueue d) as [|first rest]; [done|].
    destruct (dequeue first rest) as [m q]. simpl. split; [done|].
    unfold process. rewrite H. by destruct (parseFromJson _).
Qed.

(** X4.  A dispatcher made without a callback never delivers: along any
    run its log stays as it is, while its due ticks go on taking entries
    off the queue, which are lost.  Once [setOnUpdate] has registered a
    callback, a due tick whose entry decodes invokes it. *)
Theorem no_callback_no_delivery :
  (∀ (es : list event) (d : Dispatcher),
     onUpdate d = false → delivered (runEvents es d) = delivered d) ∧
  (∀ now now' (d : Dispatcher) first rest,
     onUpdate d = false →
     intervalMs ≤ now - latestProcessTime d →
     eventQueue d = first :: rest →
     eventQueue (onTimerExpired now now' d) = drop 1 rest ∧
     delivered (onTimerExpired now now' d) = delivered d) ∧
  (∀ now now' (d : Dispatcher) first rest observerMessage,
     intervalMs ≤ now - latestProcessTime d →
     eventQueue d = first :: rest →
     parseFromJson (data (chosen first rest)) = Some observerMessage →
     delivered (onTimerExpired now now' (setOnUpdate d)) =
       delivered d ++
       [mkCall now observerMessage (reconnecting (chosen first rest))]).
Proof.
  split_and!.
  - intros es. induction es as [|e es IH]; intros d H; [done|].
    unfold MessageDispatcher.runEvents in *. simpl.
    destruct (step_without_callback d e H) as [H1 H2].
    by rewrite IH, H2.
  - intros now now' d first rest H Hdue Hq.
    rewrite (onTimerExpired_due parseFromJson now now' d first rest) by done.
    simpl. unfold MessageDispatcher.callsFor. rewrite H.
    split; [done|]. destruct (parseFromJson _); by rewrite app_nil_r.
  - intros now now' d first rest msg Hdue Hq Hparse.
    rewrite (onTimerExpired_due parseFromJson now now' (setOnUpdate d)
               first rest) by done.
    simpl. unfold MessageDispatcher.callsFor. by rewrite Hparse.
Qed.

(** X5.  [start] on a running dispatcher is ignored and does not touch
    the pacing clock.  [start] on a stopped one begins a new pacing
    interval at the time of the call: whatever is waiting in the queue, no
    tick within 1500 ms of the call delivers, and the first tick after
    that does take an entry if there is one. *)
Theorem start_begins_a_pacing_interval (t : Z) (d : Dispatcher) :
  (intervalTimer d = true → start t d = d) ∧
  (intervalTimer d = false →
     latestProcessTime (start t d) = t ∧
     eventQueue (start t d) = eventQueue d ∧
     (∀ now now', now - t < intervalMs →
        timerFires now now' (start t d) = start t d) ∧
     (∀ now now' first rest,
        intervalMs ≤ now - t → eventQueue d = first :: rest →
        eventQueue (timerFires now now' (start t d)) = drop 1 rest)).
Proof.
  split.
  - intros H. unfold start. by rewrite H.
  - intros H. unfold start. rewrite H. simpl. split_and!; try done.
    + intros now now' Hnow. unfold MessageDispatcher.timerFires. simpl.
      by apply onTimerExpired_idle; left.
    + intros now now' first rest Hnow Hq.
      unfold MessageDispatcher.timerFires. simpl.
      by rewrite (onTimerExpired_due parseFromJson now now' _ first rest).
Qed.

End DispatcherTraceFacts.

Section DispatcherTraceRuns.

Import MessageDispatcher DispatcherTrace.

Lemma no_callback_witness :
  let d := enqueue snapshotB (enqueue snapshotA (start 0 (create false 0))) in
  delivered (runEvents sampleDecoder [Timer 1500 1500; Timer 3000 3000] d) = [] ∧
  eventQueue (onTimerExpired sampleDecoder 1500 1500 d) = [] ∧
  delivered (onTimerExpired sampleDecoder 1500 1500 (setOnUpdate d)) =
    [mkCall 1500 "snapshot B" true].
Proof.
  destruct (no_callback_no_delivery sampleDecoder) as (Hrun & Htick & Hset).
  intros d. split_and!.
  - rewrite (Hrun [Timer 1500 1500; Timer 3000 3000] d); reflexivity.
  - destruct (Htick 1500 1500 d snapshotA [snapshotB]) as [Hq _];
      [reflexivity | vm_compute; discriminate | reflexivity | exact Hq].
  - rewrite (Hset 1500 1500 d snapshotA [snapshotB] "snapshot B");
      [reflexivity | vm_compute; discriminate | reflexivity | reflexivity].
Defined.

Lemma start_witness :
  let running := enqueue snapshotA started in
  let stopped := stop running in
  start 900 running = running ∧
  latestProcessTime (start 900 stopped) = 900 ∧
  timerFires sampleDecoder 2300 2300 (start 900 stopped) = start 900 stopped ∧
  eventQueue (timerFires sampleDecoder 2400 2400 (start 900 stopped)) = [].
Proof.
  destruct (start_begins_a_pacing_interval sampleDecoder 900
              (enqueue snapshotA started)) as [Hrun _].
  destruct (start_begins_a_pacing_interval sampleDecoder 900
              (stop (enqueue snapshotA started))) as [_ Hstop].
  destruct Hstop as (Ht & _ & Hquiet & Hfirst); [reflexivity|].
  split_and!.
  - apply Hrun. reflexivity.
  - exact Ht.
  - apply Hquiet. vm_compute. reflexivity.
  - apply (Hfirst 2400 2400 snapshotA []); [|reflexivity].
    vm_compute. discriminate.
Defined.

End DispatcherTraceRuns.


(* ===================================================================== *)
(** * Properties of the test runner *)
(* ===================================================================== *)

Section TestRunnerFacts.

Import MessageDispatcher TestRunner.

Context {ObserverMessage2 : Type}.
Variable parseFromJson : string → option ObserverMessage2.
Variable blank : string → bool.

Local Abbreviation Runner := (@Runner ObserverMessage2).
Local Abbreviation start := (@start ObserverMessage2 blank).

Lemma splitLines_nonempty (s : string) : splitLines s ≠ [].
Proof.
  induction s as [|c s IH]; simpl; [done|].
  destruct (Ascii.eqb c LF); [done|]. by destruct (splitLines s).
Qed.

(** Joining the pieces with line feeds gives the string back. *)
Lemma splitLines_join (s : string) :
  String.concat (String LF EmptyString) (splitLines s) = s.
Proof.
  induction s as [|c s IH]; [done|]. simpl.
  destruct (Ascii.eqb c LF) eqn:E.
  - apply Ascii.eqb_eq in E as ->.
    pose proof (splitLines_nonempty s).
    destruct (splitLines s) as [|l ls] eqn:El; [done|].
    simpl in *. by rewrite IH.
  - pose proof (splitLines_nonempty s).
    destruct (splitLines s) as [|l ls] eqn:El; [done|].
    simpl in *. destruct ls; simpl in *; by rewrite <-IH.
Qed.

Lemma splitLines_no_LF (s line : string) :
  line ∈ splitLines s → LF ∉ String.list_ascii_of_string line.
Proof.
  revert line. induction s as [|c s IH]; intros line; simpl.
  - intros ->%list_elem_of_singleton. simpl. apply not_elem_of_nil.
  - destruct (Ascii.eqb c LF) eqn:E.
    + intros [->|Hin]%elem_of_cons; [apply not_elem_of_nil | by apply IH].
    + apply Ascii.eqb_neq in E.
      pose proof (splitLines_nonempty s) as Hne.
      destruct (splitLines s) as [|l ls] eqn:El; [done|].
      intros [->|Hin]%elem_of_cons.
      * simpl. intros [Heq|Hin]%elem_of_cons; [done|].
        by eapply (IH l); [left|].
      * apply IH. by right.
Qed.

(** X6.  [start] on a runner that is not running loads the file: the
    lines it keeps are, in file order, the pieces between line feeds that
    are not blank; none of them contains a line feed; and it starts the
    dispatcher and the feeding interval at line 0.  On a runner that is
    running it changes nothing, and when the file cannot be read it throws
    before it has changed anything. *)
Theorem start_loads_nonblank_lines (content : string) (now : Z) (r : Runner) :
  (isRunning r = true → ∀ file, start file now r = Some r) ∧
  (isRunning r = false →
     start None now r = None ∧
     ∃ r', start (Some content) now r = Some r' ∧
       testDataLines r' =
         filter (λ line, blank line = false) (splitLines content) ∧
       testDataLines r' `sublist_of` splitLines content ∧
       Forall (λ line, blank line = false ∧
                       LF ∉ String.list_ascii_of_string line) (testDataLines r') ∧
       isRunning r' = true ∧ testThread r' = true ∧
       currentLineIndex r' = O ∧
       intervalTimer (dispatcher r') = true ∧
       eventQueue (dispatcher r') = eventQueue (dispatcher r)).
Proof.
  split.
  - intros H file. unfold TestRunner.start. by rewrite H.
  - intros H. unfold TestRunner.start. rewrite H. split; [done|].
    assert (intervalTimer (MessageDispatcher.start now (dispatcher r)) = true ∧
            eventQueue (MessageDispatcher.start now (dispatcher r))
            = eventQueue (dispatcher r)) as [Hon Hq].
    { unfold MessageDispatcher.start.
      by destruct (intervalTimer (dispatcher r)) eqn:E. }
    eexists. split; [reflexivity|]. simpl. split_and!; try done.
    + apply sublist_filter.
    + apply Forall_forall. intros line [Hb Hin]%list_elem_of_filter.
      split; [done|]. by eapply splitLines_no_LF.
Qed.

(** [k] feeding ticks in a row. *)
Lemma feed_k (k : nat) (r : Runner) :
  (currentLineIndex r + k ≤ length (testDataLines r))%nat →
  let r' := Nat.iter k feedNextLine r in
  eventQueue (dispatcher r') =
    eventQueue (dispatcher r) ++
    (mkEventQueueData false
       <$> take k (drop (currentLineIndex r) (testDataLines r))) ∧
  currentLineIndex r' = (currentLineIndex r + k)%nat ∧
  testDataLines r' = testDataLines r ∧
  isRunning r' = isRunning r ∧
  testThread r' = testThread r ∧
  delivered (dispatcher r') = delivered (dispatcher r) ∧
  intervalTimer (dispatcher r') = intervalTimer (dispatcher r).
Proof.
  induction k as [|k IH]; intros Hk; simpl.
  { rewrite ?take_0; simpl; rewrite ?app_nil_r.
    split_and!; [done|lia|done..]. }
  destruct IH as (Hq & Hi & Hl & Hr & Ht & Hd & Hti); [lia|].
  set (r1 := Nat.iter k feedNextLine r) in *.
  unfold feedNextLine. rewrite Hl, Hi.
  destruct (length (testDataLines r) <=? currentLineIndex r + k)%nat eqn:E;
    [apply Nat.leb_le in E; lia|].
  destruct (lookup_lt_is_Some_2 (testDataLines r) (currentLineIndex r + k)%nat)
    as [line Hline]; [lia|].
  rewrite Hline. simpl. rewrite Hq.
  split_and!; [|lia|done..].
  rewrite <-app_assoc. f_equal.
  rewrite (take_S_r _ _ line); [by rewrite fmap_app|].
  by rewrite lookup_drop.
Qed.

(** X7.  While lines are left, each feeding tick enqueues the next line
    of the file, with [reconnecting = false], and moves on by one: after
    [k] ticks the dispatcher's queue has grown by the next [k] lines in
    file order, and nothing else about the dispatcher has changed. *)
Theorem feeding_enqueues_lines_in_order (k : nat) (r : Runner) :
  (currentLineIndex r + k ≤ length (testDataLines r))%nat →
  eventQueue (dispatcher (Nat.iter k feedNextLine r)) =
    eventQueue (dispatcher r) ++
    (mkEventQueueData false
       <$> take k (drop (currentLineIndex r) (testDataLines r))) ∧
  currentLineIndex (Nat.iter k feedNextLine r) = (currentLineIndex r + k)%nat ∧
  delivered (dispatcher (Nat.iter k feedNextLine r)) = delivered (dispatcher r) ∧
  intervalTimer (dispatcher (Nat.iter k feedNextLine r))
    = intervalTimer (dispatcher r).
Proof.
  intros Hk. destruct (feed_k k r Hk) as (Hq & Hi & _ & _ & _ & Hd & Ht).
  done.
Qed.

(** X8.  The feeding tick that finds no line left stops the runner, and
    [stop] on a running runner stops the dispatcher and empties its queue:
    entries not yet delivered are dropped, the position goes back to line
    0, and afterwards neither a feeding tick nor a dispatcher tick does
    anything.  [stop] on a runner that is not running leaves the runner
    and its dispatcher untouched. *)
Theorem stop_clears_the_dispatcher (r : Runner) :
  (isRunning r = false → stop r = r) ∧
  (isRunning r = true →
     ((length (testDataLines r) ≤ currentLineIndex r)%nat →
        feedNextLine r = stop r) ∧
     eventQueue (dispatcher (stop r)) = [] ∧
     intervalTimer (dispatcher (stop r)) = false ∧
     delivered (dispatcher (stop r)) = delivered (dispatcher r) ∧
     isRunning (stop r) = false ∧
     currentLineIndex (stop r) = O ∧
     testDataLines (stop r) = testDataLines r ∧
     feedTimerFires (stop r) = stop r ∧
     (∀ now now',
        timerFires parseFromJson now now' (dispatcher (stop r))
        = dispatcher (stop r))).
Proof.
  split.
  - intros H. unfold stop. by rewrite H.
  - intros H. split.
    + intros Hend. unfold feedNextLine.
      by destruct (Nat.leb_spec (length (testDataLines r)) (currentLineIndex r));
        [|lia].
    + unfold stop. rewrite H. simpl.
      assert (intervalTimer (MessageDispatcher.stop (dispatcher r)) = false)
        as Hoff.
      { unfold MessageDispatcher.stop.
        by destruct (intervalTimer (dispatcher r)) eqn:E. }
      split_and!; try done.
      * unfold MessageDispatcher.stop.
        by destruct (intervalTimer (dispatcher r)).
      * intros now now'. unfold MessageDispatcher.timerFires. simpl.
        by rewrite Hoff.
Qed.

End TestRunnerFacts.

Section TestRunnerRuns.

Import MessageDispatcher TestRunner.

Lemma start_loads_witness :
  testDataLines playing = ["line one"; "line two"; "line three"] ∧
  start sampleBlank (Some "other") 5 playing = Some playing ∧
  start sampleBlank None 0 idle = None.
Proof.
  destruct (start_loads_nonblank_lines sampleBlank sampleFile 0 idle) as [_ Hnew].
  destruct (start_loads_nonblank_lines sampleBlank sampleFile 5 playing)
    as [Hrun _].
  destruct Hnew as (Hthrow & r' & Hstart & Hlines & _); [reflexivity|].
  split_and!.
  - unfold playing. rewrite Hstart. simpl. rewrite Hlines. reflexivity.
  - apply Hrun. reflexivity.
  - exact Hthrow.
Defined.

Lemma feeding_witness :
  eventQueue (dispatcher (Nat.iter 2 feedNextLine playing)) =
    [mkEventQueueData false "line one"; mkEventQueueData false "line two"] ∧
  currentLineIndex (Nat.iter 2 feedNextLine playing) = 2%nat.
Proof.
  destruct (feeding_enqueues_lines_in_order 2 playing) as (Hq & Hi & _).
  { vm_compute. lia. }
  split; [rewrite Hq; reflexivity | exact Hi].
Defined.

Lemma stop_clears_witness :
  let atEnd := Nat.iter 3 feedNextLine playing in
  eventQueue (dispatcher atEnd) ≠ [] ∧
  feedNextLine atEnd = stop atEnd ∧
  eventQueue (dispatcher (feedNextLine atEnd)) = [] ∧
  stop idle =
    idle.
Proof.
  intros atEnd.
  destruct (stop_clears_the_dispatcher sampleDecoder atEnd) as [_ Hrun].
  destruct (stop_clears_the_dispatcher sampleDecoder idle) as [Hidle _].
  destruct Hrun as (Hend & Hq & _); [reflexivity|].
  split_and!.
  - vm_compute. discriminate.
  - apply Hend. vm_compute. lia.
  - rewrite Hend; [exact Hq|]. vm_compute. lia.
  - apply Hidle. reflexivity.
Defined.

End TestRunnerRuns.


(* ===================================================================== *)
(** * Further properties of the WebSocket client *)
(* ===================================================================== *)

Section WebSocketTraceFacts.

Import WebSocketClient WebSocketTrace.

(** Case analysis on the tests and optional values the goal branches on. *)
Ltac branches :=
  repeat match goal with
         | |- context [if ?b then _ else _] => destruct b eqn:?; simpl
         | |- context [match ?o with Some _ => _ | None => _ end] =>
             destruct o eqn:?; simpl
         | |- context [match ?r with OPEN => _ | _ => _ end] =>
             destruct r eqn:?; simpl
         end.

(** One data message with a payload: the callback gets the payload and
    the tag, and the tag is used up. *)
Lemma handleMessage_data (d : string) (c : Client) :
  d ≠ EmptyString →
  onMessageCallback (callbacks c) = true →
  effects (handleMessage (dataMessage d) c) =
    effects c ++ [OnMessage d (connected c && reconnecting c)] ∧
  reconnecting (handleMessage (dataMessage d) c) = false ∧
  connected (handleMessage (dataMessage d) c) = connected c ∧
  callbacks (handleMessage (dataMessage d) c) = callbacks c.
Proof.
  intros Hd Hcb. unfold handleMessage, dataMessage. simpl.
  destruct (String.eqb d EmptyString) eqn:E.
  { apply String.eqb_eq in E. done. }
  rewrite Hcb. simpl.
  destruct (reconnecting c) eqn:Hr; simpl; rewrite ?Hr; by split_and!.
Qed.

Lemma receive_untagged (ds : list string) (c : Client) :
  Forall (λ d, d ≠ EmptyString) ds →
  onMessageCallback (callbacks c) = true →
  reconnecting c = false →
  effects (receive ds c) = effects c ++ ((λ x, OnMessage x false) <$> ds) ∧
  reconnecting (receive ds c) = false.
Proof.
  revert c. induction ds as [|d ds IH]; intros c Hds Hcb Hr.
  { simpl. by rewrite app_nil_r. }
  apply Forall_cons in Hds as [Hd Hds].
  destruct (handleMessage_data d c Hd Hcb) as (He & Hr' & Hc' & Hcb').
  unfold receive in *. cbn [foldl].
  destruct (IH (handleMessage (dataMessage d) c)) as [IH1 IH2];
    [done | by rewrite Hcb' | done |].
  split; [|done].
  rewrite IH1, He, Hr, andb_false_r, <-app_assoc. done.
Qed.

(** X9.  The [reconnecting] tag goes to exactly one message.  Of the data
    messages a client receives in a row, the first is passed to the
    message callback with [connected && reconnecting] and every later one
    with [false]; a message with code 200 and no payload is ignored and
    leaves the tag for the next one.  A reconnect attempt that opens and
    is authenticated leaves the client with both flags set, so that the
    first payload after a reconnect is the tagged one. *)
Theorem reconnecting_tags_first_message :
  (∀ ds c,
     Forall (λ d, d ≠ EmptyString) ds →
     onMessageCallback (callbacks c) = true →
     effects (receive ds c) =
       effects c ++ tagged (connected c && reconnecting c) ds) ∧
  (∀ c, handleMessage (dataMessage EmptyString) c = c ∧
        handleMessage (Some (mkWebSocketMessage (Some 200) None None)) c = c) ∧
  (∀ c handle delay,
     timeouts c !! handle = Some delay →
     let c' := handleMessage authenticated
                 (socketOpen (timeoutFires handle None c)) in
     connected c' = true ∧ reconnecting c' = true).
Proof.
  split_and!.
  - intros [|d ds] c Hds Hcb.
    { simpl. by rewrite app_nil_r. }
    apply Forall_cons in Hds as [Hd Hds].
    destruct (handleMessage_data d c Hd Hcb) as (He & Hr' & Hc' & Hcb').
    destruct (receive_untagged ds (handleMessage (dataMessage d) c))
      as [Hrest _]; [done | by rewrite Hcb' | done |].
    unfold receive in *. cbn [foldl]. rewrite Hrest, He, <-app_assoc. done.
  - intros c. split; reflexivity.
  - intros c handle delay Hpending.
    unfold timeoutFires. rewrite Hpending.
    unfold connectAsync, socketOpen, handleConnect, authenticate, sendMessage,
      handleMessage, handleAuthentication, updateStatus. simpl.
    branches; done.
Qed.

(** Steps keep the timer discipline. *)
Lemma reconnect_singleTimer (c : Client) :
  singleTimer c → singleTimer (reconnect c).
Proof.
  intros Inv handle delay. unfold reconnect. simpl.
  destruct (decide (nextHandle c = handle)) as [<-|Hne].
  - rewrite lookup_insert_eq. by intros [= <-].
  - rewrite lookup_insert_ne by done. intros Hl. exfalso.
    unfold clearTimeout in Hl.
    destruct (reconnectTimer c) as [old|] eqn:Hold.
    + destruct (decide (old = handle)) as [->|Hne'].
      * by rewrite lookup_delete_eq in Hl.
      * rewrite lookup_delete_ne in Hl by done.
        apply Inv in Hl as [Hl _]. congruence.
    + apply Inv in Hl as [Hl _]. congruence.
Qed.

Lemma singleTimer_frame (c c' : Client) :
  timeouts c' = timeouts c → reconnectTimer c' = reconnectTimer c →
  reconnectDelay c' = reconnectDelay c →
  singleTimer c → singleTimer c'.
Proof.
  intros Ht Hr Hd Inv handle delay. rewrite Ht, Hr, Hd. apply Inv.
Qed.

Lemma handleDisconnect_singleTimer (byUser : bool) (c : Client) :
  singleTimer c → singleTimer (handleDisconnect byUser c).
Proof.
  intros Inv. unfold handleDisconnect.
  set (c1 := if onDisconnectCallback (callbacks c) then _ else c).
  assert (singleTimer c1) as Inv1.
  { subst c1. by destruct (onDisconnectCallback _). }
  destruct (connected c1 && negb byUser).
  - apply reconnect_singleTimer. unfold updateStatus.
    by destruct (onStatusChangeCallback _).
  - unfold updateStatus. by destruct (onStatusChangeCallback _).
Qed.

Lemma connectAsync_singleTimer (attempt : bool) (err : option string)
    (c : Client) :
  singleTimer c → singleTimer (connectAsync attempt err c).
Proof.
  intros Inv. unfold connectAsync.
  set (c1 := updateStatus Connecting (setReconnecting attempt c)).
  assert (singleTimer c1) as Inv1.
  { subst c1. unfold updateStatus. by destruct (onStatusChangeCallback _). }
  destruct err; [|done].
  unfold handleConnect. simpl. by apply handleDisconnect_singleTimer.
Qed.

Lemma step_singleTimer (c : Client) (e : event) :
  singleTimer c → singleTimer (step c e).
Proof.
  intros Inv. destruct e as [token err| | |msg| |parsed|handle err]; simpl.
  - by apply connectAsync_singleTimer.
  - unfold close. simpl.
    assert (singleTimer
              match reconnectTimer c with
              | Some _ => setTimer None
                            (clearTimeout (reconnectTimer c) (timeouts c))
                            (nextHandle c) (setClosedByUser true c)
              | None => setClosedByUser true c
              end) as Inv1.
    { destruct (reconnectTimer c) as [old|] eqn:Hold; [|done].
      intros handle delay. simpl.
      destruct (decide (old = handle)) as [->|Hne].
      - by rewrite lookup_delete_eq.
      - rewrite lookup_delete_ne by done. intros Hl.
        apply Inv in Hl as [Hl _]. congruence. }
    destruct (reconnectTimer c); simpl in *; by destruct (ws c).
  - unfold socketOpen. destruct (ws c) as [s|]; [|done].
    unfold handleConnect, authenticate, sendMessage. simpl. done.
  - unfold socketError. destruct (ws c) as [s|]; [|done].
    unfold handleConnect. simpl. by apply handleDisconnect_singleTimer.
  - unfold socketClose. destruct (ws c) as [s|]; [|done].
    by apply handleDisconnect_singleTimer.
  - unfold handleMessage, handleAuthentication, updateStatus.
    destruct parsed as [m|]; simpl; branches; done.
  - unfold timeoutFires. destruct (timeouts c !! handle) eqn:Hl; [|done].
    apply connectAsync_singleTimer. intros k delay. simpl.
    destruct (decide (handle = k)) as [->|Hne].
    + by rewrite lookup_delete_eq.
    + rewrite lookup_delete_ne by done. apply Inv.
Qed.

Lemma run_singleTimer (es : list event) (c : Client) :
  singleTimer c → singleTimer (run es c).
Proof.
  revert c. induction es as [|e es IH]; intros c Inv; [done|].
  unfold run in *. simpl. by apply IH, step_singleTimer.
Qed.

Lemma create_singleTimer (cbs : Callbacks) : singleTimer (create cbs).
Proof. intros handle delay. simpl. by rewrite lookup_empty. Qed.

Lemma singleTimer_size (c : Client) :
  singleTimer c → (size (timeouts c) ≤ 1)%nat.
Proof.
  intros Inv. destruct (reconnectTimer c) as [h|] eqn:Hr.
  - destruct (timeouts c !! h) as [d|] eqn:Hl.
    + assert (timeouts c = {[h := d]}) as ->; [|by rewrite map_size_singleton].
      apply map_eq. intros k. destruct (decide (h = k)) as [<-|Hne].
      * by rewrite lookup_singleton_eq.
      * rewrite lookup_singleton_ne by done.
        destruct (timeouts c !! k) eqn:Hk; [|done].
        apply Inv in Hk as [Hk _]. congruence.
    + assert (timeouts c = ∅) as ->; [|by rewrite map_size_empty; lia].
      apply map_empty. intros k.
      destruct (timeouts c !! k) eqn:Hk; [|done].
      destruct (Inv _ _ Hk) as [Hk' _]. congruence.
  - assert (timeouts c = ∅) as ->; [|by rewrite map_size_empty; lia].
    apply map_empty. intros k.
    destruct (timeouts c !! k) eqn:Hk; [|done].
    apply Inv in Hk as [Hk _]. congruence.
Qed.

(** X10.  However connects, closes, socket events, messages and timer
    expiries follow one another on a client, at most one reconnect timeout
    is pending at any time; it is the one whose handle is in
    [reconnectTimer], and it waits 3000 ms. *)
Theorem at_most_one_reconnect_pending (cbs : Callbacks) (es : list event) :
  (size (timeouts (run es (create cbs))) ≤ 1)%nat ∧
  ∀ handle delay,
    timeouts (run es (create cbs)) !! handle = Some delay →
    reconnectTimer (run es (create cbs)) = Some handle ∧ delay = 3000.
Proof.
  pose proof (run_singleTimer es (create cbs) (create_singleTimer cbs)) as Inv.
  split; [by apply singleTimer_size|].
  intros handle delay Hl. apply Inv in Hl as [Hr ->].
  split; [done|]. by rewrite run_reconnectDelay.
Qed.

(** X11.  A close event on a client that has been authenticated and on
    which the user has not called [close()] schedules a reconnect after
    3000 ms, reports the disconnect with [closedByUser = false] and the
    status Connecting, and leaves [connected] set, so that [isConnected()]
    keeps answering [true] while the connection is down.  After the user's
    [close()] nothing is pending, and the close event that follows
    schedules nothing, clears [connected] and reports Disconnected. *)
Theorem close_event_reconnects_unless_user_closed
    (cbs : Callbacks) (es : list event) (s : Socket) :
  let c := run es (create cbs) in
  ws c = Some s →
  (closedByUser c = false → connected c = true →
     reconnectScheduled 3000 (socketClose c) ∧
     connected (socketClose c) = true ∧
     effects (socketClose c) = effects c ++ lossEffects c) ∧
  (closedByUser (close c) = true ∧
   timeouts (close c) = ∅ ∧
   timeouts (socketClose (close c)) = ∅ ∧
   connected (socketClose (close c)) = false ∧
   (∀ handle err, timeoutFires handle err (socketClose (close c))
                  = socketClose (close c))).
Proof.
  intros c Hws.
  assert (reconnectDelay c = 3000) as Hdelay.
  { subst c. by rewrite run_reconnectDelay. }
  assert (singleTimer c) as Inv.
  { subst c. apply run_singleTimer, create_singleTimer. }
  split.
  - intros Hopen Hconn. unfold socketClose. rewrite Hws, Hopen.
    set (c1 := setWs _ c).
    destruct (handleDisconnect_lost_connected c1 Hconn) as (H1 & H2 & H3).
    by rewrite <-Hdelay.
  - assert (timeouts (close c) = ∅) as Hnone.
    { unfold close. simpl.
      destruct (reconnectTimer c) as [old|] eqn:Hold; simpl.
      - rewrite Hws. simpl. apply map_empty. intros k.
        destruct (decide (old = k)) as [->|Hne].
        + by rewrite lookup_delete_eq.
        + rewrite lookup_delete_ne by done.
          destruct (timeouts c !! k) eqn:Hk; [|done].
          apply Inv in Hk as [Hk _]. congruence.
      - rewrite Hws. simpl. apply map_empty. intros k.
        destruct (timeouts c !! k) eqn:Hk; [|done].
        apply Inv in Hk as [Hk _]. congruence. }
    assert (closedByUser (close c) = true ∧
            ws (close c) = Some s) as [Hby Hws'].
    { unfold close. simpl. destruct (reconnectTimer c); simpl;
        by rewrite Hws. }
    assert (timeouts (socketClose (close c)) = ∅ ∧
            connected (socketClose (close c)) = false) as [Hnone' Hconn'].
    { unfold socketClose. rewrite Hws', Hby.
      unfold handleDisconnect, updateStatus. simpl.
      rewrite andb_false_r.
      destruct (onDisconnectCallback _), (onStatusChangeCallback _); simpl;
        by rewrite Hnone. }
    split_and!; try done.
    intros handle err. unfold timeoutFires. by rewrite Hnone', lookup_empty.
Qed.

(** What [handleDisconnect] never touches. *)
Lemma handleDisconnect_frame (byUser : bool) (c : Client) :
  ws (handleDisconnect byUser c) = ws c ∧
  closedByUser (handleDisconnect byUser c) = closedByUser c ∧
  reconnectDelay (handleDisconnect byUser c) = reconnectDelay c ∧
  callbacks (handleDisconnect byUser c) = callbacks c.
Proof.
  unfold handleDisconnect, reconnect, updateStatus.
  destruct (onDisconnectCallback (callbacks c)) eqn:Hd;
    destruct (onStatusChangeCallback (callbacks c)) eqn:Hs;
    destruct (connected c) eqn:Hc; destruct byUser;
    simpl; rewrite ?Hc, ?Hs; simpl; rewrite ?Hs; done.
Qed.

(** [handleDisconnect(true)] schedules nothing and cancels nothing. *)
Lemma handleDisconnect_byUser (c : Client) :
  timeouts (handleDisconnect true c) = timeouts c ∧
  reconnectTimer (handleDisconnect true c) = reconnectTimer c ∧
  connected (handleDisconnect true c) = false.
Proof.
  unfold handleDisconnect, updateStatus.
  destruct (onDisconnectCallback (callbacks c)) eqn:Hd;
    destruct (onStatusChangeCallback (callbacks c)) eqn:Hs;
    simpl; rewrite ?andb_false_r; simpl; rewrite ?Hs; done.
Qed.

Lemma timeoutFires_opens_socket (handle : nat) (delay : Z) (c : Client) :
  timeouts c !! handle = Some delay →
  ws (timeoutFires handle None c) = Some (mkSocket CONNECTING true).
Proof.
  intros H. unfold timeoutFires. rewrite H.
  unfold connectAsync, updateStatus. simpl.
  by destruct (onStatusChangeCallback (callbacks c)).
Qed.

(** X12.  [handleConnect(false)] passes the literal [false] to
    [handleDisconnect], whatever [closedByUser] is.  So when the user
    calls [close()] on a client that had been authenticated and the socket
    then reports an error, a reconnect is scheduled all the same; the
    close event that follows does not cancel it, and when the timeout
    expires the client opens a new socket. *)
Theorem error_after_close_still_reconnects
    (cbs : Callbacks) (es : list event) (s : Socket) (errorMessage : string) :
  let c := run es (create cbs) in
  ws c = Some s →
  connected c = true →
  let c' := socketClose (socketError errorMessage (close c)) in
  closedByUser c' = true ∧
  ∃ handle,
    timeouts c' !! handle = Some 3000 ∧
    ws (timeoutFires handle None c') = Some (mkSocket CONNECTING true).
Proof.
  intros c Hws Hconn c'.
  assert (reconnectDelay c = 3000) as Hdelay.
  { subst c. by rewrite run_reconnectDelay. }
  assert (ws (close c) = Some s ∧ connected (close c) = true ∧
          closedByUser (close c) = true ∧ reconnectDelay (close c) = 3000)
    as (Hws0 & Hconn0 & Hby0 & Hd0).
  { assert (ws (close c) = ws c ∧ connected (close c) = connected c ∧
            closedByUser (close c) = true ∧
            reconnectDelay (close c) = reconnectDelay c) as (-> & -> & -> & ->).
    { unfold close. simpl.
      destruct (reconnectTimer c); simpl;
        destruct (ws c) eqn:E; simpl; rewrite ?E; done. }
    done. }
  set (c0 := close c) in *.
  assert (socketError errorMessage c0 = handleDisconnect false c0) as Herr.
  { unfold socketError. by rewrite Hws0. }
  destruct (handleDisconnect_lost_connected c0 Hconn0)
    as ((handle & Hrt & Hpending) & Hconn1 & _).
  destruct (handleDisconnect_frame false c0) as (Hws1 & Hby1 & _ & _).
  rewrite <-Herr in *. set (c1 := socketError errorMessage c0) in *.
  assert (c' = handleDisconnect true
                 (setWs (Some (mkSocket CLOSED (attemptReconnect s))) c1))
    as Hclose.
  { subst c'. unfold socketClose. by rewrite Hws1, Hws0, Hby1, Hby0. }
  set (c2 := setWs _ c1) in Hclose.
  destruct (handleDisconnect_byUser c2) as (Ht2 & _ & _).
  destruct (handleDisconnect_frame true c2) as (_ & Hby2 & _ & _).
  rewrite <-Hclose in *.
  split.
  - rewrite Hby2. subst c2. simpl. by rewrite Hby1.
  - exists handle.
    assert (timeouts c' !! handle = Some 3000) as Hl.
    { rewrite Ht2. subst c2. simpl. by rewrite Hpending, Hd0. }
    split; [done|]. by eapply timeoutFires_opens_socket.
Qed.

(** X13.  A message that does not parse, or whose code is neither 200
    nor 201, makes the client report the status Disconnected and nothing
    else: the socket stays, [connected] keeps its value, and no reconnect
    is scheduled. *)
Theorem protocol_error_only_reports_status
    (parsed : option WebSocketMessage) (c : Client) :
  protocolError parsed →
  handleMessage parsed c = updateStatus Disconnected c ∧
  effects (handleMessage parsed c) =
    effects c ++ (if onStatusChangeCallback (callbacks c)
                  then [OnStatusChange Disconnected] else []) ∧
  connected (handleMessage parsed c) = connected c ∧
  ws (handleMessage parsed c) = ws c ∧
  timeouts (handleMessage parsed c) = timeouts c ∧
  reconnectTimer (handleMessage parsed c) = reconnectTimer c.
Proof.
  intros Herr.
  assert (handleMessage parsed c = updateStatus Disconnected c) as ->.
  { unfold handleMessage. destruct parsed as [m|]; [|done].
    destruct Herr as [H1 H2].
    destruct (Z.eqb_spec (default (-1) (code m)) 201); [done|].
    by destruct (Z.eqb_spec (default (-1) (code m)) 200). }
  unfold updateStatus.
  destruct (onStatusChangeCallback (callbacks c)); simpl;
    by rewrite ?app_nil_r.
Qed.

End WebSocketTraceFacts.

Section WebSocketTraceRuns.

Import WebSocketClient WebSocketTrace.

Lemma reconnecting_tags_witness :
  let back := run (retryRun ++ [SocketOpen; Message authenticated])
                (create allCallbacks) in
  effects (receive ["first"; "second"; "third"] back) =
    effects back ++
    [OnMessage "first" true; OnMessage "second" false;
     OnMessage "third" false] ∧
  connected back = true ∧ reconnecting back = true.
Proof.
  destruct reconnecting_tags_first_message as (Htag & _ & Hback).
  intros back. split.
  - rewrite (Htag ["first"; "second"; "third"] back).
    + vm_compute; reflexivity.
    + do 3 (constructor; [discriminate|]). constructor.
    + vm_compute; reflexivity.
  - subst back.
    replace (run (retryRun ++ [SocketOpen; Message authenticated])
               (create allCallbacks))
      with (handleMessage authenticated
              (socketOpen
                 (timeoutFires O None (run lostRun (create allCallbacks)))))
      by (vm_compute; reflexivity).
    apply (Hback (run lostRun (create allCallbacks)) O 3000).
    vm_compute; reflexivity.
Defined.

Lemma one_reconnect_pending_witness :
  reconnectTimer (run lostRun (create allCallbacks)) = Some O ∧
  (size (timeouts (run (lostRun ++ [SocketClose; SocketClose])
                     (create allCallbacks))) ≤ 1)%nat.
Proof.
  destruct (at_most_one_reconnect_pending allCallbacks lostRun) as [_ Hone].
  destruct (at_most_one_reconnect_pending allCallbacks
              (lostRun ++ [SocketClose; SocketClose])) as [Hsize _].
  split; [|exact Hsize].
  apply (Hone O 3000). vm_compute; reflexivity.
Defined.

Lemma close_event_witness :
  let c := run authenticatedRun (create allCallbacks) in
  reconnectScheduled 3000 (socketClose c) ∧
  connected (socketClose c) = true ∧
  timeouts (socketClose (close c)) = ∅ ∧
  connected (socketClose (close c)) = false.
Proof.
  destruct (close_event_reconnects_unless_user_closed allCallbacks
              authenticatedRun (mkSocket OPEN false))
    as [Hlost (_ & _ & Hnone & Hoff & _)]; [vm_compute; reflexivity|].
  destruct Hlost as (Hsched & Hconn & _); [vm_compute; vm_compute; reflexivity..|].
  intros c. split_and!; [exact Hsched | exact Hconn | exact Hnone | exact Hoff].
Defined.

Lemma error_after_close_witness :
  let c := run retryRun (create allCallbacks) in
  let c' := socketClose (socketError "closed before the connection"
                           (close c)) in
  closedByUser c' = true ∧
  ∃ handle, timeouts c' !! handle = Some 3000 ∧
            ws (timeoutFires handle None c') = Some (mkSocket CONNECTING true).
Proof.
  apply (error_after_close_still_reconnects allCallbacks retryRun
           (mkSocket CONNECTING true)); vm_compute; reflexivity.
Defined.

Lemma protocol_error_witness :
  let c := run authenticatedRun (create allCallbacks) in
  let bad := Some (mkWebSocketMessage (Some 500) None (Some "overloaded")) in
  effects (handleMessage bad c) = effects c ++ [OnStatusChange Disconnected] ∧
  connected (handleMessage bad c) = true ∧
  effects (handleMessage None c) = effects c ++ [OnStatusChange Disconnected].
Proof.
  intros c bad.
  destruct (protocol_error_only_reports_status bad c) as (_ & He & Hc & _).
  { split; discriminate. }
  destruct (protocol_error_only_reports_status None c) as (_ & He' & _).
  { exact I. }
  split_and!; [exact He | exact Hc | exact He'].
Defined.

End WebSocketTraceRuns.


(* ===================================================================== *)
(** * Further properties of a team panel *)
(* ===================================================================== *)

Section SquadFacts.

Import LiveTeamPanel SquadView.

Lemma calculateSquadStatus_teamPlayers (team : Team2Data)
    (players : list Player2Data) :
  calculateSquadStatus team players =
  match teamPlayersOf team players with
  | [] => {| alive := 4; dead := 0; groggy := 0; total := 4 |}
  | ps => {| alive := count isAlive ps; dead := count isDead ps;
             groggy := count isGroggy ps;
             total := Z.max (Z.of_nat (length ps)) 4 |}
  end.
Proof.
  unfold calculateSquadStatus, teamPlayersOf.
  destruct (filter (λ p, team_id p = id team) players); [|done].
  by destruct (filter (λ p, team_name p = name team) players).
Qed.

(** Every player is in exactly one of the three classes. *)
Lemma count_partition (ps : list Player2Data) :
  count isAlive ps + count isGroggy ps + count isDead ps
  = Z.of_nat (length ps).
Proof.
  unfold count. induction ps as [|p ps IH]; [done|].
  rewrite !filter_cons. destruct (classify p) eqn:E;
    repeat case_decide; try congruence; simpl length; lia.
Qed.

Lemma count_nonneg (c : condition) (ps : list Player2Data) : 0 ≤ count c ps.
Proof. unfold count. lia. Qed.

Lemma indicatorsFrom_app (s : SquadStatus) (n m : nat) (i : Z) :
  indicatorsFrom s (n + m) i =
  indicatorsFrom s n i ++ indicatorsFrom s m (i + Z.of_nat n).
Proof.
  revert i. induction n as [|n IH]; intros i; simpl.
  - by rewrite Z.add_0_r.
  - rewrite IH. do 3 f_equal. lia.
Qed.

Lemma indicatorsFrom_uniform (s : SquadStatus) (c : condition) (n : nat) (i : Z) :
  (∀ j, i ≤ j < i + Z.of_nat n → indicatorAt s j = c) →
  indicatorsFrom s n i = replicate n c.
Proof.
  revert i. induction n as [|n IH]; intros i H; simpl; [done|].
  rewrite H by lia. f_equal. apply IH. intros j Hj. apply H. lia.
Qed.

(** The indicator row of a consistent status, in closed form. *)
Lemma indicators_closed_form (s : SquadStatus) :
  0 ≤ alive s → 0 ≤ groggy s → alive s + groggy s ≤ total s →
  createSquadHealthIndicators s =
    replicate (Z.to_nat (alive s)) isAlive ++
    replicate (Z.to_nat (groggy s)) isGroggy ++
    replicate (Z.to_nat (total s - alive s - groggy s)) isDead.
Proof.
  intros Ha Hg Ht. unfold createSquadHealthIndicators.
  replace (Z.to_nat (total s))
    with (Z.to_nat (alive s) +
          (Z.to_nat (groggy s) + Z.to_nat (total s - alive s - groggy s)))%nat
    by lia.
  rewrite !indicatorsFrom_app. f_equal; [|f_equal].
  - apply indicatorsFrom_uniform. intros j Hj. unfold indicatorAt.
    by destruct (Z.ltb_spec j (alive s)); [|lia].
  - apply indicatorsFrom_uniform. intros j Hj. unfold indicatorAt.
    destruct (Z.ltb_spec j (alive s)); [lia|].
    by destruct (Z.ltb_spec j (alive s + groggy s)); [|lia].
  - apply indicatorsFrom_uniform. intros j Hj. unfold indicatorAt.
    destruct (Z.ltb_spec j (alive s)); [lia|].
    by destruct (Z.ltb_spec j (alive s + groggy s)); [lia|].
Qed.

(** X14.  [calculateSquadStatus] counts the players that carry the team's
    id, or, when no player does, those that carry its name.  Its three
    counts are not negative and add up to the number of these players,
    [total] is that number or 4 if it is less, and a team without players
    is shown as four alive.  The indicator row built from it has [total]
    indicators, the alive ones first, then the groggy ones, then the dead
    ones, every slot of a squad of fewer than four being drawn as dead. *)
Theorem squad_status_counts_and_indicators
    (team : Team2Data) (players : list Player2Data) :
  let ps := teamPlayersOf team players in
  let s := calculateSquadStatus team players in
  (ps = [] → s = {| alive := 4; dead := 0; groggy := 0; total := 4 |}) ∧
  (ps ≠ [] →
     alive s = count isAlive ps ∧ groggy s = count isGroggy ps ∧
     dead s = count isDead ps ∧
     alive s + groggy s + dead s = Z.of_nat (length ps) ∧
     total s = Z.max (Z.of_nat (length ps)) 4) ∧
  0 ≤ alive s ∧ 0 ≤ groggy s ∧ 0 ≤ dead s ∧
  alive s + groggy s + dead s ≤ total s ∧ 4 ≤ total s ∧
  createSquadHealthIndicators s =
    replicate (Z.to_nat (alive s)) isAlive ++
    replicate (Z.to_nat (groggy s)) isGroggy ++
    replicate (Z.to_nat (total s - alive s - groggy s)) isDead ∧
  Z.of_nat (length (createSquadHealthIndicators s)) = total s.
Proof.
  intros ps s.
  assert (s = match ps with
              | [] => {| alive := 4; dead := 0; groggy := 0; total := 4 |}
              | _ => {| alive := count isAlive ps; dead := count isDead ps;
                        groggy := count isGroggy ps;
                        total := Z.max (Z.of_nat (length ps)) 4 |}
              end) as Hs.
  { subst s ps. rewrite calculateSquadStatus_teamPlayers.
    by destruct (teamPlayersOf team players). }
  pose proof (count_partition ps) as Hsum.
  pose proof (count_nonneg isAlive ps) as Ha.
  pose proof (count_nonneg isGroggy ps) as Hg.
  pose proof (count_nonneg isDead ps) as Hd.
  assert (0 ≤ alive s ∧ 0 ≤ groggy s ∧ 0 ≤ dead s ∧
          alive s + groggy s + dead s ≤ total s ∧ 4 ≤ total s)
    as (H1 & H2 & H3 & H4 & H5).
  { rewrite Hs. destruct ps; simpl in *; lia. }
  assert (createSquadHealthIndicators s =
            replicate (Z.to_nat (alive s)) isAlive ++
            replicate (Z.to_nat (groggy s)) isGroggy ++
            replicate (Z.to_nat (total s - alive s - groggy s)) isDead)
    as Hrow by (apply indicators_closed_form; lia).
  split_and!; try done.
  - intros Hps. by rewrite Hs, Hps.
  - intros Hps. rewrite Hs. destruct ps; [done|]. simpl in *.
    split_and!; first [done | lia].
  - rewrite Hrow, !length_app, !length_replicate. lia.
Qed.

(** A player the squad status counts alive passes for alive in the
    elimination test. *)
Lemma classify_alive_notAlive (p : Player2Data) :
  classify p = isAlive → notAlive p = false.
Proof.
  unfold classify, notAlive.
  destruct (knownDeathType p) as [dt|].
  - destruct (String.eqb dt "alive"); [done|].
    by destruct (String.eqb dt "groggy").
  - destruct (telemetry_pb p) as [t|]; [|done].
    by destruct (is_alive t), (is_groggy t).
Qed.

(** X15.  The elimination test and the squad status read a player's data
    with the same precedence (death type, then telemetry, then alive),
    and agree on the players they call alive or dead: a player counted
    alive is never out, a player counted dead always is.  They disagree
    on groggy players: one whose death type says groggy is out for the
    elimination test, one whose telemetry says groggy is not. *)
Theorem elimination_test_against_squad_status (p : Player2Data) :
  (classify p = isAlive → notAlive p = false) ∧
  (classify p = isDead → notAlive p = true) ∧
  (knownDeathType p = Some "groggy" →
     classify p = isGroggy ∧ notAlive p = true) ∧
  (knownDeathType p = None → classify p = isGroggy → notAlive p = false).
Proof.
  unfold classify, notAlive.
  destruct (knownDeathType p) as [dt|] eqn:Hdt.
  - destruct (String.eqb dt "alive") eqn:Ea;
      [|destruct (String.eqb dt "groggy") eqn:Eg]; simpl;
      (split_and!; [done | done | | done]);
      intros [= ->]; by vm_compute in *.
  - destruct (telemetry_pb p) as [t|]; [|by split_and!].
    destruct (is_alive t), (is_groggy t); by split_and!.
Qed.

End SquadFacts.

Section PanelLifeFacts.

Import LiveTeamPanel SquadView.

Variable panel_height : Z.

Local Abbreviation updatePanel := (updatePanel panel_height).

(** What [updatePanel] stores apart from the latch and the rank. *)
Lemma updatePanel_stored (team matchTeam : Team2Data)
    (playersMap : gmap string (list Player2Data))
    (index : Z) (refresh : bool) (p : Panel) :
  let p' := panelAfter (updatePanel team matchTeam playersMap index refresh p) in
  teamData p' = team ∧
  squadStatus p' = calculateSquadStatus team (rosterOf team playersMap) ∧
  inMatch p' = negb (Nat.eqb (length (rosterOf team playersMap)) 0) ∧
  currentIndex (controller p') = index ∧
  panelHeight (controller p') = panelHeight (controller p) ∧
  prevPosition (controller p') =
    (if 0 <=? currentIndex (controller p)
     then currentIndex (controller p) * panelHeight (controller p) else -1) ∧
  top (element p') = Some ((index - 1) * panel_height).
Proof.
  unfold LiveTeamPanel.updatePanel, handlePositionAndAnimation,
    handleElimination.
  repeat match goal with
         | |- context [if ?b then _ else _] => destruct b; simpl
         end; done.
Qed.

(** X16.  When [updatePanel] reports a team as just eliminated and the
    roster has a player with the team's id or name, the squad status it
    stores shows nobody alive.  (Without such a player the status is the
    default of four alive, although the team was reported eliminated.) *)
Theorem just_eliminated_squad_has_nobody_alive
    (team matchTeam : Team2Data) (playersMap : gmap string (list Player2Data))
    (index : Z) (refresh : bool) (p : Panel) :
  let r := updatePanel team matchTeam playersMap index refresh p in
  justEliminated r = true →
  (teamPlayersOf team (rosterOf team playersMap) ≠ [] →
     alive (squadStatus (panelAfter r)) = 0) ∧
  (teamPlayersOf team (rosterOf team playersMap) = [] →
     alive (squadStatus (panelAfter r)) = 4).
Proof.
  intros r Hjust.
  destruct (updatePanel_result panel_height team matchTeam playersMap index
              refresh p) as [Hj _].
  fold r in Hj. rewrite Hj in Hjust.
  apply andb_true_iff in Hjust as [Hall _].
  apply allNotAlive_forallb in Hall as [_ Hall].
  rewrite forallb_forall in Hall.
  destruct (updatePanel_stored team matchTeam playersMap index refresh p)
    as (_ & Hs & _).
  fold r in Hs. rewrite Hs, calculateSquadStatus_teamPlayers.
  set (roster := rosterOf team playersMap) in *.
  assert (∀ q, q ∈ teamPlayersOf team roster → classify q ≠ isAlive) as Hcls.
  { intros q Hq Hc.
    assert (q ∈ roster) as Hin.
    { unfold teamPlayersOf in Hq.
      destruct (filter (λ p, team_id p = id team) roster) eqn:E.
      - by apply list_elem_of_filter in Hq as [_ ?].
      - rewrite <-E in Hq. by apply list_elem_of_filter in Hq as [_ ?]. }
    apply list_elem_of_In, Hall in Hin.
    rewrite (classify_alive_notAlive q Hc) in Hin. done. }
  split.
  - intros Hne. destruct (teamPlayersOf team roster) as [|q qs] eqn:E; [done|].
    simpl. unfold count.
    assert (filter (λ p0, classify p0 = isAlive) (q :: qs) = []) as ->; [|done].
    apply elem_of_nil_inv.
    intros x [Hx1 Hx2]%list_elem_of_filter. by eapply Hcls.
  - intros ->. done.
Qed.

(** X17.  A panel is in its initial position for its first [updatePanel]
    only.  The first call on a new panel plays no rank animation, and so
    does every call made with [refresh]; a call on a panel whose display
    index and height are not negative leaves [PrevPosition] not negative,
    so that the rank comparison is in force from the second call on.
    Each call stores the display index and puts the panel at
    [(index - 1) * panel_height]. *)
Theorem initial_position_only_once
    (team matchTeam : Team2Data) (playersMap : gmap string (list Player2Data))
    (index : Z) (refresh : bool) :
  (∀ team0 players0 index0,
     rankChange (updatePanel team matchTeam playersMap index refresh
                   (create panel_height team0 players0 index0)) = None) ∧
  (∀ p, rankChange (updatePanel team matchTeam playersMap index true p) = None) ∧
  (∀ p, 0 ≤ currentIndex (controller p) → 0 ≤ panelHeight (controller p) →
     let p' := panelAfter (updatePanel team matchTeam playersMap index refresh p) in
     0 ≤ PrevPosition (controller p') ∧
     currentIndex (controller p') = index ∧
     panelHeight (controller p') = panelHeight (controller p) ∧
     top (element p') = Some ((index - 1) * panel_height)).
Proof.
  split_and!.
  - intros team0 players0 index0.
    by destruct (updatePanel_event panel_height team matchTeam playersMap
                   index refresh (create panel_height team0 players0 index0))
      as [-> _].
  - intros p.
    destruct (updatePanel_event panel_height team matchTeam playersMap
                index true p) as [-> _].
    by rewrite orb_true_r.
  - intros p Hi Hh p'.
    destruct (updatePanel_stored team matchTeam playersMap index refresh p)
      as (_ & _ & _ & Hidx & Hht & Hprev & Htop).
    fold p' in Hidx, Hht, Hprev, Htop.
    split_and!; try done. unfold PrevPosition. rewrite Hprev.
    destruct (Z.leb_spec 0 (currentIndex (controller p))); nia.
Qed.

End PanelLifeFacts.

Section SquadRuns.

Import LiveTeamPanel SquadView.

Lemma squad_status_witness :
  let s := calculateSquadStatus (alpha 1)
             [playerOf "a1" "Alpha" 1 "alive";
              playerOf "a2" "Alpha" 1 "groggy";
              playerOf "b1" "Bravo" 2 "alive"] in
  alive s = 1 ∧ groggy s = 1 ∧ dead s = 0 ∧ total s = 4 ∧
  createSquadHealthIndicators s = [isAlive; isGroggy; isDead; isDead] ∧
  calculateSquadStatus (alpha 1) [playerOf "b1" "Bravo" 2 "byplayer"]
    = {| alive := 4; dead := 0; groggy := 0; total := 4 |}.
Proof.
  intros s.
  destruct (squad_status_counts_and_indicators (alpha 1)
              [playerOf "a1" "Alpha" 1 "alive";
               playerOf "a2" "Alpha" 1 "groggy";
               playerOf "b1" "Bravo" 2 "alive"])
    as (_ & Hsome & _ & _ & _ & _ & _ & Hrow & _).
  destruct (squad_status_counts_and_indicators (alpha 1)
              [playerOf "b1" "Bravo" 2 "byplayer"]) as (Hnone & _).
  destruct Hsome as (Ha & Hg & Hd & _ & Ht); [vm_compute; discriminate|].
  fold s in Ha, Hg, Hd, Ht, Hrow.
  split_and!.
  - rewrite Ha. vm_compute; reflexivity.
  - rewrite Hg. vm_compute; reflexivity.
  - rewrite Hd. vm_compute; reflexivity.
  - rewrite Ht. vm_compute; reflexivity.
  - rewrite Hrow. vm_compute; reflexivity.
  - apply Hnone. vm_compute; reflexivity.
Defined.

Lemma elimination_test_witness :
  notAlive (playerOf "a1" "Alpha" 1 "groggy") = true ∧
  notAlive (telemetryOnly "a2" "Alpha" 1 true true) = false ∧
  notAlive (playerOf "a3" "Alpha" 1 "alive") = false ∧
  notAlive (telemetryOnly "a4" "Alpha" 1 false false) = true.
Proof.
  destruct (elimination_test_against_squad_status
              (playerOf "a1" "Alpha" 1 "groggy")) as (_ & _ & H1 & _).
  destruct (elimination_test_against_squad_status
              (telemetryOnly "a2" "Alpha" 1 true true)) as (_ & _ & _ & H2).
  destruct (elimination_test_against_squad_status
              (playerOf "a3" "Alpha" 1 "alive")) as (H3 & _).
  destruct (elimination_test_against_squad_status
              (telemetryOnly "a4" "Alpha" 1 false false)) as (_ & H4 & _).
  split_and!.
  - by apply H1.
  - by apply H2.
  - by apply H3.
  - by apply H4.
Defined.

Lemma just_eliminated_squad_witness :
  alive (squadStatus
           (panelAfter (updatePanel 32 (alpha 4) (alpha 4) squadDown 4 false
                          (placed 4)))) = 0.
Proof.
  apply (just_eliminated_squad_has_nobody_alive 32 (alpha 4) (alpha 4)
           squadDown 4 false (placed 4)).
  - vm_compute; reflexivity.
  - vm_compute. discriminate.
Defined.

Lemma initial_position_witness :
  0 ≤ PrevPosition (controller (placed 5)) ∧
  currentIndex (controller (placed 5)) = 5 ∧
  top (element (placed 5)) = Some 128.
Proof.
  destruct (initial_position_only_once 32 (alpha 5) (alpha 5) ∅ 5 false)
    as (_ & _ & Hmove).
  destruct (Hmove (create 32 (alpha 5) [] 5)) as (Hprev & Hidx & _ & Htop).
  { vm_compute. discriminate. }
  { vm_compute. discriminate. }
  split_and!; [exact Hprev | exact Hidx | exact Htop].
Defined.

End SquadRuns.


(* ===================================================================== *)
(** * Properties of the data handed to a pass *)
(* ===================================================================== *)

Section LiveStandingDataFacts.

Import LiveTeamPanel LiveStanding LiveStandingData.

Lemma playersMap_fold (ps : list Player2Data)
    (m : gmap string (list Player2Data)) (k : string) :
  foldl (λ m p, <[team_name p := default [] (m !! team_name p) ++ [p]]> m) m ps
    !! k =
  match filter (λ p, team_name p = k) ps with
  | [] => m !! k
  | l => Some (default [] (m !! k) ++ l)
  end.
Proof.
  revert m. induction ps as [|p ps IH]; intros m; [done|].
  cbn [foldl]. rewrite IH, filter_cons.
  destruct (decide (team_name p = k)) as [<-|Hne].
  - rewrite lookup_insert_eq. simpl.
    destruct (filter _ ps) as [|q qs]; [done|]. by rewrite <-app_assoc.
  - by rewrite lookup_insert_ne.
Qed.

(** X18.  [playersMap] groups the players of the message by
    [team_name]: a name no player has is not a key, and the array under a
    key holds the players with that name in the order of the message.  So
    the roster [updatePanel] reads for a team is the players of the
    message with the team's name. *)
Theorem playersMap_groups_by_team_name (ps : list Player2Data) :
  (∀ k, buildPlayersMap ps !! k =
        match filter (λ p, team_name p = k) ps with
        | [] => None
        | l => Some l
        end) ∧
  (∀ team, rosterOf team (buildPlayersMap ps)
           = filter (λ p, team_name p = name team) ps).
Proof.
  assert (∀ k, buildPlayersMap ps !! k =
               match filter (λ p, team_name p = k) ps with
               | [] => None
               | l => Some l
               end) as H.
  { intros k. unfold buildPlayersMap. rewrite playersMap_fold.
    by rewrite lookup_empty. }
  split; [done|].
  intros team. unfold rosterOf. rewrite H.
  by destruct (filter _ ps).
Qed.

Lemma teamMap_fold (ts : list Team2Data) (m : gmap string Team2Data)
    (k : string) :
  foldl (λ m t, <[name t := t]> m) m ts !! k =
  match last (filter (λ t, name t = k) ts) with
  | Some t => Some t
  | None => m !! k
  end.
Proof.
  revert m. induction ts as [|t ts IH]; intros m; [done|].
  cbn [foldl]. rewrite IH, filter_cons.
  destruct (decide (name t = k)) as [<-|Hne].
  - rewrite lookup_insert_eq.
    destruct (filter _ ts) as [|u us] eqn:E; [done|].
    rewrite (last_cons t). by destruct (last (u :: us)) eqn:E2; rewrite ?E2.
  - by rewrite lookup_insert_ne.
Qed.

(** X19.  [teamMap] has a key for every name in [team_stats] and no
    other; when two records of the message have the same name, the later
    one is the one the pass sees. *)
Theorem teamMap_keeps_last_record (ts : list Team2Data) (k : string) :
  buildTeamMap ts !! k = last (filter (λ t, name t = k) ts) ∧
  (is_Some (buildTeamMap ts !! k) ↔ k ∈ name <$> ts).
Proof.
  assert (buildTeamMap ts !! k = last (filter (λ t, name t = k) ts)) as H.
  { unfold buildTeamMap. rewrite teamMap_fold, lookup_empty.
    by destruct (last _). }
  split; [done|]. rewrite H. split.
  - intros [t Ht]. apply last_Some_elem_of, list_elem_of_filter in Ht as [<- Ht].
    by apply list_elem_of_fmap_2.
  - intros (t & -> & Ht)%list_elem_of_fmap.
    assert (t ∈ filter (λ t0, name t0 = name t) ts) as Hin
      by by apply list_elem_of_filter.
    destruct (filter _ ts) as [|u us]; [by apply elem_of_nil in Hin|].
    rewrite last_cons. destruct (last us); by eexists.
Qed.

End LiveStandingDataFacts.

Section RankOrderFacts.

Import LiveTeamPanel LiveStanding LiveStandingData.

Variable localeCompare : string → string → Z.

Local Abbreviation byRankThenName := (byRankThenName localeCompare).

Lemma byRankThenName_le (x y : Team2Data) :
  byRankThenName x y ≤ 0 → rankLe x y.
Proof.
  unfold LiveStandingData.byRankThenName, rankLe.
  destruct (Z.eqb_spec (rank x) (rank y)); simpl; lia.
Qed.

Lemma byRankThenName_gt (x y : Team2Data) :
  0 < byRankThenName x y → rankLe y x.
Proof.
  unfold LiveStandingData.byRankThenName, rankLe.
  destruct (Z.eqb_spec (rank x) (rank y)); simpl; lia.
Qed.

Lemma rank_sortInsert_perm (x : Team2Data) (l : list Team2Data) :
  sortInsert byRankThenName x l ≡ₚ x :: l.
Proof.
  induction l as [|y l IH]; simpl; [done|].
  destruct (byRankThenName x y <=? 0); [done|].
  rewrite IH. apply Permutation_swap.
Qed.

Lemma rank_sort_perm (l : list Team2Data) : sort byRankThenName l ≡ₚ l.
Proof.
  induction l as [|x l IH]; simpl; [done|].
  by rewrite rank_sortInsert_perm, IH.
Qed.

Lemma rank_sortInsert_sorted (x : Team2Data) (l : list Team2Data) :
  StronglySorted rankLe l →
  StronglySorted rankLe (sortInsert byRankThenName x l).
Proof.
  induction 1 as [|y l Hl IH Hy]; simpl.
  - repeat constructor.
  - destruct (Z.leb_spec (byRankThenName x y) 0) as [E|E].
    + apply byRankThenName_le in E.
      constructor; [by constructor|].
      constructor; [done|].
      eapply Forall_impl; [exact Hy|]. unfold rankLe in *.
      simpl. intros; lia.
    + apply byRankThenName_gt in E. constructor; [done|].
      rewrite rank_sortInsert_perm. by constructor.
Qed.

Lemma rank_sort_sorted (l : list Team2Data) :
  StronglySorted rankLe (sort byRankThenName l).
Proof.
  induction l as [|x l IH]; simpl; [constructor|].
  by apply rank_sortInsert_sorted.
Qed.

(** X20.  The teams go into the pass in rank order whatever
    [localeCompare] answers on names: the sorted array is a rearrangement
    of [total_team_stats] in which ranks never decrease, so that the
    sixteen teams displayed are sixteen of lowest rank, no team left out
    having a rank below that of a team displayed. *)
Theorem displayed_teams_are_the_best_ranked (totalTeams : list Team2Data) :
  let sorted := sort byRankThenName totalTeams in
  sorted ≡ₚ totalTeams ∧
  StronglySorted rankLe sorted ∧
  (∀ shown hidden,
     shown ∈ take 16 sorted → hidden ∈ drop 16 sorted →
     rank shown ≤ rank hidden).
Proof.
  intros sorted.
  pose proof (rank_sort_sorted totalTeams) as Hs. fold sorted in Hs.
  split_and!; [apply rank_sort_perm | done |].
  intros shown hidden H1 H2.
  rewrite <-(take_drop 16 sorted) in Hs.
  by eapply (StronglySorted_app_1_elem_of rankLe).
Qed.

End RankOrderFacts.

Section FreshPassFacts.

Import LiveTeamPanel LiveStanding LiveStandingData.

Variable panel_height : Z.
Variable matchTeamMap : gmap string Team2Data.
Variable playersMap : gmap string (list Player2Data).

Local Abbreviation visit := (visit panel_height matchTeamMap playersMap).
Local Abbreviation justEliminatedInPass :=
  (justEliminatedInPass panel_height matchTeamMap playersMap).
Local Abbreviation outOnArrival := (outOnArrival matchTeamMap playersMap).

Lemma visit_rankChanges (st : pass) (team matchTeam : Team2Data) :
  matchTeamMap !! name team = Some matchTeam →
  rankChanges (visit st team) =
    rankChanges st ++
    match rankChange
            (updatePanel panel_height team matchTeam playersMap
               (currentIndex st) false
               (panelFor panel_height (totalTeamIndexMap st) team
                  (currentIndex st))) with
    | Some d => [(name team, d)]
    | None => []
    end.
Proof.
  intros H. unfold LiveStanding.visit. rewrite H.
  by destruct (justEliminated _ && negb (matchEnded st)).
Qed.

(** A pass over teams none of which has a panel yet. *)
Lemma fresh_pass_reports (ts : list Team2Data) (before : gmap string Panel)
    (index : Z) :
  NoDup (name <$> ts) →
  (∀ t, t ∈ ts → before !! name t = None) →
  justEliminatedInPass before index ts = omap outOnArrival ts.
Proof.
  revert before index. induction ts as [|team rest IH];
    intros before index Hnd Hnew; [done|].
  apply NoDup_cons in Hnd as [Hteam Hnd].
  cbn [LiveStanding.justEliminatedInPass omap list_omap].
  unfold LiveStandingData.outOnArrival at 1.
  destruct (matchTeamMap !! name team) as [matchTeam|] eqn:Hm.
  - unfold panelFor. rewrite (Hnew team) by left.
    destruct (updatePanel_result panel_height team matchTeam playersMap index
                false (create panel_height team [] index)) as [Hj _].
    rewrite Hj. simpl. rewrite andb_true_r.
    rewrite IH; [by destruct (allNotAlive _) | done |].
    intros t Ht. rewrite lookup_insert_ne; [apply Hnew; by right|].
    intros Heq. apply Hteam. rewrite Heq. by apply list_elem_of_fmap_2.
  - apply IH; [done|]. intros t Ht. apply Hnew. by right.
Qed.

Lemma fresh_pass_ranks (ts : list Team2Data) (st : pass) :
  NoDup (name <$> ts) →
  (∀ t, t ∈ ts → totalTeamIndexMap st !! name t = None) →
  rankChanges (foldl visit st ts) = rankChanges st.
Proof.
  revert st. induction ts as [|team rest IH]; intros st Hnd Hnew; [done|].
  apply NoDup_cons in Hnd as [Hteam Hnd]. cbn [foldl].
  destruct (matchTeamMap !! name team) as [matchTeam|] eqn:Hm.
  - destruct (visit_step panel_height matchTeamMap playersMap st team
                matchTeam Hm) as (Hmap & _).
    rewrite IH; [|done|].
    + rewrite (visit_rankChanges st team matchTeam Hm).
      unfold panelFor. rewrite (Hnew team) by left.
      destruct (updatePanel_event panel_height team matchTeam playersMap
                  (currentIndex st) false
                  (create panel_height team [] (currentIndex st)))
        as [-> _].
      simpl. by rewrite app_nil_r.
    + intros t Ht. rewrite Hmap. rewrite lookup_insert_ne; [apply Hnew; by right|].
      intros Heq. apply Hteam. rewrite Heq. by apply list_elem_of_fmap_2.
  - rewrite (visit_skip panel_height matchTeamMap playersMap st team Hm).
    apply IH; [done|]. intros t Ht. apply Hnew. by right.
Qed.

(** What a pass does to the panel map. *)
Lemma pass_lookup_other (ts : list Team2Data) (st : pass) (k : string) :
  (∀ t, t ∈ ts → is_Some (matchTeamMap !! name t) → name t ≠ k) →
  totalTeamIndexMap (foldl visit st ts) !! k = totalTeamIndexMap st !! k.
Proof.
  revert st. induction ts as [|team rest IH]; intros st Hk; [done|].
  cbn [foldl]. rewrite IH by (intros t Ht; apply Hk; by right).
  destruct (matchTeamMap !! name team) as [matchTeam|] eqn:Hm.
  - destruct (visit_step panel_height matchTeamMap playersMap st team
                matchTeam Hm) as (-> & _).
    apply lookup_insert_ne, Hk; [by left | by rewrite Hm].
  - by rewrite (visit_skip panel_height matchTeamMap playersMap st team Hm).
Qed.

Lemma visit_lookup_mono (st : pass) (team : Team2Data) (k : string) :
  is_Some (totalTeamIndexMap st !! k) →
  is_Some (totalTeamIndexMap (visit st team) !! k).
Proof.
  intros H. destruct (matchTeamMap !! name team) as [matchTeam|] eqn:Hm.
  - destruct (visit_step panel_height matchTeamMap playersMap st team
                matchTeam Hm) as (-> & _).
    destruct (decide (name team = k)) as [->|Hne].
    + by rewrite lookup_insert_eq.
    + by rewrite lookup_insert_ne.
  - by rewrite (visit_skip panel_height matchTeamMap playersMap st team Hm).
Qed.

Lemma pass_lookup_mono (ts : list Team2Data) (st : pass) (k : string) :
  is_Some (totalTeamIndexMap st !! k) →
  is_Some (totalTeamIndexMap (foldl visit st ts) !! k).
Proof.
  revert st. induction ts as [|team rest IH]; intros st H; [done|].
  cbn [foldl]. by apply IH, visit_lookup_mono.
Qed.

Lemma pass_lookup_visited (ts : list Team2Data) (st : pass) (t : Team2Data) :
  t ∈ ts → is_Some (matchTeamMap !! name t) →
  is_Some (totalTeamIndexMap (foldl visit st ts) !! name t).
Proof.
  revert st. induction ts as [|team rest IH]; intros st Hin Hm.
  { by apply elem_of_nil in Hin. }
  cbn [foldl]. apply elem_of_cons in Hin as [->|Hin]; [|by apply IH].
  apply pass_lookup_mono. destruct Hm as [matchTeam Hm].
  destruct (visit_step panel_height matchTeamMap playersMap st team
              matchTeam Hm) as (-> & _).
  by rewrite lookup_insert_eq.
Qed.

Lemma pass_index (ts : list Team2Data) (st : pass) :
  currentIndex (foldl visit st ts) =
  currentIndex st + Z.of_nat (length (inMatchTeams matchTeamMap ts)).
Proof.
  revert st. induction ts as [|team rest IH]; intros st; simpl; [lia|].
  rewrite IH. unfold inMatchTeams. rewrite filter_cons.
  destruct (matchTeamMap !! name team) as [matchTeam|] eqn:Hm.
  - destruct (visit_step panel_height matchTeamMap playersMap st team
                matchTeam Hm) as (_ & -> & _).
    rewrite decide_True by done. simpl length. lia.
  - rewrite (visit_skip panel_height matchTeamMap playersMap st team Hm).
    rewrite decide_False; [done|]. by intros [? ?].
Qed.

End FreshPassFacts.

Section PassShapeClaims.

Import LiveTeamPanel LiveStanding LiveStandingData.

Variable panel_height : Z.

Lemma outcome_of_pass (totalTeams : list Team2Data)
    (matchTeamMap : gmap string Team2Data)
    (playersMap : gmap string (list Player2Data))
    (refresh : bool) (before : gmap string Panel) :
  let st := foldl (visit panel_height matchTeamMap playersMap)
              (beginPass before) (take 16 totalTeams) in
  let out := updateTotalLeaderboardOnUIThread panel_height true totalTeams
               matchTeamMap playersMap refresh before in
  panels out = totalTeamIndexMap st ∧ rankEvents out = rankChanges st ∧
  ended out = matchEnded st.
Proof.
  intros st out. subst out. unfold updateTotalLeaderboardOnUIThread. simpl.
  fold st. by destruct (matchEnded st).
Qed.

(** X21.  A pass that starts without panels, as the first pass and every
    pass of a refresh message do, plays no rank animation and reports as
    just eliminated every displayed team of the match that has players
    none of whom is alive, whether or not an earlier pass had reported it
    (provided no name is displayed twice).  A refresh message starts from
    no panels whatever panels there were. *)
Theorem pass_without_panels_reports_every_squad_down
    (totalTeams : list Team2Data)
    (matchTeamMap : gmap string Team2Data)
    (playersMap : gmap string (list Player2Data)) (refresh : bool) :
  NoDup (name <$> take 16 totalTeams) →
  justEliminatedInPass panel_height matchTeamMap playersMap ∅ 1
    (take 16 totalTeams)
  = omap (outOnArrival matchTeamMap playersMap) (take 16 totalTeams) ∧
  rankEvents (updateTotalLeaderboardOnUIThread panel_height true totalTeams
                matchTeamMap playersMap refresh ∅) = [] ∧
  (∀ localeCompare container now observerMessage before,
     LiveStandingData.refresh observerMessage = true →
     updateLiveStandingData panel_height localeCompare container now
       observerMessage before
     = updateLiveStandingData panel_height localeCompare container now
         observerMessage ∅).
Proof.
  intros Hnd. split_and!.
  - apply fresh_pass_reports; [done|]. intros t _. apply lookup_empty.
  - destruct (outcome_of_pass totalTeams matchTeamMap playersMap refresh ∅)
      as (_ & -> & _).
    rewrite fresh_pass_ranks; [done..|]. intros t _. apply lookup_empty.
  - intros localeCompare container now observerMessage before Hr.
    unfold updateLiveStandingData. by rewrite Hr.
Qed.

(** X22.  A pass touches the panels of the displayed teams that are in
    the current match and no other: afterwards each of these teams has a
    panel, the panel of any other name is as it was, and no panel has been
    removed.  At most sixteen teams are visited, and a displayed team that
    is not in the match is skipped without taking a display index. *)
Theorem pass_touches_only_displayed_match_teams
    (totalTeams : list Team2Data)
    (matchTeamMap : gmap string Team2Data)
    (playersMap : gmap string (list Player2Data))
    (refresh : bool) (before : gmap string Panel) :
  let visited := inMatchTeams matchTeamMap (take 16 totalTeams) in
  let out := updateTotalLeaderboardOnUIThread panel_height true totalTeams
               matchTeamMap playersMap refresh before in
  (∀ t, t ∈ visited → is_Some (panels out !! name t)) ∧
  (∀ k, k ∉ name <$> visited → panels out !! k = before !! k) ∧
  (∀ k, is_Some (before !! k) → is_Some (panels out !! k)) ∧
  (length visited ≤ 16)%nat ∧
  currentIndex (foldl (visit panel_height matchTeamMap playersMap)
                  (beginPass before) (take 16 totalTeams))
    = 1 + Z.of_nat (length visited) ∧
  panels (updateTotalLeaderboardOnUIThread panel_height false totalTeams
            matchTeamMap playersMap refresh before) = before.
Proof.
  intros visited out.
  destruct (outcome_of_pass totalTeams matchTeamMap playersMap refresh before)
    as (Hp & _ & _).
  fold out in Hp. rewrite Hp.
  split_and!.
  - intros t [Ht Hin]%list_elem_of_filter. by apply pass_lookup_visited.
  - intros k Hk. apply pass_lookup_other. intros t Ht Hm <-.
    apply Hk, list_elem_of_fmap_2. by apply list_elem_of_filter.
  - intros k Hk. by apply pass_lookup_mono.
  - subst visited. unfold inMatchTeams.
    etrans; [apply length_filter|]. rewrite length_take. lia.
  - by rewrite pass_index.
  - done.
Qed.

(** X23.  For a clock that has not gone back behind the start of the
    session, [getElapsedTime] splits the elapsed milliseconds into whole
    hours, minutes below 60 and seconds below 60, and drops less than a
    second. *)
Theorem elapsed_time_is_split_exactly (startTime now : Z) :
  startTime ≤ now →
  let t := getElapsedTime startTime now in
  0 ≤ hours t ∧ 0 ≤ minutes t < 60 ∧ 0 ≤ seconds t < 60 ∧
  hours t * 3600000 + minutes t * 60000 + seconds t * 1000 ≤ now - startTime ∧
  now - startTime < hours t * 3600000 + minutes t * 60000 + seconds t * 1000 + 1000.
Proof.
  intros H. unfold getElapsedTime. simpl.
  set (e := now - startTime). assert (0 ≤ e) as He by (subst e; lia).
  rewrite !Z.rem_mod_nonneg by lia.
  pose proof (Z.div_mod e 3600000 ltac:(lia)) as H1.
  pose proof (Z.mod_pos_bound e 3600000 ltac:(lia)) as H2.
  pose proof (Z.div_mod (e mod 3600000) 60000 ltac:(lia)) as H3.
  pose proof (Z.mod_pos_bound (e mod 3600000) 60000 ltac:(lia)) as H4.
  pose proof (Z.div_mod e 60000 ltac:(lia)) as H5.
  pose proof (Z.mod_pos_bound e 60000 ltac:(lia)) as H6.
  pose proof (Z.div_mod (e mod 60000) 1000 ltac:(lia)) as H7.
  pose proof (Z.mod_pos_bound (e mod 60000) 1000 ltac:(lia)) as H8.
  assert ((e mod 3600000) mod 60000 = e mod 60000) as H9.
  { apply Z.mod_mod_divide. exists 60. lia. }
  pose proof (Z.div_pos e 3600000 He ltac:(lia)) as H10.
  pose proof (Z.div_pos (e mod 3600000) 60000 ltac:(lia) ltac:(lia)) as H11.
  pose proof (Z.div_pos (e mod 60000) 1000 ltac:(lia) ltac:(lia)) as H12.
  split_and!; lia.
Qed.

End PassShapeClaims.

Section PassShapeRuns.

Import MatchStateOps LiveTeamPanel LiveStanding LiveStandingData.

Lemma matchIdToString_witness :
  matchIdToString [Byte.x0a; Byte.xff]
    = matchIdToString [Byte.x0a; Byte.xff] ∧
  [Byte.x0a; Byte.xff] = [Byte.x0a; Byte.xff] ∧
  String.length (matchIdToString [Byte.x0a; Byte.xff]) = 5%nat.
Proof.
  destruct (matchIdToString_injective [Byte.x0a; Byte.xff]
              [Byte.x0a; Byte.xff]) as [Hinj Hlen].
  split; [reflexivity|]. split; [apply Hinj; reflexivity | exact Hlen].
Defined.

Lemma teamMap_witness :
  "Bravo" ∈ name <$> team_stats (sampleMessage true) ∧
  is_Some (sampleTeamMap !! "Bravo") ∧
  sampleTeamMap !! "Bravo" = Some (bravo 3).
Proof.
  destruct (teamMap_keeps_last_record (team_stats (sampleMessage true))
              "Bravo") as [Hlast Hkey].
  assert ("Bravo" ∈ name <$> team_stats (sampleMessage true)) as Hin.
  { apply (list_elem_of_lookup_2 _ 1%nat). vm_compute. reflexivity. }
  split; [exact Hin|]. split; [apply Hkey, Hin|].
  unfold sampleTeamMap. rewrite Hlast. vm_compute. reflexivity.
Defined.

Lemma displayed_teams_witness :
  teamNo 16 ∈ take 16 (sort (byRankThenName sampleCompare) league) ∧
  teamNo 17 ∈ drop 16 (sort (byRankThenName sampleCompare) league) ∧
  rank (teamNo 16) ≤ rank (teamNo 17).
Proof.
  assert (teamNo 16 ∈ take 16 (sort (byRankThenName sampleCompare) league))
    as H1.
  { apply (list_elem_of_lookup_2 _ 15%nat). vm_compute. reflexivity. }
  assert (teamNo 17 ∈ drop 16 (sort (byRankThenName sampleCompare) league))
    as H2.
  { apply (list_elem_of_lookup_2 _ 0%nat). vm_compute. reflexivity. }
  split; [exact H1|]. split; [exact H2|].
  destruct (displayed_teams_are_the_best_ranked sampleCompare league)
    as (_ & _ & H).
  exact (H (teamNo 16) (teamNo 17) H1 H2).
Defined.

Lemma sample_names_differ : NoDup (name <$> take 16 sampleTotals).
Proof.
  replace (name <$> take 16 sampleTotals)
    with ["Alpha"; "Bravo"; "Charlie"; "Delta"] by (vm_compute; reflexivity).
  repeat (apply NoDup_cons; split;
          [intros H;
           repeat (apply elem_of_cons in H as [H|H]; [discriminate|]);
           by apply elem_of_nil in H|]).
  apply NoDup_nil_2.
Qed.

Lemma pass_without_panels_witness :
  NoDup (name <$> take 16 sampleTotals) ∧
  justEliminatedInPass 40 sampleTeamMap samplePlayersMap ∅ 1
    (take 16 sampleTotals)
  = omap (outOnArrival sampleTeamMap samplePlayersMap) (take 16 sampleTotals) ∧
  omap (outOnArrival sampleTeamMap samplePlayersMap) (take 16 sampleTotals)
  = [bravo 3; charlie 4] ∧
  rankEvents (updateTotalLeaderboardOnUIThread 40 true sampleTotals
                sampleTeamMap samplePlayersMap true ∅) = [].
Proof.
  destruct (pass_without_panels_reports_every_squad_down 40 sampleTotals
              sampleTeamMap samplePlayersMap true sample_names_differ)
    as (Hout & Hrank & _).
  split; [exact sample_names_differ|]. split; [exact Hout|].
  split; [vm_compute; reflexivity | exact Hrank].
Defined.

Lemma pass_touches_witness :
  ("Delta" ∉ name <$> inMatchTeams sampleTeamMap (take 16 sampleTotals)) ∧
  panels (updateTotalLeaderboardOnUIThread 40 true sampleTotals sampleTeamMap
            samplePlayersMap false {[ "Delta" := placed 4 ]}) !! "Delta"
  = Some (placed 4) ∧
  is_Some (panels (updateTotalLeaderboardOnUIThread 40 true sampleTotals
                     sampleTeamMap samplePlayersMap false
                     {[ "Delta" := placed 4 ]}) !! "Bravo").
Proof.
  destruct (pass_touches_only_displayed_match_teams 40 sampleTotals
              sampleTeamMap samplePlayersMap false {[ "Delta" := placed 4 ]})
    as (Hin & Hother & _).
  assert ("Delta" ∉ name <$> inMatchTeams sampleTeamMap (take 16 sampleTotals))
    as Hd.
  { replace (name <$> inMatchTeams sampleTeamMap (take 16 sampleTotals))
      with ["Alpha"; "Bravo"; "Charlie"] by (vm_compute; reflexivity).
    intros H. repeat (apply elem_of_cons in H as [H|H]; [discriminate|]).
    by apply elem_of_nil in H. }
  split; [exact Hd|]. split.
  - rewrite (Hother "Delta" Hd). apply lookup_singleton_eq.
  - apply (Hin (bravo 3)).
    apply (list_elem_of_lookup_2 _ 1%nat). vm_compute. reflexivity.
Defined.

Lemma elapsed_time_witness :
  1000 ≤ 3726500 ∧
  hours (getElapsedTime 1000 3726500) = 1 ∧
  0 ≤ minutes (getElapsedTime 1000 3726500) < 60 ∧
  0 ≤ seconds (getElapsedTime 1000 3726500) < 60.
Proof.
  destruct (elapsed_time_is_split_exactly 1000 3726500 ltac:(lia))
    as (_ & Hm & Hs & _).
  split; [lia|]. split; [reflexivity|]. split; [exact Hm | exact Hs].
Defined.

End PassShapeRuns.


(* ===================================================================== *)
(** * Properties of the message converter *)
(* ===================================================================== *)

Section ConverterFacts.

Import LiveTeamPanel LiveStanding LiveStandingData MessageDataConverter.








(** X25.  For a player made by the converter, the classification by
    [death_type], which the panel uses, and the one by the telemetry
    flags say the same; [death_type] is never empty, so the flags are not
    consulted; and the elimination test counts the player as not alive
    when the flags say dead or knocked down. *)
Theorem converted_player_conditions_agree (p : Player2Data)
    (postDataPb : option RawPostData) :
  post_data_pb p = Some (readByPanels (convertPostData postDataPb)) →
  telemetry_pb p = Some (convertPlayerTelemetry postDataPb) →
  knownDeathType p
    = Some (MessageDataConverter.death_type (convertPostData postDataPb)) ∧
  classify p =
    (if is_alive (convertPlayerTelemetry postDataPb)
     then if is_groggy (convertPlayerTelemetry postDataPb)
          then isGroggy else isAlive
     else isDead) ∧
  notAlive p = negb (is_alive (convertPlayerTelemetry postDataPb))
               || is_groggy (convertPlayerTelemetry postDataPb).
Proof.
  intros Hpd Ht. unfold classify, notAlive, knownDeathType.
  rewrite Hpd. clear Hpd Ht.
  assert (∀ s, String.eqb s EmptyString = false →
    (if String.eqb s "alive" then isAlive
     else if String.eqb s "groggy" then isGroggy else isDead)
    = (if String.eqb s "alive" || String.eqb s "groggy"
       then if String.eqb s "groggy" then isGroggy else isAlive
       else isDead) ∧
    negb (String.eqb s "alive")
    = negb (String.eqb s "alive" || String.eqb s "groggy")
      || String.eqb s "groggy") as Hs.
  { intros s _. destruct (String.eqb_spec s "alive") as [->|_]; [done|].
    by destruct (String.eqb s "groggy"). }
  destruct postDataPb as [[[s|] dd k]|]; simpl; [|done..].
  destruct (String.eqb s EmptyString) eqn:E; simpl; [done|].
  rewrite E. by destruct (Hs s E) as [-> ->].
Qed.

Section ConvertedTeams.

Variable panel_height : Z.
Variable parseInt : string → option Z.




End ConvertedTeams.

End ConverterFacts.

Section ConverterRuns.

Import LiveTeamPanel LiveStanding LiveStandingData MessageDataConverter.

(** A knocked-down player as the converter makes it. *)
Lemma converted_player_witness :
  notAlive (converted "a1" "Alpha" 1
              (Some (mkRawPostData (Some "groggy") None None))) = true ∧
  classify (converted "a1" "Alpha" 1
              (Some (mkRawPostData (Some "groggy") None None))) = isGroggy.
Proof.
  destruct (converted_player_conditions_agree
              (converted "a1" "Alpha" 1
                 (Some (mkRawPostData (Some "groggy") None None)))
              (Some (mkRawPostData (Some "groggy") None None))
              eq_refl eq_refl) as (_ & Hc & Hn).
  split; [rewrite Hn | rewrite Hc]; reflexivity.
Defined.


End ConverterRuns.


(* ===================================================================== *)
(** * Properties of the elimination overlay *)
(* ===================================================================== *)

Section OverlayFacts.

Import LiveTeamPanel LiveStanding EliminationOverlay.

Lemma processQueue_accounts (raw : list (list Team2Data)) (o : Overlay)
    (all : list Team2Data) (n : Z) :
  accountsFor raw o all → queue o ≠ [] →
  accountsFor (raw ++ [take 3 (queue o)]) (processQueue n o) all ∧
  isProcessing (processQueue n o) = true ∧
  pending (processQueue n o) = Displaying n.
Proof.
  intros (Hd & Hl & Hc) Hq. unfold processQueue.
  destruct (queue o) as [|t q] eqn:E; [done|].
  split; [|done]. split_and!; cbn [displayed queue].
  - apply Forall2_app; [done|]. constructor; [done | constructor].
  - apply Forall_app. split; [done|]. constructor; [|done].
    rewrite length_take. cbn [length]. lia.
  - rewrite concat_app. cbn [concat]. rewrite app_nil_r, <-Hc, <-app_assoc.
    by rewrite take_drop.
Qed.

Lemma enqueuedTeams_snoc (es : list event) (e : event) :
  enqueuedTeams (es ++ [e]) =
  enqueuedTeams es ++ match e with
                      | Enqueue eliminatedTeams _ => eliminatedTeams
                      | _ => []
                      end.
Proof.
  unfold enqueuedTeams. rewrite omap_app, concat_app.
  destruct e; simpl; by rewrite ?app_nil_r.
Qed.

Lemma step_accounts (raw : list (list Team2Data)) (o : Overlay)
    (all : list Team2Data) (e : event) :
  accountsFor raw o all →
  (isProcessing o = false ↔ pending o = Idle) →
  (isProcessing o = false → queue o = []) →
  ∃ raw',
    accountsFor raw' (step o e)
      (all ++ match e with
              | Enqueue eliminatedTeams _ => eliminatedTeams
              | _ => []
              end) ∧
    (isProcessing (step o e) = false ↔ pending (step o e) = Idle) ∧
    (isProcessing (step o e) = false → queue (step o e) = []).
Proof.
  intros Hacc Hidle Hempty. destruct e as [ts n| |]; cbn [step].
  - unfold enqueue. destruct ts as [|t ts].
    { exists raw. by rewrite app_nil_r. }
    cbn [isProcessing].
    set (o1 := {| queue := queue o ++ t :: ts; isProcessing := isProcessing o;
                  pending := pending o; displayed := displayed o |}).
    assert (accountsFor raw o1 (all ++ t :: ts)) as Hacc1.
    { destruct Hacc as (Hd & Hl & Hc). split_and!; [done..|].
      cbn [queue o1]. by rewrite app_assoc, Hc. }
    destruct (isProcessing o) eqn:Hp.
    + exists raw. split; [done|]. split; [done | by intros [=]].
    + destruct (processQueue_accounts raw o1 (all ++ t :: ts) n Hacc1)
        as (Hacc2 & Hp2 & Hs2).
      { cbn [queue o1]. by destruct (queue o). }
      eexists. split; [exact Hacc2|]. rewrite Hp2, Hs2. done.
  - rewrite app_nil_r. destruct (pending o) as [|n|n] eqn:Hs.
    + exists raw. by rewrite Hs.
    + exists raw. cbn [isProcessing pending queue]. split; [exact Hacc|].
      destruct (isProcessing o) eqn:Hp; [done|].
      destruct Hidle as [Hidle _]. by specialize (Hidle eq_refl).
    + exists raw. by rewrite Hs.
  - rewrite app_nil_r. destruct (pending o) as [|n|n] eqn:Hs.
    + exists raw. by rewrite Hs.
    + exists raw. by rewrite Hs.
    + destruct (queue o) as [|t q] eqn:Hq.
      * exists raw. unfold processQueue. rewrite Hq.
        cbn [isProcessing pending queue]. split; [|done].
        destruct Hacc as (Hd & Hl & Hc). split_and!; [done..|].
        cbn [queue]. by rewrite <-Hc, Hq.
      * destruct (processQueue_accounts raw o all n Hacc)
          as (Hacc2 & Hp2 & Hs2).
        { by rewrite Hq. }
        eexists. split; [exact Hacc2|]. by rewrite Hp2, Hs2.
Qed.

(** X27.  Whatever the order of [enqueue] calls and timers, the overlay
    shows the teams handed to it in the order they came, once each, in
    batches of one to three, each batch sorted for display; what has not
    been shown yet is in the queue.  The queue holds teams only while
    [isProcessing] is set, and [isProcessing] is set exactly while a timer
    of the overlay is pending. *)
Theorem overlay_shows_teams_in_batches_of_three (es : list event) :
  (isProcessing (run es create) = false ↔ pending (run es create) = Idle) ∧
  (isProcessing (run es create) = false → queue (run es create) = []) ∧
  ∃ raw, accountsFor raw (run es create) (enqueuedTeams es).
Proof.
  assert (∃ raw, accountsFor raw (run es create) (enqueuedTeams es) ∧
     (isProcessing (run es create) = false ↔ pending (run es create) = Idle) ∧
     (isProcessing (run es create) = false → queue (run es create) = []))
    as (raw & H1 & H2 & H3); [|by eauto].
  induction es as [|e es IH] using rev_ind.
  { exists []. split; [|done]. split_and!; by constructor. }
  destruct IH as (raw & H1 & H2 & H3).
  unfold run. rewrite foldl_app, enqueuedTeams_snoc. cbn [foldl].
  by apply (step_accounts raw).
Qed.

Lemma busy_step (n : Z) (o : Overlay) (e : event) :
  pending o = Displaying n ∨ pending o = Pausing n →
  isProcessing o = true →
  Forall (λ s, outOf s = n) (displayed o) →
  isIdle (step o e) = false →
  (pending (step o e) = Displaying n ∨ pending (step o e) = Pausing n) ∧
  isProcessing (step o e) = true ∧
  Forall (λ s, outOf s = n) (displayed (step o e)).
Proof.
  intros Hs Hp Hd Hidle. destruct e as [ts m| |]; cbn [step] in *.
  - unfold enqueue in *. destruct ts as [|t ts]; [done|].
    cbn [isProcessing] in *. rewrite Hp in *. done.
  - destruct (pending o) as [|k|k] eqn:Hk.
    + by destruct Hs.
    + destruct Hs as [[= ->]|[=]]. split_and!; [by right|done|done].
    + destruct Hs as [[=]|[= ->]]. split_and!; [right; exact Hk|done|done].
  - destruct (pending o) as [|k|k] eqn:Hk.
    + by destruct Hs.
    + destruct Hs as [[= ->]|[=]]. split_and!; [left; exact Hk|done|done].
    + destruct Hs as [[=]|[= ->]]. unfold processQueue, isIdle in *.
      destruct (queue o); [done|]. cbn [pending isProcessing displayed].
      split_and!; [by left|done|].
      apply Forall_app. split; [done|]. by constructor.
Qed.

Lemma busy_run (n : Z) (es : list event) (o : Overlay) :
  pending o = Displaying n ∨ pending o = Pausing n →
  isProcessing o = true →
  Forall (λ s, outOf s = n) (displayed o) →
  keepsBusy es o = true →
  Forall (λ s, outOf s = n) (displayed (run es o)).
Proof.
  revert o. induction es as [|e es IH]; intros o Hs Hp Hd Hb; [done|].
  cbn [keepsBusy] in Hb. apply andb_true_iff in Hb as [Hidle Hb].
  apply negb_true_iff in Hidle.
  destruct (busy_step n o e Hs Hp Hd Hidle) as (Hs' & Hp' & Hd').
  unfold run. cbn [foldl]. by apply IH.
Qed.

(** X28.  The team count of the rank line is the one given to the
    [enqueue] call that found the overlay idle: until the overlay falls
    idle again every batch is shown with that count, and the counts given
    to the [enqueue] calls in between are not used. *)
Theorem overlay_keeps_team_count_of_first_enqueue
    (eliminatedTeams : list Team2Data) (totalTeamCount : Z)
    (es : list event) :
  eliminatedTeams ≠ [] →
  keepsBusy es (enqueue eliminatedTeams totalTeamCount create) = true →
  Forall (λ s, outOf s = totalTeamCount)
    (displayed (run es (enqueue eliminatedTeams totalTeamCount create))).
Proof.
  intros Hne Hb. apply busy_run; [| | |done];
    destruct eliminatedTeams; try done.
  - by left.
  - by repeat constructor.
Qed.

End OverlayFacts.

Section OverlayRuns.

Import LiveTeamPanel LiveStanding EliminationOverlay.

Lemma overlay_batches_witness :
  isProcessing (run [Enqueue [charlie 4] 16; DisplayTimeout; PauseTimeout]
                  create) = false ∧
  queue (run [Enqueue [charlie 4] 16; DisplayTimeout; PauseTimeout] create)
  = [].
Proof.
  destruct (overlay_shows_teams_in_batches_of_three
              [Enqueue [charlie 4] 16; DisplayTimeout; PauseTimeout])
    as (_ & Hq & _).
  assert (isProcessing (run [Enqueue [charlie 4] 16; DisplayTimeout;
                             PauseTimeout] create) = false) as Hp
    by (vm_compute; reflexivity).
  split; [exact Hp | exact (Hq Hp)].
Defined.

Lemma overlay_count_witness :
  [charlie 4] ≠ [] ∧
  keepsBusy lateEnqueue (enqueue [charlie 4] 16 create) = true ∧
  Forall (λ s, outOf s = 16)
    (displayed (run lateEnqueue (enqueue [charlie 4] 16 create))) ∧
  length (displayed (run lateEnqueue (enqueue [charlie 4] 16 create)))
  = 2%nat.
Proof.
  assert ([charlie 4] ≠ []) as Hne by discriminate.
  assert (keepsBusy lateEnqueue (enqueue [charlie 4] 16 create) = true) as Hb
    by (vm_compute; reflexivity).
  split; [exact Hne|]. split; [exact Hb|].
  split; [|vm_compute; reflexivity].
  exact (overlay_keeps_team_count_of_first_enqueue [charlie 4] 16 lateEnqueue
           Hne Hb).
Defined.

End OverlayRuns.


(* ===================================================================== *)
(** * Properties of the data queue of the overlay page *)
(* ===================================================================== *)

Section QueueFacts.

Import LiveTeamPanel LiveStanding LiveStandingData LiveStandingQueue.

Context {RawData : Type}.
Variable convertToObserverMessage2 : RawData → option ObserverMessage2.
Variable panel_height : Z.
Variable localeCompare : string → string → Z.

Local Abbreviation step :=
  (step convertToObserverMessage2 panel_height localeCompare).
Local Abbreviation run :=
  (run convertToObserverMessage2 panel_height localeCompare).
Local Abbreviation processDataFromQueue :=
  (processDataFromQueue convertToObserverMessage2 panel_height localeCompare).

Lemma processDataFromQueue_takes (now : Z) (container : bool)
    (p : Page) (observerData : RawData) (rest : list RawData) :
  dataQueue p = observerData :: rest → isProcessingData p = false →
  dataQueue (processDataFromQueue now container p) = rest ∧
  isProcessingData (processDataFromQueue now container p) = true ∧
  cooldowns (processDataFromQueue now container p) = S (cooldowns p) ∧
  taken (processDataFromQueue now container p) = taken p ++ [observerData] ∧
  dataProcessingInterval (processDataFromQueue now container p)
  = dataProcessingInterval p.
Proof.
  intros Hq Hp. unfold LiveStandingQueue.processDataFromQueue.
  rewrite Hq, Hp.
  by destruct (convertToObserverMessage2 observerData) as [m|];
    [destruct (negb _)|].
Qed.

Lemma step_keeps_account (p : Page) (e : event) (fired : nat) :
  cooldowns p = (if isProcessingData p then 1 else 0)%nat →
  (length (taken p) ≤ fired + cooldowns p)%nat →
  taken (step p e) ++ dataQueue (step p e) =
    taken p ++ dataQueue p ++ match e with Receive d => [d] | _ => [] end ∧
  cooldowns (step p e) = (if isProcessingData (step p e) then 1 else 0)%nat ∧
  (length (taken (step p e))
   ≤ fired + match e with CooldownFires => 1 | _ => 0 end
     + cooldowns (step p e))%nat.
Proof.
  intros Hc Hl. destruct e as [d|now container| | |]; cbn [step LiveStandingQueue.step].
  - cbn. split_and!; [done|done|lia].
  - destruct (dataProcessingInterval p);
      [|rewrite app_nil_r; split_and!; [done|done|lia]].
    destruct (dataQueue p) as [|d rest] eqn:Hq.
    { unfold LiveStandingQueue.processDataFromQueue. rewrite Hq.
      rewrite Hq. split_and!; [done|done|lia]. }
    destruct (isProcessingData p) eqn:Hp.
    { unfold LiveStandingQueue.processDataFromQueue. rewrite Hq, Hp.
      rewrite Hq, Hp, app_nil_r. split_and!; [done|done|lia]. }
    destruct (processDataFromQueue_takes now container p d rest Hq Hp)
      as (-> & -> & -> & -> & _).
    rewrite Hc, length_app, app_nil_r, <-app_assoc. cbn [length].
    split_and!; [done|done|lia].
  - rewrite app_nil_r. destruct (cooldowns p) as [|k] eqn:Hk.
    + rewrite Hk. split_and!; [done|done|lia].
    + assert (isProcessingData p = true ∧ k = 0%nat) as [Hp ->]
        by (destruct (isProcessingData p); split; congruence).
      cbn. rewrite Hk. cbn. split_and!; [done|done|lia].
  - rewrite app_nil_r. cbn. split_and!; [done|done|lia].
  - rewrite app_nil_r. cbn. split_and!; [done|done|lia].
Qed.

(** X29.  The page takes the data off its queue in the order of arrival
    and loses none: what has been taken, followed by the queue, is what
    arrived.  A cool-down timer is pending exactly while
    [isProcessingData] is set, never two; and one more piece of data has
    been taken than cool-down timers have fired, at the most. *)
Theorem page_takes_data_in_order_one_per_cooldown (es : list event) :
  taken (run es) ++ dataQueue (run es) = received es ∧
  cooldowns (run es) = (if isProcessingData (run es) then 1 else 0)%nat ∧
  (length (taken (run es)) ≤ cooldownsFired es + 1)%nat.
Proof.
  assert (taken (run es) ++ dataQueue (run es) = received es ∧
          cooldowns (run es) = (if isProcessingData (run es) then 1 else 0)%nat ∧
          (length (taken (run es)) ≤ cooldownsFired es + cooldowns (run es))%nat)
    as (H1 & H2 & H3).
  { induction es as [|e es IH] using rev_ind; [by cbn|].
    destruct IH as (H1 & H2 & H3).
    unfold LiveStandingQueue.run in *. rewrite foldl_app. cbn [foldl].
    destruct (step_keeps_account _ e _ H2 H3) as (-> & -> & H).
    unfold received, cooldownsFired in *. rewrite !omap_app, length_app.
    rewrite app_assoc, H1. split; [by destruct e|]. split; [done|].
    etrans; [exact H|]. destruct e; cbn; lia. }
  split; [done|]. split; [done|].
  rewrite H2 in H3. destruct (isProcessingData _); lia.
Qed.

(** X30.  The panels and the live-standing state change only when the
    interval timer fires while it is set, no cool-down is running, and the
    data at the head of the queue converts to a message that passes the
    validation; the panels are then those of [updateLiveStandingData] on
    that message. *)
Theorem page_changes_only_by_accepted_message (p : Page) (e : event) :
  totalTeamIndexMap (step p e) ≠ totalTeamIndexMap p ∨
  liveStandingState (step p e) ≠ liveStandingState p →
  ∃ now container observerData observerMessage,
    e = IntervalFires now container ∧
    dataProcessingInterval p = true ∧
    isProcessingData p = false ∧
    head (dataQueue p) = Some observerData ∧
    convertToObserverMessage2 observerData = Some observerMessage ∧
    MessageDataConverter.validateObserverMessage2 observerMessage = true ∧
    totalTeamIndexMap (step p e) =
      panels (updateLiveStandingData panel_height localeCompare container now
                observerMessage (totalTeamIndexMap p)).2.
Proof.
  intros H. destruct e as [d|now container| | |];
    cbn [step LiveStandingQueue.step] in *;
    try (exfalso; by destruct H as [H|H]; apply H).
  - destruct (dataProcessingInterval p) eqn:Hi;
      [|exfalso; by destruct H as [H|H]; apply H].
    unfold LiveStandingQueue.processDataFromQueue in *.
    destruct (dataQueue p) as [|d rest] eqn:Hq;
      [exfalso; by destruct H as [H|H]; apply H|].
    destruct (isProcessingData p) eqn:Hp;
      [exfalso; by destruct H as [H|H]; apply H|].
    destruct (convertToObserverMessage2 d) as [m|] eqn:Hc;
      [|exfalso; by destruct H as [H|H]; apply H].
    destruct (MessageDataConverter.validateObserverMessage2 m) eqn:Hv;
      [|exfalso; by destruct H as [H|H]; apply H].
    by exists now, container, d, m.
  - exfalso. destruct (cooldowns p); by destruct H as [H|H]; apply H.
Qed.

End QueueFacts.

Section QueueRuns.

Import LiveTeamPanel LiveStanding LiveStandingData LiveStandingQueue.

Lemma page_changes_witness :
  liveStandingState
    (step sampleConvert 40 sampleCompare
       (run sampleConvert 40 sampleCompare [Start; Receive (sampleMessage true)])
       (IntervalFires 5 true))
  ≠ liveStandingState
      (run sampleConvert 40 sampleCompare [Start; Receive (sampleMessage true)]) ∧
  isProcessingData
    (run sampleConvert 40 sampleCompare [Start; Receive (sampleMessage true)])
  = false.
Proof.
  assert (liveStandingState
    (step sampleConvert 40 sampleCompare
       (run sampleConvert 40 sampleCompare [Start; Receive (sampleMessage true)])
       (IntervalFires 5 true))
  ≠ liveStandingState
      (run sampleConvert 40 sampleCompare [Start; Receive (sampleMessage true)]))
    as Hne.
  { intros Heq. apply (f_equal isConnected) in Heq. vm_compute in Heq.
    discriminate Heq. }
  split; [exact Hne|].
  destruct (page_changes_only_by_accepted_message sampleConvert 40
              sampleCompare _ _ (or_intror Hne))
    as (now & container & d & m & _ & _ & Hp & _).
  exact Hp.
Defined.

End QueueRuns.
